(** * solaredge-bsuf: the stream readers of [datareader.py] and the
      container decoder of [dmpbsuf.py], as a shallow embedding.

    Python integers are [Z]; [bytes] objects are lists of [Byte.byte];
    methods that mutate [self] are state transformers that also return
    the value or the exception the call ends with.  An exception keeps
    whatever was assigned before it was raised, as in Python. *)

From stdpp Require Import gmap strings list.
From Stdlib Require Import ZArith Lia.
From Stdlib.Strings Require Import Byte Ascii.
From Stdlib Require DecimalString HexadecimalString.

Local Open Scope Z_scope.

(** ** Python values and exceptions *)

Definition bytes := list byte.

(** The exceptions the two modules can end with.  [Exception msg] is a
    plain [raise Exception(msg)]. *)
Inductive exn : Type :=
  | EOFError
  | ValueError
  | OSError
  | UnsupportedOperation
  | StructError
  | TypeError
  | IndexError
  | AttributeError
  | NameError
  | UnboundLocalError
  | Exception (msg : string).

(** A call on state [S]: the state after the call together with the
    returned value or the raised exception. *)
Definition M (S A : Type) : Type := S -> (exn + A) * S.

Definition ret {S A} (a : A) : M S A := fun s => (inr a, s).
Definition raise {S A} (e : exn) : M S A := fun s => (inl e, s).
Definition bind {S A B} (m : M S A) (k : A -> M S B) : M S B :=
  fun s => match m s with
           | (inl e, s') => (inl e, s')
           | (inr a, s') => k a s'
           end.
Definition get {S} : M S S := fun s => (inr s, s).
Definition modify {S} (f : S -> S) : M S unit := fun s => (inr tt, f s).

Notation "x <- m ;; k" := (bind m (fun x => k))
  (at level 100, m at next level, right associativity).
Notation "m ;;; k" := (bind m (fun _ => k))
  (at level 100, right associativity).

Definition len {A} (l : list A) : Z := Z.of_nat (length l).

(** [l[a:b]] with Python's treatment of negative and out-of-range
    bounds. *)
Definition slice_bound (n i : Z) : Z :=
  if i <? 0 then Z.max 0 (i + n) else Z.min i n.

Definition py_slice {A} (l : list A) (a b : Z) : list A :=
  let a' := slice_bound (len l) a in
  let b' := slice_bound (len l) b in
  firstn (Z.to_nat (b' - a')) (skipn (Z.to_nat a') l).

(** [l[a:]] *)
Definition py_slice_from {A} (l : list A) (a : Z) : list A :=
  skipn (Z.to_nat (slice_bound (len l) a)) l.

(** [l[i]] *)
Definition py_index (l : bytes) (i : Z) : exn + Z :=
  let j := if i <? 0 then i + len l else i in
  if (j <? 0) || (len l <=? j) then inl IndexError
  else inr (Z.of_N (Byte.to_N (nth (Z.to_nat j) l x00))).

(** ** [struct.unpack] for the formats the readers use *)

Module Struct.

Inductive endian := LittleEndian | BigEndian.

(** h: int16, H: uint16, B: uint8, L: uint32, Q: uint64 *)
Inductive code := c_h | c_H | c_B | c_L | c_Q.

Definition code_size (c : code) : nat :=
  match c with
  | c_B => 1 | c_h | c_H => 2 | c_L => 4 | c_Q => 8
  end%nat.

Definition code_signed (c : code) : bool :=
  match c with c_h => true | _ => false end.

Definition parse_code (a : ascii) : option code :=
  if Ascii.eqb a "h" then Some c_h
  else if Ascii.eqb a "H" then Some c_H
  else if Ascii.eqb a "B" then Some c_B
  else if Ascii.eqb a "L" then Some c_L
  else if Ascii.eqb a "Q" then Some c_Q
  else None.

Fixpoint parse_codes (s : string) : option (list code) :=
  match s with
  | EmptyString => Some []
  | String a s' =>
      match parse_code a, parse_codes s' with
      | Some c, Some cs => Some (c :: cs)
      | _, _ => None
      end
  end.

Definition parse (fmt : string) : option (endian * list code) :=
  match fmt with
  | String a s' =>
      if Ascii.eqb a "<" then option_map (pair LittleEndian) (parse_codes s')
      else if Ascii.eqb a ">" then option_map (pair BigEndian) (parse_codes s')
      else None
  | EmptyString => None
  end.

Definition calcsize (cs : list code) : nat :=
  fold_right (fun c n => (code_size c + n)%nat) 0%nat cs.

(** Little-endian value of a byte string. *)
Fixpoint le_value (bs : bytes) : Z :=
  match bs with
  | [] => 0
  | b :: bs' => Z.of_N (Byte.to_N b) + 256 * le_value bs'
  end.

Definition field_value (e : endian) (c : code) (bs : bytes) : Z :=
  let u := match e with
           | LittleEndian => le_value bs
           | BigEndian => le_value (rev bs)
           end in
  if code_signed c && (2 ^ (8 * Z.of_nat (code_size c) - 1) <=? u)
  then u - 2 ^ (8 * Z.of_nat (code_size c))
  else u.

Fixpoint fields (e : endian) (cs : list code) (bs : bytes) : list Z :=
  match cs with
  | [] => []
  | c :: cs' =>
      field_value e c (firstn (code_size c) bs)
        :: fields e cs' (skipn (code_size c) bs)
  end.

(** [struct.unpack(fmt, data)]: [data] is what a reader's [read]
    returned, [None] when that was Python's [None]. *)
Definition unpack (fmt : string) (data : option bytes) : exn + list Z :=
  match parse fmt, data with
  | None, _ => inl StructError
  | Some _, None => inl TypeError
  | Some (e, cs), Some bs =>
      if Nat.eqb (length bs) (calcsize cs) then inr (fields e cs bs)
      else inl StructError
  end.

End Struct.

(** [struct.unpack(fmt, data)[0]] *)
Definition unpack1 {S} (fmt : string) (data : option bytes) : M S Z :=
  match Struct.unpack fmt data with
  | inl e => raise e
  | inr (v :: _) => ret v
  | inr [] => raise IndexError
  end.

(** [a, b = struct.unpack(fmt, data)] *)
Definition unpack2 {S} (fmt : string) (data : option bytes) : M S (Z * Z) :=
  match Struct.unpack fmt data with
  | inl e => raise e
  | inr [a; b] => ret (a, b)
  | inr _ => raise ValueError
  end.

(** ** The file objects a [FileReader] wraps

    A binary file object of Python's [io] module, reduced to what the
    readers call: [tell], [seek], [read] and [fileno].  [BytesIO] is the
    in-memory object the tests use, [OSFile] the object [open(fn, "rb")]
    returns.  They differ in how they treat a negative position, a
    count below -1, and [fileno]. *)
Module io.

Inductive kind := BytesIO | OSFile.

(** The position of a file object is never negative. *)
Record file := mkfile { fkind : kind; content : bytes; fpos : N }.

Definition set_fpos (p : Z) (f : file) : file :=
  mkfile (fkind f) (content f) (Z.to_N p).

Definition tell (f : file) : Z := Z.of_N (fpos f).

Definition seek (ofs whence : Z) : M file Z := fun f =>
  let target :=
    if whence =? 0 then Some ofs
    else if whence =? 1 then Some (tell f + ofs)
    else if whence =? 2 then Some (len (content f) + ofs)
    else None in
  match target with
  | None => (inl ValueError, f)
  | Some p =>
      if p <? 0 then
        match fkind f with
        | OSFile => (inl OSError, f)
        | BytesIO =>
            if whence =? 0 then (inl ValueError, f)
            else (inr 0, set_fpos 0 f)
        end
      else (inr p, set_fpos p f)
  end.

Definition read (n : option Z) : M file bytes := fun f =>
  let bad := match n, fkind f with
             | Some k, OSFile => k <? -1
             | _, _ => false
             end in
  if bad then (inl ValueError, f)
  else
    let avail := skipn (N.to_nat (fpos f)) (content f) in
    let data := match n with
                | Some k => if k <? 0 then avail else firstn (Z.to_nat k) avail
                | None => avail
                end in
    (inr data, set_fpos (tell f + len data) f).

Definition fileno (f : file) : exn + Z :=
  match fkind f with
  | OSFile => inr 3
  | BytesIO => inl UnsupportedOperation
  end.

(** [os.fstat(fd).st_size] of the file behind the descriptor. *)
Definition st_size (f : file) : Z := len (content f).

End io.

(** ** datareader.py *)

Module datareader.

Definition SEEK_SET : Z := 0.
Definition SEEK_CUR : Z := 1.
Definition SEEK_END : Z := 2.

(** What the attribute [fh] of a [FileReader] or of a [StreamRange]
    can hold: the file object itself, or a [StreamRange] over such a
    handle.  Every handle onto one file moves that file's single
    position. *)
Inductive handle : Type :=
  | Raw
  | Range (fh : handle) (start : Z) (end_ : option Z).

(** [StreamRange.__init__] *)
Definition StreamRange (fh : handle) (start : Z) (size : option Z) : handle :=
  Range fh start
    match size with
    | None => None
    | Some n => Some (start + n)
    end.

(** [fh.tell()]; the [Range] case is [StreamRange.tell]. *)
Fixpoint fh_tell (h : handle) (f : io.file) : Z :=
  match h with
  | Raw => io.tell f
  | Range fh start _ => fh_tell fh f - start
  end.

(** [fh.seek(ofs, whence)]; the [Range] case is [StreamRange.seek],
    which assigns [res] in none of its branches for an unknown
    [whence]. *)
Fixpoint fh_seek (h : handle) (ofs whence : Z) : M io.file Z :=
  match h with
  | Raw => io.seek ofs whence
  | Range fh start end_ =>
      if whence =? SEEK_SET then
        res <- fh_seek fh (start + ofs) SEEK_SET ;; ret (res - start)
      else if whence =? SEEK_CUR then
        res <- fh_seek fh ofs whence ;; ret (res - start)
      else if whence =? SEEK_END then
        match end_ with
        | None => res <- fh_seek fh ofs whence ;; ret (res - start)
        | Some e => res <- fh_seek fh (e + ofs) SEEK_SET ;; ret (res - start)
        end
      else raise UnboundLocalError
  end.

(** [fh.read(n)]; the [Range] case is [StreamRange.read]. *)
Fixpoint fh_read (h : handle) (n : option Z) : M io.file bytes :=
  match h with
  | Raw => io.read n
  | Range fh start end_ =>
      match end_ with
      | None => fh_read fh n
      | Some e => fun f =>
          let remaining := e - start - (fh_tell fh f - start) in
          let n' := match n with
                    | None => remaining
                    | Some k => if k >? remaining then remaining else k
                    end in
          fh_read fh (Some n') f
      end
  end.

(** [fh.fileno()]: a [StreamRange] has no such method. *)
Definition fh_fileno (h : handle) (f : io.file) : exn + Z :=
  match h with
  | Raw => io.fileno f
  | Range _ _ _ => inl AttributeError
  end.

Module FileReader.

Record t := mk { fh : handle; _eof : bool }.

(** The object and the file its handle reaches. *)
Definition state : Type := t * io.file.

Definition __init__ (fh : handle) : t := mk fh false.

Definition on_file {A} (m : handle -> M io.file A) : M state A :=
  fun s => let '(x, f') := m (fh (fst s)) (snd s) in (x, (fst s, f')).

Definition set_eof (b : bool) : M state unit :=
  modify (fun s => (mk (fh (fst s)) b, snd s)).

Definition eof (s : state) : bool := _eof (fst s).

Definition fileno : M state Z :=
  on_file (fun h f => (fh_fileno h f, f)).

Definition size : M state Z :=
  fileno ;;; on_file (fun _ f => (inr (io.st_size f), f)).

Definition tell (s : state) : Z := fh_tell (fh (fst s)) (snd s).

Definition seek (pos whence : Z) : M state Z :=
  set_eof false ;;; on_file (fun h => fh_seek h pos whence).

Definition subreader (n : option Z) : M state t :=
  fun s => (inr (__init__ (StreamRange (fh (fst s)) (tell s) n)), s).

Definition read (n : option Z) (throw : bool) : M state (option bytes) :=
  fun s =>
    if _eof (fst s) then
      (if throw then raise EOFError else ret None) s
    else
      (data <- on_file (fun h => fh_read h n) ;;
       if match n with None => true | Some k => 0 <? k end
          && (len data =? 0)
       then
         set_eof true ;;;
         if throw then raise EOFError else ret (Some data)
       else if match n with
               | None => false
               | Some k => negb (k =? 0) && (len data <? k)
               end
       then
         on_file (fun h f => fh_seek h (fh_tell h f - len data) SEEK_SET f) ;;;
         set_eof true ;;;
         if throw then raise EOFError else ret (Some data)
       else ret (Some data)) s.

Definition readbyte : M state Z :=
  d <- read (Some 1) false ;; unpack1 ">B" d.

End FileReader.

Module DataReader.

Record t := mk { data : bytes; pos : Z; _eof : bool }.

Definition __init__ (data : bytes) : t := mk data 0 false.

Definition tell (self : t) : Z := pos self.

Definition seek (p whence : Z) : M t Z := fun self =>
  let self := mk (data self) (pos self) false in
  let p :=
    if whence =? SEEK_SET then p
    else if whence =? SEEK_CUR then p + pos self
    else if whence =? SEEK_END then p + len (data self)
    else p in
  if p <? 0 then (inl ValueError, self)
  else (inr p, mk (data self) p (_eof self)).

Definition eof (self : t) : bool := pos self =? len (data self).

Definition have (n : Z) (self : t) : bool :=
  pos self + n <=? len (data self).

Definition remaining (self : t) : Z := len (data self) - pos self.

Definition readbyte : M t Z := fun self =>
  if _eof self then (inl EOFError, self)
  else if len (data self) <=? pos self then
    (inl EOFError, mk (data self) (pos self) true)
  else
    let self := mk (data self) (pos self + 1) (_eof self) in
    (py_index (data self) (pos self - 1), self).

Definition subreader (n : option Z) (self : t) : t :=
  match n with
  | None => __init__ (py_slice_from (data self) (pos self))
  | Some k => __init__ (py_slice (data self) (pos self) (pos self + k))
  end.

Definition read (n : option Z) : M t bytes := fun self =>
  if _eof self then (inl EOFError, self)
  else
    let n := match n with
             | None => len (data self) - pos self
             | Some k => k
             end in
    if pos self + n >? len (data self) then
      (inl EOFError, mk (data self) (pos self) true)
    else
      let self := mk (data self) (pos self + n) (_eof self) in
      (inr (py_slice (data self) (pos self - n) (pos self)), self).

End DataReader.

(** The methods a reader offers to [BaseReader]'s helpers and to
    [dmpbsuf].  [S] is the state a call acts on, [O] the reader
    object alone, which is what [subreader] returns.  [read] is the
    call with one argument; [size] is looked up on the object at run
    time and is no part of the abstract class. *)
Class BaseReader (S O : Type) := {
  eof : S -> bool;
  tell : S -> Z;
  seek : Z -> Z -> M S Z;
  read : option Z -> M S (option bytes);
  readbyte : M S Z;
  size : M S Z;
  subreader : option Z -> M S O;
  this : S -> O;
  enter : O -> S -> S
}.

#[export] Instance FileReader_BaseReader
  : BaseReader FileReader.state FileReader.t := {
  eof := FileReader.eof;
  tell := FileReader.tell;
  seek := FileReader.seek;
  read n := FileReader.read n false;
  readbyte := FileReader.readbyte;
  size := FileReader.size;
  subreader := FileReader.subreader;
  this := fst;
  enter o s := (o, snd s)
}.

(** [DataReader] defines no [size]: the attribute lookup fails. *)
#[export] Instance DataReader_BaseReader
  : BaseReader DataReader.t DataReader.t := {
  eof := DataReader.eof;
  tell := DataReader.tell;
  seek := DataReader.seek;
  read n := x <- DataReader.read n ;; ret (Some x);
  readbyte := DataReader.readbyte;
  size := raise AttributeError;
  subreader n := fun s => (inr (DataReader.subreader n s), s);
  this := id;
  enter o _ := o
}.

(** [datareader.new] *)
Definition new_bytes (arg : bytes) : DataReader.t := DataReader.__init__ arg.
Definition new_file (arg : io.file) : FileReader.state :=
  (FileReader.__init__ Raw, arg).

Section BaseReader_methods.
Context {S O : Type} `{BaseReader S O}.

Definition skip (count : Z) : M S unit :=
  seek count SEEK_CUR ;;; ret tt.

Definition reads16le : M S Z := d <- read (Some 2) ;; unpack1 "<h" d.
Definition read16le : M S Z := d <- read (Some 2) ;; unpack1 "<H" d.
Definition read24le : M S Z :=
  d <- read (Some 3) ;;
  lh <- unpack2 "<HB" d ;;
  ret (Z.shiftl (snd lh) 16 + fst lh).
Definition read32le : M S Z := d <- read (Some 4) ;; unpack1 "<L" d.
Definition read48le : M S Z :=
  d <- read (Some 6) ;;
  lh <- unpack2 "<LH" d ;;
  ret (Z.shiftl (snd lh) 32 + fst lh).
Definition read64le : M S Z := d <- read (Some 8) ;; unpack1 "<Q" d.
Definition read96le : M S Z :=
  d <- read (Some 12) ;;
  lh <- unpack2 "<QL" d ;;
  ret (Z.shiftl (snd lh) 64 + fst lh).
Definition read128le : M S Z :=
  d <- read (Some 16) ;;
  lh <- unpack2 "<QQ" d ;;
  ret (Z.shiftl (snd lh) 64 + fst lh).

Definition read16be : M S Z := d <- read (Some 2) ;; unpack1 ">H" d.
Definition read24be : M S Z :=
  d <- read (Some 3) ;;
  hl <- unpack2 ">BH" d ;;
  ret (Z.shiftl (fst hl) 16 + snd hl).
Definition read32be : M S Z := d <- read (Some 4) ;; unpack1 ">L" d.
Definition read48be : M S Z :=
  d <- read (Some 6) ;;
  hl <- unpack2 ">HL" d ;;
  ret (Z.shiftl (fst hl) 32 + snd hl).
Definition read64be : M S Z := d <- read (Some 8) ;; unpack1 ">Q" d.
Definition read96be : M S Z :=
  d <- read (Some 12) ;;
  hl <- unpack2 ">LQ" d ;;
  ret (Z.shiftl (fst hl) 64 + snd hl).
Definition read128be : M S Z :=
  d <- read (Some 16) ;;
  hl <- unpack2 ">QQ" d ;;
  ret (Z.shiftl (fst hl) 64 + snd hl).

End BaseReader_methods.

End datareader.

(** ** dmpbsuf.py *)

Module dmpbsuf.
Import datareader.

(** The directory tree [os.path.exists] and [open] see: the paths
    that exist, with the contents of each. *)
Definition filesystem : Type := gmap string bytes.

Definition path_exists (fs : filesystem) (fn : string) : bool :=
  bool_decide (is_Some (fs !! fn)).

Definition digit (d : Z) : string :=
  String (ascii_of_nat (48 + Z.to_nat (d mod 10))) EmptyString.

(** [f"{i:03d}"] for the indices [range(100)] yields. *)
Definition fmt_03d (i : Z) : string :=
  (digit (i / 100) +:+ digit (i / 10) +:+ digit i)%string.

(** [f"{savedir}/{prefix}-{i:03d}.dat"] *)
Definition unique_name (savedir prefix : string) (i : Z) : string :=
  (savedir +:+ "/" +:+ prefix +:+ "-" +:+ fmt_03d i +:+ ".dat")%string.

(** The [for i in range(100)] loop of [saveunique], from index [i]
with [todo] indices to go: [fn] as the loop leaves it, the first
candidate that does not exist, or else the last one tried. *)
Fixpoint saveunique_fn (fs : filesystem) (savedir prefix : string)
    (i : Z) (todo : nat) (fn : string) : string :=
  match todo with
  | 0%nat => fn
  | S todo' =>
      let fn := unique_name savedir prefix i in
      if negb (path_exists fs fn) then fn
      else saveunique_fn fs savedir prefix (i + 1) todo' fn
  end.

Section decoder.
Context {St Ob : Type} `{BaseReader St Ob}.

(** Running a call on another reader object [o] of the same
    source: the object is returned as the call left it, and the
    caller's own reader is back in place afterwards. *)
Definition within {A} (o : Ob) (m : M St A) : M St (A * Ob) := fun s =>
  let '(r, s') := m (enter o s) in
  (match r with
   | inl e => inl e
   | inr a => inr (a, this s')
   end, enter (this s) s').

(** [open(fn, "wb")]: the file exists and is empty afterwards. *)
Definition open_wb (fn : string) : M (St * filesystem) unit :=
  modify (fun st => (fst st, <[fn := []]> (snd st))).

(** Evaluating the name [self] in the body of [saveunique]: the
function's parameters are [savedir], [prefix] and [fh], its locals
[i], [fn] and [ofh], and the module has no global of that name. *)
Definition self_in_saveunique {A} : M (St * filesystem) A :=
  raise NameError.

(** [saveunique], statement by statement: the loop that picks [fn],
then [self.fh.seek(0)], then [with open(fn, "wb") as ofh:
copyfile(self.fh, ofh)], where [open] is called before the
arguments of [copyfile] are evaluated. *)
Definition saveunique (savedir prefix : string) (fh : Ob)
  : M (St * filesystem) unit :=
  fn <- (fun st =>
           (inr (saveunique_fn (snd st) savedir prefix 0 100 ""), st)) ;;
  self_in_saveunique (A := unit) ;;;
  open_wb fn ;;;
  self_in_saveunique.

Record FirmwareType3 := mkFirmwareType3 {
  fw_zero : Z;
  fw_checksum : Z;
  fw_zero2 : Z;
  fw_imagesize : Z;
  fw_version : Z * Z;
  fw_data : option bytes
}.

Definition FirmwareType3__init__ : M St FirmwareType3 :=
  zero <- read32le ;;
  checksum <- read16le ;;
  zero2 <- read16le ;;
  imagesize <- read32le ;;
  v0 <- reads16le ;;
  v1 <- reads16le ;;
  data <- read (Some 128) ;;
  ret (mkFirmwareType3 zero checksum zero2 imagesize (v0, v1) data).

Record BsufEntry := mkBsufEntry {
  ent_size : Z;
  ent_type : Z;
  ent_ofs : Z;
  entfh : Ob;
  ent_checksum : Z
}.

Definition BsufEntry__init__ : M St BsufEntry :=
  size <- read32le ;;
  type <- read16le ;;
  ofs <- (fun s => (inr (tell s), s)) ;;
  entfh <- subreader (Some size) ;;
  skip size ;;;
  checksum <- read16le ;;
  ret (mkBsufEntry size type ofs entfh checksum).

Record BsufFile := mkBsufFile {
  version : Z;
  entries : list BsufEntry;
  filechecksum : Z
}.

(** The [while fh.tell() < filesize+0x10] loop, run for at most
    [fuel] iterations; [None] when these do not suffice. *)
Fixpoint entries_loop (fuel : nat) (bound : Z) (acc : list BsufEntry)
    (s : St) : option ((exn + list BsufEntry) * St) :=
  if tell s <? bound then
    match fuel with
    | 0%nat => None
    | S fuel' =>
        match BsufEntry__init__ s with
        | (inl e, s') => Some (inl e, s')
        | (inr ent, s') => entries_loop fuel' bound (acc ++ [ent]) s'
        end
    end
  else Some (inr acc, s).

(** The header part of [BsufFile.__init__], up to the loop.  The
    size is queried a second time for the warning's text; the
    warning itself only prints. *)
Definition BsufFile_header : M St (Z * Z) :=
  magic <- read64le ;;
  if negb (magic =? 0x663919145fab6655) then
    raise (Exception "invalid header magic")
  else
    version <- read32le ;;
    filesize <- read32le ;;
    real <- size ;;
    (if negb (filesize + 0x12 =? real) then size ;;; ret tt else ret tt) ;;;
    ret (version, filesize).

Definition BsufFile__init__ (fuel : nat) (s : St)
  : option ((exn + BsufFile) * St) :=
  match BsufFile_header s with
  | (inl e, s1) => Some (inl e, s1)
  | (inr (version, filesize), s1) =>
      match entries_loop fuel (filesize + 0x10) [] s1 with
      | None => None
      | Some (inl e, s2) => Some (inl e, s2)
      | Some (inr ents, s2) =>
          Some ((filechecksum <- read16le ;;
                 ret (mkBsufFile version ents filechecksum)) s2)
      end
  end.

(** The objects [enumentries] yields. *)
Inductive entry_obj : Type :=
  | EntryType0 (payload : option bytes)
  | EntryType1 (payload : option bytes)
  | EntryType3Firmware (fwtype : Z) (version : Z * Z * Z) (fwfh : Ob)
  | EntryType6Firmware (fwtype : Z) (version1 version2 version3 : Z * Z * Z)
      (fwfh : Ob)
  | EntryType7 (payload : option bytes)
  | EntryType13 (fh : Ob)
  | EntryType14 (payload : option bytes)
  | EntryType15 (payload : option bytes)
  | EntryType20 (fh : Ob)
  | EntryType21 (payload : option bytes)
  | EntryUnknown (type : Z) (payload : option bytes).

Definition version_triple : M St (Z * Z * Z) :=
  a <- reads16le ;; b <- reads16le ;; c <- reads16le ;; ret (a, b, c).

(** The constructor [enumentries] picks for [type], run on the
    entry's reader. *)
Definition entry_init (type : Z) : M St entry_obj :=
  if type =? 0 then p <- read None ;; ret (EntryType0 p)
  else if type =? 1 then p <- read None ;; ret (EntryType1 p)
  else if type =? 3 then
    fwtype <- read16le ;;
    v <- version_triple ;;
    fwfh <- subreader None ;;
    ret (EntryType3Firmware fwtype v fwfh)
  else if type =? 6 then
    fwtype <- read16le ;;
    v1 <- version_triple ;;
    v2 <- version_triple ;;
    v3 <- version_triple ;;
    fwfh <- subreader None ;;
    ret (EntryType6Firmware fwtype v1 v2 v3 fwfh)
  else if type =? 7 then p <- read None ;; ret (EntryType7 p)
  else if type =? 13 then s <- get ;; ret (EntryType13 (this s))
  else if type =? 14 then p <- read None ;; ret (EntryType14 p)
  else if type =? 15 then p <- read None ;; ret (EntryType15 p)
  else if type =? 20 then s <- get ;; ret (EntryType20 (this s))
  else if type =? 21 then p <- read None ;; ret (EntryType21 p)
  else p <- read None ;; ret (EntryUnknown type p).

(** One round of the loop of [enumentries]: the object yielded for
    [ent], and [ent] with its reader as the round left it. *)
Definition enum_entry (ent : BsufEntry) : M St (entry_obj * BsufEntry) :=
  r <- within (entfh ent) (seek 0 SEEK_SET ;;; entry_init (ent_type ent)) ;;
  ret (fst r,
       mkBsufEntry (ent_size ent) (ent_type ent) (ent_ofs ent) (snd r)
         (ent_checksum ent)).

(** [list(self.enumentries())] *)
Fixpoint enumentries (ents : list BsufEntry) : M St (list entry_obj) :=
  match ents with
  | [] => ret []
  | ent :: rest =>
      r <- enum_entry ent ;;
      objs <- enumentries rest ;;
      ret (fst r :: objs)
  end.

(** [obj.save(savedir)] for the two classes that write a file
    through [saveunique]. *)
Definition EntryType13_save (savedir : string) (fh : Ob)
  : M (St * filesystem) unit := saveunique savedir "t13" fh.

Definition EntryType20_save (savedir : string) (fh : Ob)
  : M (St * filesystem) unit := saveunique savedir "t20" fh.

End decoder.

End dmpbsuf.

(** ** Byte strings, call sequences and object stores the properties
       are stated with *)

Import datareader.

Definition byte_of_Z (z : Z) : byte :=
  match Byte.of_N (Z.to_N (z mod 256)) with
  | Some b => b
  | None => x00
  end.

(** [bytes(range(a, b))] *)
Definition bytes_range (a b : Z) : bytes :=
  map (fun i => byte_of_Z (a + Z.of_nat i)) (seq 0 (Z.to_nat (b - a))).

(** The [n]-byte little-endian and big-endian encodings of [v], the
    inverse of what the fixed-width helpers read. *)
Fixpoint encode_le (n : nat) (v : Z) : bytes :=
  match n with
  | 0%nat => []
  | S n' => byte_of_Z v :: encode_le n' (v / 256)
  end.

Definition encode_be (n : nat) (v : Z) : bytes := rev (encode_le n v).

Inductive width := W16 | W24 | W32 | W48 | W64 | W96 | W128.

Definition width_bytes (w : width) : nat :=
  match w with
  | W16 => 2 | W24 => 3 | W32 => 4 | W48 => 6
  | W64 => 8 | W96 => 12 | W128 => 16
  end%nat.

Definition width_bits (w : width) : Z := 8 * Z.of_nat (width_bytes w).

Definition encode (e : Struct.endian) (w : width) (v : Z) : bytes :=
  match e with
  | Struct.LittleEndian => encode_le (width_bytes w) v
  | Struct.BigEndian => encode_be (width_bytes w) v
  end.

(** The helper of [BaseReader] for a width and an endianness. *)
Definition read_fixed {S O} `{BaseReader S O}
    (e : Struct.endian) (w : width) : M S Z :=
  match e, w with
  | Struct.LittleEndian, W16 => read16le
  | Struct.LittleEndian, W24 => read24le
  | Struct.LittleEndian, W32 => read32le
  | Struct.LittleEndian, W48 => read48le
  | Struct.LittleEndian, W64 => read64le
  | Struct.LittleEndian, W96 => read96le
  | Struct.LittleEndian, W128 => read128le
  | Struct.BigEndian, W16 => read16be
  | Struct.BigEndian, W24 => read24be
  | Struct.BigEndian, W32 => read32be
  | Struct.BigEndian, W48 => read48be
  | Struct.BigEndian, W64 => read64be
  | Struct.BigEndian, W96 => read96be
  | Struct.BigEndian, W128 => read128be
  end.

(** A fresh [FileReader] on a file object holding [bs]. *)
Definition file_of (k : io.kind) (bs : bytes) : FileReader.state :=
  new_file (io.mkfile k bs 0).

(** Calls made on a reader, and what a call ended with. *)
Inductive op : Type :=
  | OpRead (n : option Z)
  | OpSeek (pos whence : Z).

Inductive value : Type :=
  | VInt (z : Z)
  | VBytes (b : option bytes).

Definition outcome : Type := exn + value.

Definition is_seek (o : op) : bool :=
  match o with
  | OpSeek _ _ => true
  | OpRead _ => false
  end.

Definition do_op {S O} `{BaseReader S O} (o : op) : M S value :=
  match o with
  | OpRead n => d <- read n ;; ret (VBytes d)
  | OpSeek p w => z <- seek p w ;; ret (VInt z)
  end.

(** The calls [ops] in order, exceptions caught by the caller. *)
Fixpoint run {S O} `{BaseReader S O} (ops : list op) (s : S)
    : list outcome * S :=
  match ops with
  | [] => ([], s)
  | o :: rest =>
      let '(r, s1) := do_op o s in
      let '(rs, s2) := run rest s1 in
      (r :: rs, s2)
  end.

(** A [DataReader.read(n)] that asks for more than [remaining()]. *)
Definition asks_beyond_data (n : option Z) (r : DataReader.t) : bool :=
  match n with
  | None => false
  | Some k => k >? DataReader.remaining r
  end.

(** The bytes between the position of a file object and its end. *)
Definition available (f : io.file) : Z :=
  Z.max 0 (len (io.content f) - io.tell f).

(** A [FileReader.read(n)] on the file object itself that finds less
    than it wants: fewer than [n] bytes, or nothing at all when [n] is
    omitted. *)
Definition asks_beyond_file (n : option Z) (s : FileReader.state) : bool :=
  match n with
  | None => available (snd s) =? 0
  | Some k => k >? available (snd s)
  end.

(** Reader objects in a store, as Python holds them: a call reaches
    the object through its reference and mutates it in place;
    constructing a reader allocates a reference not in use. *)
Module Store.

Abbreviation store := (gmap nat DataReader.t).

Definition call {A} (o : nat) (m : M DataReader.t A) (h : store)
    : option ((exn + A) * store) :=
  match h !! o with
  | None => None
  | Some r => let '(x, r') := m r in Some (x, <[o := r']> h)
  end.

(** [o.subreader(n)] *)
Definition subreader (o : nat) (n : option Z) (h : store)
    : option (nat * store) :=
  match h !! o with
  | None => None
  | Some r =>
      let c := fresh (dom h) in
      Some (c, <[c := DataReader.subreader n r]> h)
  end.

Fixpoint run_calls (acts : list (nat * op)) (h : store)
    : option (list (nat * outcome) * store) :=
  match acts with
  | [] => Some ([], h)
  | (o, c) :: rest =>
      match call o (do_op c) h with
      | None => None
      | Some (r, h1) =>
          match run_calls rest h1 with
          | None => None
          | Some (rs, h2) => Some ((o, r) :: rs, h2)
          end
      end
  end.

(** The calls, or the outcomes, that concern the object [o]. *)
Definition on {A} (o : nat) (l : list (nat * A)) : list A :=
  map snd (List.filter (fun x => Nat.eqb (fst x) o) l).

End Store.

(** Where position 0 of a handle lies in the file. *)
Fixpoint handle_base (h : handle) : Z :=
  match h with
  | Raw => 0
  | Range fh start _ => handle_base fh + start
  end.

(** A [FileReader.read(n)] that finds less than it wants in what its
    handle hands over: fewer than the [n > 0] bytes asked for, or
    nothing at all when [n] is omitted. *)
Definition finds_less (n : option Z) (s : FileReader.state) : bool :=
  match fh_read (FileReader.fh (fst s)) n (snd s) with
  | (inr d, _) =>
      match n with
      | None => len d =? 0
      | Some k => (0 <? k) && (len d <? k)
      end
  | (inl _, _) => false
  end.

Definition no_seek (ops : list op) : bool :=
  forallb (fun o => negb (is_seek o)) ops.

(** Among the calls [ops] made from state [s] there is a read that
    comes up short, with no [seek] after it. *)
Definition short_read_since_seek {S O} `{BaseReader S O}
    (short : option Z -> S -> bool) (ops : list op) (s : S) : Prop :=
  exists pre n post,
    ops = pre ++ OpRead n :: post /\
    no_seek post = true /\
    short n (snd (run pre s)) = true.

(** One run of the entry loop of [BsufFile.__init__], told as the
    [while] statement reads: an entry is decoded from a state whose
    position is below the bound, and the loop is left in the first
    state whose position is not. *)
Inductive loop_run {St Ob} `{BaseReader St Ob} (bound : Z)
    : St -> list (@dmpbsuf.BsufEntry Ob) -> St -> Prop :=
  | loop_exit (s : St) :
      bound <= tell s -> loop_run bound s [] s
  | loop_entry (s s1 s' : St) ent ents :
      tell s < bound ->
      dmpbsuf.BsufEntry__init__ s = (inr ent, s1) ->
      loop_run bound s1 ents s' ->
      loop_run bound s (ent :: ents) s'.

(** ** Byte strings of the concrete scenarios *)

Definition magic : Z := 0x663919145fab6655.

Definition abcdef : bytes :=
  ["a"; "b"; "c"; "d"; "e"; "f"]%byte.

Definition bsuf_header (version declared_size : Z) : bytes :=
  encode_le 8 magic ++ encode_le 4 version ++ encode_le 4 declared_size.

Definition bsuf_entry (type : Z) (payload : bytes) (checksum : Z) : bytes :=
  encode_le 4 (len payload) ++ encode_le 2 type ++ payload
    ++ encode_le 2 checksum.

(** magic, version 1, declared size 0x0A, one type-0 entry with payload
    [abcdef] and checksum 0, file checksum 0. *)
Definition one_entry_buffer : bytes :=
  bsuf_header 1 0x0A ++ bsuf_entry 0 abcdef 0 ++ encode_le 2 0.

(** A file that goes on after the declared size 0x0E: the checksum
    0xBEEF is followed by the bytes of one more well-formed entry. *)
Definition oversized_file : bytes :=
  bsuf_header 1 0x0E ++ bsuf_entry 0 abcdef 0 ++ encode_le 2 0xBEEF
    ++ bsuf_entry 7 abcdef 0 ++ encode_le 2 0.

(** zero=0, checksum=0x1234, zero2=0, imagesize=0x100, version=(1,2),
    128 zero bytes. *)
Definition firmware_header : bytes :=
  encode_le 4 0 ++ encode_le 2 0x1234 ++ encode_le 2 0 ++ encode_le 4 0x100
    ++ encode_le 2 1 ++ encode_le 2 2 ++ repeat x00 128.

(** ** Notions the further properties are stated with *)

(** The bytes in the order that puts the lowest first. *)
Definition low_first (e : Struct.endian) (bs : bytes) : bytes :=
  match e with
  | Struct.LittleEndian => bs
  | Struct.BigEndian => rev bs
  end.

(** Entries that follow one another from offset [start] on, each
    with its eight bytes of size, type and checksum around a payload
    of which it holds a bounded view. *)
Fixpoint laid_out (start : Z) (ents : list (@dmpbsuf.BsufEntry FileReader.t))
    : Prop :=
  match ents with
  | [] => True
  | ent :: rest =>
      dmpbsuf.ent_ofs ent = start + 6 /\
      0 <= dmpbsuf.ent_size ent /\
      dmpbsuf.entfh ent
        = FileReader.__init__
            (StreamRange Raw (start + 6) (Some (dmpbsuf.ent_size ent))) /\
      laid_out (start + 8 + dmpbsuf.ent_size ent) rest
  end.

(** The offset behind the last of them. *)
Fixpoint entries_end (start : Z)
    (ents : list (@dmpbsuf.BsufEntry FileReader.t)) : Z :=
  match ents with
  | [] => start
  | ent :: rest => entries_end (start + 8 + dmpbsuf.ent_size ent) rest
  end.

(** The attribute [payload] of an object [enumentries] yields, for
    the classes that have one. *)
Definition payload_of (o : @dmpbsuf.entry_obj FileReader.t)
    : option (option bytes) :=
  match o with
  | dmpbsuf.EntryType0 p | dmpbsuf.EntryType1 p | dmpbsuf.EntryType7 p
  | dmpbsuf.EntryType14 p | dmpbsuf.EntryType15 p | dmpbsuf.EntryType21 p
  | dmpbsuf.EntryUnknown _ p => Some p
  | _ => None
  end.

(** ** Saving firmware images

    [copyfile], [savefirmware] and the [save] methods, on the
    [FileReader] that [main] decodes a file with: [copyfile] calls
    [ifh.read(0x10000, throw=False)], a call [DataReader.read] does not
    accept.  What [print] writes is left out. *)

(** A reader with the file behind it, and the directory tree the
    output goes to. *)
Definition saving : Type := FileReader.state * dmpbsuf.filesystem.

(** [ofh.write(data)] for the file opened as [fn]: the bytes are put
    behind what has been written to it. *)
Definition ofh_write (fn : string) (data : bytes)
    (fs : dmpbsuf.filesystem) : dmpbsuf.filesystem :=
  <[fn := default [] (fs !! fn) ++ data]> fs.

(** [copyfile(ifh, ofh)]: [ifh] is the reader of the state, [ofh] the
    file opened as [fn]; [fuel] bounds the rounds of [while True].
    [not data] holds for [None] and for [b""]. *)
Fixpoint copyfile (fuel : nat) (fn : string) (st : saving)
    : option ((exn + unit) * saving) :=
  match fuel with
  | 0%nat => None
  | S fuel' =>
      match FileReader.read (Some 0x10000) false (fst st) with
      | (inl e, s') => Some (inl e, (s', snd st))
      | (inr None, s') | (inr (Some []), s') => Some (inr tt, (s', snd st))
      | (inr (Some data), s') =>
          copyfile fuel' fn (s', ofh_write fn data (snd st))
      end
  end.

(** [f"{fwtype:04x}"]: lower-case hexadecimal digits, filled with
    zeros behind the sign up to a width of four. *)
Definition fmt_04x (z : Z) : string :=
  let digits :=
    HexadecimalString.NilZero.string_of_uint (N.to_hex_uint (Z.abs_N z)) in
  let sign := if z <? 0 then "-" else "" in
  (sign
   +:+ String.concat "" (repeat "0" (4 - String.length sign
                                       - String.length digits)%nat)
   +:+ digits)%string.

(** [f"{v}"] for an [int] *)
Definition fmt_int (z : Z) : string :=
  DecimalString.NilZero.string_of_int (Z.to_int z).

(** [f"{savedir}/fw{fwtype:04x}-{version[0]}.{version[1]}.{version[2]}.bin"] *)
Definition firmware_name (savedir : string) (fwtype : Z)
    (version : Z * Z * Z) : string :=
  let '(v0, v1, v2) := version in
  (savedir +:+ "/fw" +:+ fmt_04x fwtype +:+ "-" +:+ fmt_int v0 +:+ "."
   +:+ fmt_int v1 +:+ "." +:+ fmt_int v2 +:+ ".bin")%string.

(** [savefirmware(savedir, fwtype, version, fh)], [fh] being the
    reader of the state; [open(filename, "wb")] leaves the file
    empty before [copyfile] starts. *)
Definition savefirmware (fuel : nat) (savedir : string) (fwtype : Z)
    (version : Z * Z * Z) (st : saving) : option ((exn + unit) * saving) :=
  let filename := firmware_name savedir fwtype version in
  if dmpbsuf.path_exists (snd st) filename then Some (inr tt, st)
  else copyfile fuel filename (snd (dmpbsuf.open_wb filename st)).

(** [EntryType3Firmware.save] and [EntryType6Firmware.save], which
    passes [version1]: the reader of the state is [self.fwfh]. *)
Definition EntryType3Firmware_save (fuel : nat) (savedir : string)
    (fwtype : Z) (version : Z * Z * Z) (st : saving)
    : option ((exn + unit) * saving) :=
  if fwtype =? 0x300 then
    match FileReader.seek 0x10 SEEK_SET (fst st) with
    | (inl e, s') => Some (inl e, (s', snd st))
    | (inr _, s') => savefirmware fuel savedir fwtype version (s', snd st)
    end
  else
    match FileReader.seek 0 SEEK_SET (fst st) with
    | (inl e, s') => Some (inl e, (s', snd st))
    | (inr _, s') => savefirmware fuel savedir fwtype version (s', snd st)
    end.

Definition EntryType6Firmware_save (fuel : nat) (savedir : string)
    (fwtype : Z) (version1 : Z * Z * Z) (st : saving)
    : option ((exn + unit) * saving) :=
  if fwtype =? 0x300 then
    match FileReader.seek 0x10 SEEK_SET (fst st) with
    | (inl e, s') => Some (inl e, (s', snd st))
    | (inr _, s') => savefirmware fuel savedir fwtype version1 (s', snd st)
    end
  else
    match FileReader.seek 0 SEEK_SET (fst st) with
    | (inl e, s') => Some (inl e, (s', snd st))
    | (inr _, s') => savefirmware fuel savedir fwtype version1 (s', snd st)
    end.

(** A method of an object run on that object's reader [o]: the
    caller's reader is back in place afterwards. *)
Definition on_reader (o : FileReader.t)
    (m : saving -> option ((exn + unit) * saving)) (st : saving)
    : option ((exn + unit) * saving) :=
  match m ((o, snd (fst st)), snd st) with
  | Some (r, st') => Some (r, ((fst (fst st), snd (fst st')), snd st'))
  | None => None
  end.

(** [obj.save(savedir)], by the class of [obj] *)
Definition obj_save (fuel : nat) (savedir : string)
    (obj : @dmpbsuf.entry_obj FileReader.t) (st : saving)
    : option ((exn + unit) * saving) :=
  match obj with
  | dmpbsuf.EntryType3Firmware fwtype version fwfh =>
      on_reader fwfh (EntryType3Firmware_save fuel savedir fwtype version) st
  | dmpbsuf.EntryType6Firmware fwtype version1 _ _ fwfh =>
      on_reader fwfh (EntryType6Firmware_save fuel savedir fwtype version1) st
  | dmpbsuf.EntryType13 fh => Some (dmpbsuf.EntryType13_save savedir fh st)
  | dmpbsuf.EntryType20 fh => Some (dmpbsuf.EntryType20_save savedir fh st)
  | _ => Some (inr tt, st)
  end.

(** [BsufFile.save]: the generator [enumentries] makes the object of
    an entry when the loop asks for it, after the object before it
    has been saved. *)
Fixpoint BsufFile_save (fuel : nat) (savedir : string)
    (ents : list (@dmpbsuf.BsufEntry FileReader.t)) (st : saving)
    : option ((exn + unit) * saving) :=
  match ents with
  | [] => Some (inr tt, st)
  | ent :: rest =>
      match dmpbsuf.enum_entry ent (fst st) with
      | (inl e, s') => Some (inl e, (s', snd st))
      | (inr (obj, _), s') =>
          match obj_save fuel savedir obj (s', snd st) with
          | Some (inr _, st') => BsufFile_save fuel savedir rest st'
          | r => r
          end
      end
  end.

(** The 16-bit fields of a file at an offset, unsigned and signed,
    little-endian, and three signed ones in a row: what the
    properties of the firmware entries are stated with. *)
Definition uint16_at (c : bytes) (p : Z) : Z :=
  Struct.le_value (py_slice c p (p + 2)).

Definition int16_at (c : bytes) (p : Z) : Z :=
  Struct.field_value Struct.LittleEndian Struct.c_h (py_slice c p (p + 2)).

Definition version_at (c : bytes) (p : Z) : Z * Z * Z :=
  (int16_at c p, int16_at c (p + 2), int16_at c (p + 4)).

(** What [BsufFile.save] is to write: the entries of type 3 and 6
    hold a firmware image behind a header of 8 or 20 bytes, and behind
    16 bytes more when the firmware type is 0x300; the file is named
    after the firmware type and the first version of the header. *)
Definition is_firmware (ent : @dmpbsuf.BsufEntry FileReader.t) : bool :=
  (dmpbsuf.ent_type ent =? 3) || (dmpbsuf.ent_type ent =? 6).

Definition firmware_start (c : bytes)
    (ent : @dmpbsuf.BsufEntry FileReader.t) : Z :=
  dmpbsuf.ent_ofs ent
  + (if dmpbsuf.ent_type ent =? 3 then 8 else 20)
  + (if uint16_at c (dmpbsuf.ent_ofs ent) =? 0x300 then 0x10 else 0).

Definition firmware_file (savedir : string) (c : bytes)
    (ent : @dmpbsuf.BsufEntry FileReader.t) : string * bytes :=
  (firmware_name savedir (uint16_at c (dmpbsuf.ent_ofs ent))
     (version_at c (dmpbsuf.ent_ofs ent + 2)),
   py_slice c (firmware_start c ent)
     (dmpbsuf.ent_ofs ent + dmpbsuf.ent_size ent)).

Fixpoint saved (savedir : string) (c : bytes)
    (ents : list (@dmpbsuf.BsufEntry FileReader.t))
    (fs : dmpbsuf.filesystem) : dmpbsuf.filesystem :=
  match ents with
  | [] => fs
  | ent :: rest =>
      saved savedir c rest
        (if is_firmware ent
            && negb (dmpbsuf.path_exists fs
                       (fst (firmware_file savedir c ent)))
         then <[fst (firmware_file savedir c ent)
                := snd (firmware_file savedir c ent)]> fs
         else fs)
  end.

(** An entry [save] gets through: its view lies inside the file [c],
    it is of neither class that calls [saveunique], and if it holds
    firmware the image starts inside the view. *)
Definition saveable (c : bytes) (ent : @dmpbsuf.BsufEntry FileReader.t)
    : Prop :=
  FileReader.fh (dmpbsuf.entfh ent)
    = StreamRange Raw (dmpbsuf.ent_ofs ent) (Some (dmpbsuf.ent_size ent)) /\
  0 <= dmpbsuf.ent_ofs ent /\ 0 <= dmpbsuf.ent_size ent /\
  dmpbsuf.ent_ofs ent + dmpbsuf.ent_size ent <= len c /\
  dmpbsuf.ent_type ent <> 13 /\ dmpbsuf.ent_type ent <> 20 /\
  (is_firmware ent = true ->
   firmware_start c ent <= dmpbsuf.ent_ofs ent + dmpbsuf.ent_size ent).

(** A firmware entry of type 3: firmware type 0x300, version
    (4, -1, 1234), the first 16 bytes of [firmware_header], and the
    image [abcdef]. *)
Definition firmware_payload : bytes :=
  encode_le 2 0x300 ++ encode_le 2 4 ++ encode_le 2 (-1) ++ encode_le 2 1234
    ++ firstn 16 firmware_header ++ abcdef.

(** A file with that entry, followed by an entry of type 13 and
    another firmware entry, of type 6. *)
Definition firmware_bsuf : bytes :=
  bsuf_header 1 0x56 ++ bsuf_entry 3 firmware_payload 0
    ++ bsuf_entry 13 abcdef 0
    ++ bsuf_entry 6 (encode_le 2 0x200 ++ repeat x00 18 ++ abcdef) 0
    ++ encode_le 2 0.

(** A call on a [FileReader] that leaves the bytes of the file as
    they are. *)
Definition keeps_content {A} (m : M FileReader.state A) : Prop :=
  forall s, io.content (snd (snd (m s))) = io.content (snd s).

(** ** [readzstr]

    The text a call returns is what [bytes.decode(encoding)] makes of
    the bytes found; the type of texts and the decoding, which may
    raise, are parameters. *)

(** [data.find(b"\x00", start)]: the index of the first zero byte at
    or behind [start], or -1. *)
Fixpoint find_from (l : bytes) (i : Z) : Z :=
  match l with
  | [] => -1
  | b :: l' => if Byte.eqb b x00 then i else find_from l' (i + 1)
  end.

Definition find_zero (data : bytes) (start : Z) : Z :=
  let s := slice_bound (len data) start in
  find_from (skipn (Z.to_nat s) data) s.

(** [bytes(data)] for a list of integers *)
Definition bytes_of_ints (data : list Z) : exn + bytes :=
  if forallb (fun v => (0 <=? v) && (v <? 256)) data
  then inr (map byte_of_Z data)
  else inl ValueError.

(** How one round of the loop of [FileReader.readzstr] ends: with
    [return], or with the bytes collected so far. *)
Inductive zstr_round (T : Type) : Type :=
  | Return (txt : T)
  | Next (data : list Z).
Arguments Return {T} txt.
Arguments Next {T} data.

Section readzstr.
Context {T : Type} (decode : bytes -> exn + T).

(** [DataReader.readzstr] *)
Definition DataReader_readzstr : M DataReader.t T := fun self =>
  let i := find_zero (DataReader.data self) (DataReader.pos self) in
  if i =? -1 then
    (d <- DataReader.read None ;; fun s => (decode d, s)) self
  else
    let p0 := DataReader.pos self in
    let self := DataReader.mk (DataReader.data self) (i + 1)
                  (DataReader._eof self) in
    (decode (py_slice (DataReader.data self) p0 (DataReader.pos self - 1)),
     self).

(** [return bytes(data).decode(encoding)] *)
Definition return_decoded (data : list Z)
    : M FileReader.state (zstr_round T) := fun s =>
  match bytes_of_ints data with
  | inl e => (inl e, s)
  | inr bs =>
      match decode bs with
      | inl e => (inl e, s)
      | inr txt => (inr (Return txt), s)
      end
  end.

(** The [try] statement in the loop of [FileReader.readzstr]: an
    [EOFError] from its body is caught, and the handler returns only
    if [data] holds something. *)
Definition readzstr_try (data : list Z)
    : M FileReader.state (zstr_round T) := fun s =>
  match (byte <- FileReader.readbyte ;;
         if byte =? 0 then return_decoded data
         else ret (Next (data ++ [byte]))) s with
  | (inl EOFError, s1) =>
      match data with
      | [] => (inr (Next data), s1)
      | _ :: _ => return_decoded data s1
      end
  | r => r
  end.

(** [FileReader.readzstr]: [fuel] bounds the rounds of
    [while not self.eof()]; leaving the loop, the function returns
    [None]. *)
Fixpoint readzstr_loop (fuel : nat) (data : list Z) (s : FileReader.state)
    : option ((exn + option T) * FileReader.state) :=
  match fuel with
  | 0%nat => None
  | S fuel' =>
      if FileReader.eof s then Some (inr None, s)
      else
        match readzstr_try data s with
        | (inl e, s1) => Some (inl e, s1)
        | (inr (Return txt), s1) => Some (inr (Some txt), s1)
        | (inr (Next data'), s1) => readzstr_loop fuel' data' s1
        end
  end.

Definition FileReader_readzstr (fuel : nat)
    : FileReader.state -> option ((exn + option T) * FileReader.state) :=
  readzstr_loop fuel [].

End readzstr.

(** ** Container files put together from their parts

    An entry is given by its type, its payload and its checksum; the
    declared size of the file is the length of its entries. *)
Definition bsuf_entries (es : list (Z * bytes * Z)) : bytes :=
  flat_map (fun e => bsuf_entry (fst (fst e)) (snd (fst e)) (snd e)) es.

Definition bsuf_file (version : Z) (es : list (Z * bytes * Z))
    (checksum : Z) : bytes :=
  bsuf_header version (len (bsuf_entries es)) ++ bsuf_entries es
    ++ encode_le 2 checksum.

(** The entries a decoder is to find from offset [start] on. *)
Fixpoint entries_at (start : Z) (es : list (Z * bytes * Z))
    : list (@dmpbsuf.BsufEntry FileReader.t) :=
  match es with
  | [] => []
  | e :: rest =>
      dmpbsuf.mkBsufEntry (len (snd (fst e))) (fst (fst e)) (start + 6)
        (FileReader.__init__
           (StreamRange Raw (start + 6) (Some (len (snd (fst e))))))
        (snd e)
      :: entries_at (start + 8 + len (snd (fst e))) rest
  end.

(** The fields of an entry fit their widths. *)
Definition entry_fits (e : Z * bytes * Z) : Prop :=
  0 <= fst (fst e) < 2 ^ 16 /\ len (snd (fst e)) < 2 ^ 32 /\
  0 <= snd e < 2 ^ 16.

(** * Properties *)

Import dmpbsuf.

(** ** Lists, lengths and slices *)

Lemma len_nonneg {A} (l : list A) : 0 <= len l.
Proof. unfold len. lia. Qed.

Lemma len_app {A} (l1 l2 : list A) : len (l1 ++ l2) = len l1 + len l2.
Proof. unfold len. rewrite length_app. lia. Qed.

Lemma len_firstn {A} (k : Z) (l : list A) :
  len (firstn (Z.to_nat k) l) = Z.min (Z.max 0 k) (len l).
Proof. unfold len. rewrite length_firstn. lia. Qed.

Lemma len_skipn {A} (k : Z) (l : list A) :
  len (skipn (Z.to_nat k) l) = Z.max 0 (len l - Z.max 0 k).
Proof. unfold len. rewrite length_skipn. lia. Qed.

Lemma slice_bound_nonneg (n i : Z) : 0 <= n -> 0 <= slice_bound n i <= n.
Proof. unfold slice_bound. destruct (Z.ltb_spec i 0); lia. Qed.

Lemma py_slice_whole {A} (l : list A) : py_slice l 0 (len l) = l.
Proof.
  unfold py_slice, slice_bound. pose proof (len_nonneg l).
  destruct (Z.ltb_spec (len l) 0); [lia|].
  change (0 <? 0) with false. cbv iota.
  rewrite Z.min_id, Z.min_l by lia.
  rewrite Z.sub_0_r. change (Z.to_nat 0) with 0%nat. rewrite skipn_O.
  unfold len. rewrite Nat2Z.id. apply firstn_all.
Qed.

(** A slice with bounds in order is the segment between them, cut at
    the end of the list. *)
Lemma py_slice_segment {A} (l : list A) (a b : Z) :
  0 <= a -> a <= b ->
  py_slice l a b = firstn (Z.to_nat (b - a)) (skipn (Z.to_nat a) l).
Proof.
  intros Ha Hab. unfold py_slice, slice_bound. pose proof (len_nonneg l) as Hl.
  destruct (Z.ltb_spec a 0); [lia|]. destruct (Z.ltb_spec b 0); [lia|].
  destruct (Z.le_gt_cases a (len l)) as [Hal|Hal].
  - rewrite (Z.min_l a) by lia.
    destruct (Z.le_gt_cases b (len l)) as [Hbl|Hbl].
    + rewrite Z.min_l by lia. reflexivity.
    + rewrite Z.min_r by lia.
      rewrite !firstn_all2; [reflexivity | |]; rewrite length_skipn;
        unfold len in *; lia.
  - rewrite !Z.min_r by lia. rewrite Z.sub_diag.
    rewrite !skipn_all2 by (unfold len in *; lia).
    rewrite !firstn_nil. reflexivity.
Qed.

Lemma len_py_slice {A} (l : list A) (a b : Z) :
  0 <= a -> a <= b -> b <= len l -> len (py_slice l a b) = b - a.
Proof.
  intros. rewrite py_slice_segment by lia.
  rewrite len_firstn, len_skipn. lia.
Qed.

(** ** The entry loop: fuel, and the run it stands for *)

Section entry_loop.
Context {St Ob : Type} `{BaseReader St Ob}.

Lemma entries_loop_exit (fuel : nat) (bound : Z) acc (s : St) :
  bound <= tell s -> entries_loop fuel bound acc s = Some (inr acc, s).
Proof.
  intros Hb. destruct fuel; simpl;
    destruct (Z.ltb_spec (tell s) bound); (lia || reflexivity).
Qed.

(** More fuel never changes a result. *)
Lemma entries_loop_mono (fuel : nat) :
  forall bound acc (s : St) r,
    entries_loop fuel bound acc s = Some r ->
    forall fuel', (fuel <= fuel')%nat ->
    entries_loop fuel' bound acc s = Some r.
Proof.
  induction fuel as [|fuel IH]; intros bound acc s r Hr fuel' Hle.
  - simpl in Hr. destruct (Z.ltb_spec (tell s) bound); [discriminate|].
    rewrite entries_loop_exit by lia. exact Hr.
  - destruct fuel' as [|fuel']; [lia|]. simpl in *.
    destruct (tell s <? bound); [|exact Hr].
    destruct (BsufEntry__init__ s) as [[e|ent] s1]; [exact Hr|].
    apply IH with (fuel' := fuel') in Hr; [exact Hr | lia].
Qed.

Lemma BsufFile__init___mono (fuel fuel' : nat) (s : St) r :
  BsufFile__init__ fuel s = Some r -> (fuel <= fuel')%nat ->
  BsufFile__init__ fuel' s = Some r.
Proof.
  unfold BsufFile__init__. intros Hr Hle.
  destruct (BsufFile_header s) as [[e|[v fsz]] s1]; [exact Hr|].
  destruct (entries_loop fuel (fsz + 0x10) [] s1) as [r1|] eqn:E;
    [|discriminate].
  rewrite (entries_loop_mono _ _ _ _ _ E fuel' Hle). exact Hr.
Qed.

(** What the loop returns is the accumulator followed by the entries
    of one run of the [while] statement. *)
Lemma entries_loop_run (fuel : nat) :
  forall bound acc (s s' : St) ents,
    entries_loop fuel bound acc s = Some (inr ents, s') ->
    exists new, ents = acc ++ new /\ loop_run bound s new s'.
Proof.
  induction fuel as [|fuel IH]; intros bound acc s s' ents Hr; simpl in Hr.
  - destruct (Z.ltb_spec (tell s) bound); [discriminate|].
    inversion Hr; subst. exists []. rewrite app_nil_r.
    split; [reflexivity | constructor; lia].
  - destruct (Z.ltb_spec (tell s) bound) as [Hlt|Hge].
    + destruct (BsufEntry__init__ s) as [[e|ent] s1] eqn:E; [discriminate|].
      apply IH in Hr. destruct Hr as (new & -> & Hrun).
      exists (ent :: new). rewrite <- app_assoc. split; [reflexivity|].
      econstructor; eauto.
    + inversion Hr; subst. exists []. rewrite app_nil_r.
      split; [reflexivity | constructor; lia].
Qed.

(** Conversely a run is what the loop computes, given fuel for its
    entries. *)
Lemma loop_run_entries_loop (bound : Z) (s s' : St) ents :
  loop_run bound s ents s' ->
  forall acc fuel, (length ents <= fuel)%nat ->
  entries_loop fuel bound acc s = Some (inr (acc ++ ents), s').
Proof.
  induction 1 as [s Hge | s s1 s' ent ents Hlt Hent Hrun IH];
    intros acc fuel Hfuel.
  - rewrite app_nil_r. apply entries_loop_exit. exact Hge.
  - destruct fuel as [|fuel]; [simpl in Hfuel; lia|]. simpl.
    destruct (Z.ltb_spec (tell s) bound); [|lia].
    rewrite Hent. rewrite IH by (simpl in Hfuel; lia).
    rewrite <- app_assoc. reflexivity.
Qed.

(** The loop is left at or past the bound. *)
Lemma loop_run_exit (bound : Z) (s s' : St) ents :
  loop_run bound s ents s' -> bound <= tell s'.
Proof. induction 1; assumption. Qed.

End entry_loop.

(** ** Concrete scenarios *)

(** C8: decoding the firmware header from the 144 bytes zero=0,
    checksum=0x1234, zero2=0, imagesize=0x100, version=(1,2) and 128
    zero bytes yields version (1, 2) and image size 256, whichever
    reader holds the bytes. *)
Theorem firmware_header_decodes :
  let decoded (r : exn + FirmwareType3) :=
    match r with
    | inr fw =>
        fw_version fw = (1, 2) /\ fw_imagesize fw = 256 /\
        fw_checksum fw = 0x1234 /\ fw_data fw = Some (repeat x00 128)
    | inl _ => False
    end in
  decoded (fst (FirmwareType3__init__ (new_bytes firmware_header))) /\
  decoded (fst (FirmwareType3__init__ (file_of io.BytesIO firmware_header))) /\
  decoded (fst (FirmwareType3__init__ (file_of io.OSFile firmware_header))).
Proof. vm_compute. repeat split; reflexivity. Qed.

(** C6 as stated fails: the buffer of the one-entry scenario cannot
    be decoded from memory: the constructor asks the reader for its size, which a
    [DataReader] does not have and a [FileReader] on a [BytesIO] cannot
    tell, before it decodes any entry. *)
Lemma one_entry_buffer_in_memory_fails :
  option_map fst (BsufFile__init__ 100 (new_bytes one_entry_buffer))
    = Some (inl AttributeError) /\
  option_map fst (BsufFile__init__ 100 (file_of io.BytesIO one_entry_buffer))
    = Some (inl UnsupportedOperation).
Proof. split; vm_compute; reflexivity. Qed.

(** C6, for a file: decoding a file with the bytes magic, version 1,
    declared size 0x0A, one entry (size 6, type 0, payload abcdef,
    checksum 0) and file checksum 0 succeeds with exactly one entry, of
    type 0, whose decoded payload is abcdef. *)
Theorem one_entry_file_decodes (fuel : nat) :
  exists f s ent,
    BsufFile__init__ (S fuel) (file_of io.OSFile one_entry_buffer)
      = Some (inr f, s) /\
    entries f = [ent] /\ ent_type ent = 0 /\ ent_size ent = 6 /\
    filechecksum f = 0 /\
    fst (enumentries (entries f) s) = inr [EntryType0 (Some abcdef)].
Proof.
  destruct (BsufFile__init__ 1 (file_of io.OSFile one_entry_buffer))
    as [[[e|f] s]|] eqn:E.
  - vm_compute in E. discriminate.
  - pose proof E as E1. vm_compute in E1.
    injection E1 as Ef Es.
    exists f, s. eexists.
    split; [apply BsufFile__init___mono with (fuel := 1%nat); [exact E | lia]|].
    subst f s. vm_compute. repeat split; reflexivity.
  - vm_compute in E. discriminate.
Qed.

(** C9, as the code runs: saving a type-13 entry ends in [NameError]
    inside [saveunique] and leaves the directory as it was, so two
    saves in succession write no file at all. *)
Theorem type13_save_writes_nothing {St Ob : Type} `{BaseReader St Ob}
    (savedir : string) (fh1 fh2 : Ob) (st : St * filesystem) :
  EntryType13_save savedir fh1 st = (inl NameError, st) /\
  (EntryType13_save savedir fh1 ;;; EntryType13_save savedir fh2) st
    = (inl NameError, st).
Proof. split; reflexivity. Qed.

(** C1, as the code runs: after one byte of a 16-byte [BytesIO], the
    call [read(16)] of a [FileReader] returns the 15 bytes there are
    instead of raising; the position is back at 1 and the flag is
    set. *)
Theorem FileReader_short_read_returns_partial :
  (readbyte ;;; read (Some 16)) (file_of io.BytesIO (bytes_range 0 16))
  = (inr (Some (bytes_range 1 16)),
     (FileReader.mk Raw true,
      io.mkfile io.BytesIO (bytes_range 0 16) 1)).
Proof. vm_compute. reflexivity. Qed.

(** ** Fixed-width integers *)

Lemma byte_of_Z_value (z : Z) : Z.of_N (Byte.to_N (byte_of_Z z)) = z mod 256.
Proof.
  unfold byte_of_Z. pose proof (Z.mod_pos_bound z 256 ltac:(lia)) as Hb.
  destruct (Byte.of_N (Z.to_N (z mod 256))) as [b|] eqn:E.
  - apply Byte.to_of_N in E. rewrite E. lia.
  - apply Byte.of_N_None_iff in E. lia.
Qed.

Lemma length_encode_le (n : nat) : forall v, length (encode_le n v) = n.
Proof. induction n; intros v; simpl; [reflexivity | now rewrite IHn]. Qed.

Lemma length_encode_be (n : nat) (v : Z) : length (encode_be n v) = n.
Proof. unfold encode_be. rewrite length_rev. apply length_encode_le. Qed.

Lemma pow256_pos (n : nat) : 0 < 256 ^ Z.of_nat n.
Proof. apply Z.pow_pos_nonneg; lia. Qed.

Lemma le_value_encode_le (n : nat) :
  forall v, Struct.le_value (encode_le n v) = v mod 256 ^ Z.of_nat n.
Proof.
  induction n as [|n IH]; intros v.
  - simpl. now rewrite Z.mod_1_r.
  - cbn [encode_le Struct.le_value]. rewrite byte_of_Z_value, IH.
    rewrite Nat2Z.inj_succ, Z.pow_succ_r by lia.
    pose proof (pow256_pos n). rewrite Z.rem_mul_r by lia. reflexivity.
Qed.

Lemma encode_le_app (k m : nat) :
  forall v,
    encode_le (k + m) v = encode_le k v ++ encode_le m (v / 256 ^ Z.of_nat k).
Proof.
  induction k as [|k IH]; intros v.
  - simpl. now rewrite Z.div_1_r.
  - cbn [encode_le Nat.add app]. rewrite IH. do 3 f_equal.
    rewrite Nat2Z.inj_succ, Z.pow_succ_r by lia.
    pose proof (pow256_pos k). rewrite Z.div_div by lia. reflexivity.
Qed.

Lemma encode_be_app (k m : nat) (v : Z) :
  encode_be (k + m) v = encode_be m (v / 256 ^ Z.of_nat k) ++ encode_be k v.
Proof. unfold encode_be. rewrite encode_le_app, rev_app_distr. reflexivity. Qed.

Lemma field_value_le (c : Struct.code) (n : nat) (v : Z) :
  Struct.code_signed c = false ->
  Struct.field_value Struct.LittleEndian c (encode_le n v)
    = v mod 256 ^ Z.of_nat n.
Proof.
  intros Hc. unfold Struct.field_value. rewrite Hc. cbn [andb].
  apply le_value_encode_le.
Qed.

Lemma field_value_be (c : Struct.code) (n : nat) (v : Z) :
  Struct.code_signed c = false ->
  Struct.field_value Struct.BigEndian c (encode_be n v)
    = v mod 256 ^ Z.of_nat n.
Proof.
  intros Hc. unfold Struct.field_value, encode_be. rewrite Hc. cbn [andb].
  rewrite rev_involutive. apply le_value_encode_le.
Qed.

(** The high part shifted over the low part is the value again. *)
Lemma shift_join (k m : nat) (sh v : Z) :
  sh = 8 * Z.of_nat k -> 0 <= v < 256 ^ Z.of_nat (k + m) ->
  Z.shiftl ((v / 256 ^ Z.of_nat k) mod 256 ^ Z.of_nat m) sh
    + v mod 256 ^ Z.of_nat k = v.
Proof.
  intros -> Hv. rewrite Z.shiftl_mul_pow2 by lia.
  rewrite Z.pow_mul_r by lia. change (2 ^ 8) with 256.
  pose proof (pow256_pos k) as Hk. pose proof (pow256_pos m) as Hm.
  rewrite Nat2Z.inj_add, Z.pow_add_r in Hv by lia.
  rewrite (Z.mod_small (v / _)).
  - pose proof (Z.div_mod v (256 ^ Z.of_nat k)). lia.
  - split; [apply Z.div_pos; lia|].
    apply Z.div_lt_upper_bound; lia.
Qed.

Lemma unpack1_field {S : Type} (fmt : string) e c (bs : bytes) :
  Struct.parse fmt = Some (e, [c]) -> length bs = Struct.code_size c ->
  @unpack1 S fmt (Some bs) = ret (Struct.field_value e c bs).
Proof.
  intros Hp Hl. unfold unpack1, Struct.unpack. rewrite Hp.
  cbn [Struct.calcsize fold_right]. rewrite Nat.add_0_r, Hl, Nat.eqb_refl.
  cbn [Struct.fields]. rewrite <- Hl, firstn_all. reflexivity.
Qed.

Lemma unpack2_fields {S : Type} (fmt : string) e c1 c2 (a b : bytes) :
  Struct.parse fmt = Some (e, [c1; c2]) ->
  length a = Struct.code_size c1 -> length b = Struct.code_size c2 ->
  @unpack2 S fmt (Some (a ++ b))
    = ret (Struct.field_value e c1 a, Struct.field_value e c2 b).
Proof.
  intros Hp Ha Hb. unfold unpack2, Struct.unpack. rewrite Hp.
  cbn [Struct.calcsize fold_right].
  rewrite length_app, Nat.add_0_r, Ha, Hb, Nat.eqb_refl.
  cbn [Struct.fields]. rewrite <- Ha.
  rewrite firstn_app, firstn_all, Nat.sub_diag, firstn_O, app_nil_r.
  rewrite skipn_app, skipn_all, Nat.sub_diag, skipn_O, app_nil_l.
  rewrite <- Hb, firstn_all. reflexivity.
Qed.

(** A [DataReader.read(k)] within the data. *)
Lemma DataReader_read_within (r : DataReader.t) (k : Z) :
  DataReader._eof r = false ->
  DataReader.pos r + k <= len (DataReader.data r) ->
  DataReader.read (Some k) r
    = (inr (py_slice (DataReader.data r) (DataReader.pos r)
              (DataReader.pos r + k)),
       DataReader.mk (DataReader.data r) (DataReader.pos r + k) false).
Proof.
  intros He Hk. unfold DataReader.read. rewrite He.
  destruct (Z.gtb_spec (DataReader.pos r + k) (len (DataReader.data r)));
    [lia|].
  cbn [DataReader.data DataReader.pos DataReader._eof].
  replace (DataReader.pos r + k - k) with (DataReader.pos r) by lia.
  reflexivity.
Qed.

(** A read of the whole contents of a fresh reader. *)
Lemma read_whole_bytes (bs : bytes) (k : Z) :
  len bs = k ->
  read (Some k) (new_bytes bs)
    = (inr (Some bs), DataReader.mk bs k false).
Proof.
  intros <-. cbn [read DataReader_BaseReader]. unfold bind.
  rewrite DataReader_read_within by (cbn; lia).
  unfold new_bytes, DataReader.__init__.
  cbn [DataReader.data DataReader.pos]. rewrite Z.add_0_l, py_slice_whole.
  reflexivity.
Qed.

Lemma io_read_count (f : io.file) (k : Z) :
  0 <= k ->
  let d := firstn (Z.to_nat k) (skipn (N.to_nat (io.fpos f)) (io.content f)) in
  io.read (Some k) f = (inr d, io.set_fpos (io.tell f + len d) f).
Proof.
  intros Hk d. unfold io.read.
  assert (Hbad : match io.fkind f with
                 | io.BytesIO => false
                 | io.OSFile => k <? -1
                 end = false).
  { destruct (io.fkind f); [reflexivity|]. apply Z.ltb_ge. lia. }
  rewrite Hbad. destruct (Z.ltb_spec k 0); [lia|]. reflexivity.
Qed.

(** A [FileReader.read(k)] that gets [k] bytes from its handle. *)
Lemma FileReader_read_full (h : handle) (f f' : io.file) (d : bytes)
    (k : Z) (throw : bool) :
  fh_read h (Some k) f = (inr d, f') -> len d = k ->
  FileReader.read (Some k) throw (FileReader.mk h false, f)
    = (inr (Some d), (FileReader.mk h false, f')).
Proof.
  intros Hr Hl. unfold FileReader.read, bind, FileReader.on_file.
  cbn [fst snd FileReader._eof FileReader.fh]. rewrite Hr.
  assert (H1 : (0 <? k) && (len d =? 0) = false).
  { destruct (Z.ltb_spec 0 k); [|reflexivity].
    destruct (Z.eqb_spec (len d) 0); [lia | reflexivity]. }
  assert (H2 : negb (k =? 0) && (len d <? k) = false).
  { rewrite (proj2 (Z.ltb_ge (len d) k)) by lia. apply andb_false_r. }
  rewrite H1, H2. reflexivity.
Qed.

Lemma read_whole_file (kind : io.kind) (bs : bytes) (k : Z) :
  len bs = k ->
  read (Some k) (file_of kind bs)
    = (inr (Some bs),
       (FileReader.mk Raw false, io.mkfile kind bs (Z.to_N k))).
Proof.
  intros <-. cbn [read FileReader_BaseReader].
  unfold file_of, new_file, FileReader.__init__.
  pose proof (len_nonneg bs) as Hl.
  assert (Hall : firstn (Z.to_nat (len bs)) bs = bs).
  { unfold len. rewrite Nat2Z.id. apply firstn_all. }
  apply FileReader_read_full; [|reflexivity].
  cbn [fh_read]. rewrite io_read_count by lia.
  cbn [io.fpos io.content]. change (N.to_nat 0) with 0%nat.
  rewrite skipn_O, Hall. reflexivity.
Qed.

Section fixed_width.
Context {S O : Type} `{BaseReader S O}.
Variables (s s' : S) (bs : bytes) (k : Z).
Hypothesis Hread : read (Some k) s = (inr (Some bs), s').

Lemma read_one_field (fmt : string) e c :
  Struct.parse fmt = Some (e, [c]) -> length bs = Struct.code_size c ->
  (d <- read (Some k) ;; unpack1 fmt d) s
    = (inr (Struct.field_value e c bs), s').
Proof.
  intros Hp Hl. unfold bind. rewrite Hread.
  rewrite (unpack1_field fmt e c) by assumption. reflexivity.
Qed.

Lemma read_two_fields (fmt : string) e c1 c2 (a b : bytes)
    (join : Z * Z -> Z) :
  Struct.parse fmt = Some (e, [c1; c2]) -> bs = a ++ b ->
  length a = Struct.code_size c1 -> length b = Struct.code_size c2 ->
  (d <- read (Some k) ;; p <- unpack2 fmt d ;; ret (join p)) s
    = (inr (join (Struct.field_value e c1 a, Struct.field_value e c2 b)),
       s').
Proof.
  intros Hp -> Ha Hb. unfold bind. rewrite Hread.
  rewrite (unpack2_fields fmt e c1 c2) by assumption. reflexivity.
Qed.

End fixed_width.

Ltac one_field v :=
  erewrite read_one_field;
    [ | eassumption | reflexivity
      | first [ apply length_encode_le | apply length_encode_be ] ];
  cbn [fst]; f_equal;
  first [ rewrite field_value_le by reflexivity
        | rewrite field_value_be by reflexivity ];
  apply Z.mod_small; exact v.

Ltac two_fields k m v :=
  erewrite read_two_fields;
    [ | eassumption | reflexivity
      | first [ apply (encode_le_app k m) | apply (encode_be_app k m) ]
      | first [ apply length_encode_le | apply length_encode_be ]
      | first [ apply length_encode_le | apply length_encode_be ] ];
  cbn [fst snd]; f_equal;
  first [ rewrite !field_value_le by reflexivity
        | rewrite !field_value_be by reflexivity ];
  apply (shift_join k m); [reflexivity | exact v].

(** Whatever the reader, if its [read] hands over the encoding of [v],
    the helper for that width and endianness returns [v]. *)
Lemma read_fixed_of_encoding {S O : Type} `{BaseReader S O}
    (e : Struct.endian) (w : width) (v : Z) (s s' : S) :
  0 <= v < 2 ^ width_bits w ->
  read (Some (Z.of_nat (width_bytes w))) s = (inr (Some (encode e w v)), s') ->
  fst (read_fixed e w s) = inr v.
Proof.
  intros Hv Hr.
  destruct e, w; cbn [read_fixed encode width_bytes] in *;
    unfold read16le, read24le, read32le, read48le, read64le, read96le,
      read128le, read16be, read24be, read32be, read48be, read64be,
      read96be, read128be.
  - one_field Hv.
  - two_fields 2%nat 1%nat Hv.
  - one_field Hv.
  - two_fields 4%nat 2%nat Hv.
  - one_field Hv.
  - two_fields 8%nat 4%nat Hv.
  - two_fields 8%nat 8%nat Hv.
  - one_field Hv.
  - two_fields 2%nat 1%nat Hv.
  - one_field Hv.
  - two_fields 4%nat 2%nat Hv.
  - one_field Hv.
  - two_fields 8%nat 4%nat Hv.
  - two_fields 8%nat 8%nat Hv.
Qed.

(** C7: for every width among 16, 24, 32, 48, 64, 96 and 128 bits, for
    both endiannesses and every [v] with [0 <= v < 2^w], reading the
    encoding of [v] with the helper for that width and endianness
    returns [v], from a [DataReader] and from a [FileReader]. *)
Theorem fixed_width_roundtrip (e : Struct.endian) (w : width) (v : Z) :
  0 <= v < 2 ^ width_bits w ->
  fst (read_fixed e w (new_bytes (encode e w v))) = inr v /\
  forall kind, fst (read_fixed e w (file_of kind (encode e w v))) = inr v.
Proof.
  intros Hv.
  assert (Hlen : len (encode e w v) = Z.of_nat (width_bytes w)).
  { unfold len. f_equal. destruct e; cbn [encode];
      [apply length_encode_le | apply length_encode_be]. }
  split; [|intros kind].
  - eapply read_fixed_of_encoding; [exact Hv|].
    apply read_whole_bytes. exact Hlen.
  - eapply read_fixed_of_encoding; [exact Hv|].
    apply read_whole_file. exact Hlen.
Qed.

Lemma fixed_width_roundtrip_witness :
  0 <= 2 ^ 24 - 1 < 2 ^ width_bits W24 /\
  fst (read_fixed Struct.LittleEndian W24
         (new_bytes (encode Struct.LittleEndian W24 (2 ^ 24 - 1))))
    = inr (2 ^ 24 - 1).
Proof.
  split; [vm_compute; split; [discriminate | reflexivity]|].
  apply (fixed_width_roundtrip Struct.LittleEndian W24 (2 ^ 24 - 1)).
  vm_compute. split; [discriminate | reflexivity].
Defined.

(** ** The container header *)

Lemma field_value_unsigned (c : Struct.code) (bs : bytes) :
  Struct.code_signed c = false ->
  Struct.field_value Struct.LittleEndian c bs = Struct.le_value bs.
Proof. intros Hc. unfold Struct.field_value. rewrite Hc. reflexivity. Qed.

Lemma header_invalid_magic {St Ob : Type} `{BaseReader St Ob}
    (s s1 : St) (m : Z) (fuel : nat) :
  read64le s = (inr m, s1) -> m <> magic ->
  BsufFile__init__ fuel s
    = Some (inl (Exception "invalid header magic"), s1).
Proof.
  intros Hr Hm. unfold BsufFile__init__, BsufFile_header, bind.
  rewrite Hr. fold magic. destruct (Z.eqb_spec m magic); [contradiction|].
  reflexivity.
Qed.

Lemma read64le_first8_bytes (bs : bytes) :
  8 <= len bs ->
  read64le (new_bytes bs)
    = (inr (Struct.le_value (firstn 8 bs)), DataReader.mk bs 8 false).
Proof.
  intros Hl. unfold read64le.
  erewrite read_one_field with (bs := firstn 8 bs);
    [ | | reflexivity | ].
  - rewrite field_value_unsigned by reflexivity. reflexivity.
  - cbn [read DataReader_BaseReader]. unfold bind.
    rewrite DataReader_read_within
      by (unfold new_bytes, DataReader.__init__;
          cbn [DataReader._eof DataReader.data DataReader.pos];
          first [reflexivity | lia]).
    unfold new_bytes, DataReader.__init__.
    cbn [DataReader.data DataReader.pos].
    rewrite py_slice_segment by lia. reflexivity.
  - rewrite length_firstn. unfold len in Hl. cbn [Struct.code_size]. lia.
Qed.

Lemma read64le_first8_file (kind : io.kind) (bs : bytes) :
  8 <= len bs ->
  read64le (file_of kind bs)
    = (inr (Struct.le_value (firstn 8 bs)),
       (FileReader.mk Raw false, io.mkfile kind bs 8)).
Proof.
  intros Hl. unfold read64le.
  assert (Hlen : len (firstn 8 bs) = 8).
  { unfold len in *. rewrite length_firstn. lia. }
  erewrite read_one_field with (bs := firstn 8 bs);
    [ | | reflexivity | ].
  - rewrite field_value_unsigned by reflexivity. reflexivity.
  - cbn [read FileReader_BaseReader].
    unfold file_of, new_file, FileReader.__init__.
    erewrite FileReader_read_full; [reflexivity | | exact Hlen].
    cbn [fh_read]. rewrite io_read_count by lia.
    cbn [io.fpos io.content]. change (N.to_nat 0) with 0%nat.
    rewrite skipn_O. change (Z.to_nat 8) with 8%nat.
    unfold io.set_fpos, io.tell. cbn [io.fpos io.content io.fkind].
    rewrite Hlen. reflexivity.
  - unfold len in Hlen. cbn [Struct.code_size]. lia.
Qed.

(** C5: when the first 8 bytes of the input, read as a little-endian
    64-bit number, are not 0x663919145fab6655, the constructor ends
    with the exception "invalid header magic" right after reading
    them: there is no decoded file and hence no decoded entry, from a
    [DataReader] and from a [FileReader] alike. *)
Theorem invalid_magic_rejected (bs : bytes) (fuel : nat) :
  8 <= len bs -> Struct.le_value (firstn 8 bs) <> 0x663919145fab6655 ->
  BsufFile__init__ fuel (new_bytes bs)
    = Some (inl (Exception "invalid header magic"),
            DataReader.mk bs 8 false) /\
  forall kind,
    BsufFile__init__ fuel (file_of kind bs)
      = Some (inl (Exception "invalid header magic"),
              (FileReader.mk Raw false, io.mkfile kind bs 8)).
Proof.
  intros Hl Hm. split; [|intros kind].
  - eapply header_invalid_magic; [apply read64le_first8_bytes, Hl | exact Hm].
  - eapply header_invalid_magic; [apply read64le_first8_file, Hl | exact Hm].
Qed.

(** A header whose magic is off by one in its lowest byte. *)
Lemma invalid_magic_rejected_witness :
  let bs := encode_le 8 (magic + 1) ++ encode_le 4 1 ++ encode_le 4 0 in
  8 <= len bs /\
  Struct.le_value (firstn 8 bs) <> 0x663919145fab6655 /\
  BsufFile__init__ 10 (new_bytes bs)
    = Some (inl (Exception "invalid header magic"),
            DataReader.mk bs 8 false).
Proof.
  assert (H1 : 8 <= len (encode_le 8 (magic + 1) ++ encode_le 4 1
                          ++ encode_le 4 0)).
  { vm_compute. discriminate. }
  assert (H2 : Struct.le_value
                 (firstn 8 (encode_le 8 (magic + 1) ++ encode_le 4 1
                              ++ encode_le 4 0))
               <> 0x663919145fab6655).
  { vm_compute. discriminate. }
  split; [exact H1|]. split; [exact H2|].
  exact (proj1 (invalid_magic_rejected _ 10 H1 H2)).
Defined.

(** ** Handles and what a [FileReader.read] comes to *)

Lemma io_tell_nonneg (f : io.file) : 0 <= io.tell f.
Proof. unfold io.tell. lia. Qed.

Lemma io_tell_set_fpos (p : Z) (f : io.file) :
  0 <= p -> io.tell (io.set_fpos p f) = p.
Proof. intros Hp. unfold io.tell, io.set_fpos. cbn. lia. Qed.

Lemma io_set_fpos_tell (f : io.file) : io.set_fpos (io.tell f) f = f.
Proof.
  destruct f as [k c p]. unfold io.set_fpos, io.tell. cbn.
  rewrite N2Z.id. reflexivity.
Qed.

Lemma io_set_fpos_twice (p q : Z) (f : io.file) :
  io.set_fpos p (io.set_fpos q f) = io.set_fpos p f.
Proof. reflexivity. Qed.

Lemma io_read_state (n : option Z) (f : io.file) :
  match io.read n f with
  | (inr d, f') => f' = io.set_fpos (io.tell f + len d) f
  | (inl _, f') => f' = f
  end.
Proof.
  unfold io.read.
  destruct (match n with
            | Some k => match io.fkind f with
                        | io.BytesIO => false
                        | io.OSFile => k <? -1
                        end
            | None => false
            end); reflexivity.
Qed.

Lemma fh_read_state (h : handle) :
  forall n f,
    match fh_read h n f with
    | (inr d, f') => f' = io.set_fpos (io.tell f + len d) f
    | (inl _, f') => f' = f
    end.
Proof.
  induction h as [|fh IH start e]; intros n f; cbn [fh_read].
  - apply io_read_state.
  - destruct e; apply IH.
Qed.

Lemma fh_tell_base (h : handle) (f : io.file) :
  fh_tell h f = io.tell f - handle_base h.
Proof. induction h as [|fh IH start e]; cbn [fh_tell handle_base]; lia. Qed.

Lemma io_seek_set (p : Z) (f : io.file) :
  0 <= p -> io.seek p SEEK_SET f = (inr p, io.set_fpos p f).
Proof.
  intros Hp. unfold io.seek, SEEK_SET. cbn [Z.eqb].
  destruct (Z.ltb_spec p 0); [lia | reflexivity].
Qed.

Lemma fh_seek_set (h : handle) :
  forall ofs f,
    0 <= handle_base h + ofs ->
    fh_seek h ofs SEEK_SET f
      = (inr ofs, io.set_fpos (handle_base h + ofs) f).
Proof.
  induction h as [|fh IH start e]; intros ofs f Hp;
    cbn [fh_seek handle_base] in *.
  - rewrite io_seek_set by lia. reflexivity.
  - change (SEEK_SET =? SEEK_SET) with true. cbv iota. unfold bind.
    rewrite IH by lia. unfold ret.
    replace (start + ofs - start) with ofs by lia.
    replace (handle_base fh + (start + ofs))
      with (handle_base fh + start + ofs) by lia.
    reflexivity.
Qed.

(** [FileReader.read] with the flag clear: an exception of the handle
    passes through; a read that comes up short sets the flag and
    leaves the file where it was; any other read hands over what the
    handle returned. *)
Lemma FileReader_read_cases (h : handle) (n : option Z) (throw : bool)
    (f : io.file) :
  FileReader.read n throw (FileReader.mk h false, f)
  = match fh_read h n f with
    | (inl e, _) => (inl e, (FileReader.mk h false, f))
    | (inr d, f') =>
        if finds_less n (FileReader.mk h false, f) then
          (if throw then inl EOFError else inr (Some d),
           (FileReader.mk h true, f))
        else (inr (Some d), (FileReader.mk h false, f'))
    end.
Proof.
  unfold FileReader.read, finds_less, bind, FileReader.on_file.
  cbn [fst snd FileReader._eof FileReader.fh].
  pose proof (fh_read_state h n f) as Hst.
  destruct (fh_read h n f) as [[e|d] f']; [subst f'; reflexivity|].
  pose proof (len_nonneg d) as Hd. pose proof (io_tell_nonneg f) as Hf.
  assert (Hback : forall b,
    (FileReader.on_file
       (fun h0 f0 => fh_seek h0 (fh_tell h0 f0 - len d) SEEK_SET f0)) 
      (FileReader.mk h b, f')
    = (inr (io.tell f - handle_base h), (FileReader.mk h b, f))).
  { intros b. unfold FileReader.on_file. cbn [fst snd FileReader.fh].
    rewrite fh_tell_base. subst f'. rewrite io_tell_set_fpos by lia.
    rewrite fh_seek_set by lia.
    replace (handle_base h + (io.tell f + len d - handle_base h - len d))
      with (io.tell f) by lia.
    rewrite io_set_fpos_twice, io_set_fpos_tell.
    do 2 f_equal. lia. }
  destruct n as [k|].
  - destruct (Z.ltb_spec 0 k) as [Hk|Hk]; cbn [andb].
    + destruct (Z.eqb_spec (len d) 0) as [H0|H0].
      * destruct (Z.ltb_spec (len d) k); [|lia].
        unfold FileReader.set_eof, modify, raise, ret.
        cbn [fst snd FileReader.fh]. subst f'. rewrite H0, Z.add_0_r.
        rewrite io_set_fpos_tell. destruct throw; reflexivity.
      * destruct (Z.eqb_spec k 0); [lia|]. cbn [negb andb].
        destruct (Z.ltb_spec (len d) k); [|reflexivity].
        specialize (Hback false). unfold FileReader.on_file in Hback.
        cbn [fst snd FileReader.fh] in *. rewrite Hback.
        unfold FileReader.set_eof, modify, raise, ret.
        cbn [fst snd FileReader.fh]. destruct throw; reflexivity.
    + destruct (Z.eqb_spec k 0) as [Hz|Hz]; cbn [negb andb];
        [reflexivity|].
      destruct (Z.ltb_spec (len d) k); [lia | reflexivity].
  - cbn [andb]. destruct (Z.eqb_spec (len d) 0) as [H0|H0];
      [|reflexivity].
    unfold FileReader.set_eof, modify, raise, ret.
    cbn [fst snd FileReader.fh]. subst f'. rewrite H0, Z.add_0_r.
    rewrite io_set_fpos_tell. destruct throw; reflexivity.
Qed.

(** ** The EOF flag *)

Lemma DataReader_seek_clears (p whence : Z) (r : DataReader.t) :
  DataReader._eof (snd (DataReader.seek p whence r)) = false.
Proof.
  unfold DataReader.seek. cbn [DataReader.data DataReader.pos DataReader._eof].
  match goal with |- context [if ?c then _ else _] =>
    destruct c; reflexivity end.
Qed.

Lemma FileReader_seek_clears (p whence : Z) (s : FileReader.state) :
  FileReader._eof (fst (snd (FileReader.seek p whence s))) = false.
Proof.
  unfold FileReader.seek, bind, FileReader.set_eof, modify,
    FileReader.on_file.
  cbn [fst snd FileReader.fh].
  destruct (fh_seek _ _ _ _) as [[e|z] f']; reflexivity.
Qed.

(** A read never clears the flag, and sets it exactly when it asks
    for more than remains. *)
Lemma DataReader_read_flag (n : option Z) (r : DataReader.t) :
  DataReader._eof (snd (DataReader.read n r))
    = DataReader._eof r || asks_beyond_data n r.
Proof.
  unfold DataReader.read, asks_beyond_data, DataReader.remaining.
  destruct (DataReader._eof r) eqn:He; [cbn; exact He|].
  cbn [orb]. destruct n as [k|].
  - destruct (Z.gtb_spec (DataReader.pos r + k) (len (DataReader.data r)));
      destruct (Z.gtb_spec k (len (DataReader.data r) - DataReader.pos r));
      try lia; cbn; reflexivity.
  - destruct (Z.gtb_spec
                (DataReader.pos r
                 + (len (DataReader.data r) - DataReader.pos r))
                (len (DataReader.data r))); [lia|].
    cbn. reflexivity.
Qed.

Lemma FileReader_read_flag (n : option Z) (throw : bool)
    (s : FileReader.state) :
  FileReader._eof (fst (snd (FileReader.read n throw s)))
    = FileReader._eof (fst s) || finds_less n s.
Proof.
  destruct s as [[h e] f]. destruct e.
  - unfold FileReader.read. cbn [fst snd FileReader._eof].
    destruct throw; reflexivity.
  - rewrite FileReader_read_cases. cbn [fst orb FileReader._eof].
    unfold finds_less at 2. cbn [fst snd FileReader.fh].
    destruct (fh_read h n f) as [[x|d] f'] eqn:E; [reflexivity|].
    destruct (finds_less n _) eqn:F.
    + unfold finds_less in F. cbn [fst snd FileReader.fh] in F.
      rewrite E in F. rewrite F. reflexivity.
    + unfold finds_less in F. cbn [fst snd FileReader.fh] in F.
      rewrite E in F. rewrite F. reflexivity.
Qed.

Ltac zbool :=
  repeat match goal with
         | |- context [?a <? ?b] => destruct (Z.ltb_spec a b)
         | |- context [?a >? ?b] => destruct (Z.gtb_spec a b)
         | |- context [?a =? ?b] => destruct (Z.eqb_spec a b)
         end;
  cbn [andb orb negb]; try reflexivity; try lia.

(** On the file object itself, coming up short is asking for more
    than the file still holds. *)
Lemma finds_less_on_file (n : option Z) (e : bool) (f : io.file) :
  finds_less n (FileReader.mk Raw e, f)
    = asks_beyond_file n (FileReader.mk Raw e, f).
Proof.
  unfold finds_less, asks_beyond_file, available.
  cbn [fst snd FileReader.fh fh_read]. unfold io.read, io.tell.
  pose proof (len_nonneg (io.content f)) as Hl.
  assert (Hav : len (skipn (N.to_nat (io.fpos f)) (io.content f))
                = Z.max 0 (len (io.content f) - Z.of_N (io.fpos f))).
  { unfold len. rewrite length_skipn. lia. }
  destruct n as [k|].
  - destruct (io.fkind f).
    + destruct (Z.ltb_spec k 0) as [Hk|Hk].
      * rewrite Hav. zbool.
      * rewrite len_firstn, Hav. zbool.
    + destruct (Z.ltb_spec k (-1)) as [Hm|Hm]; [zbool|].
      destruct (Z.ltb_spec k 0) as [Hk|Hk].
      * rewrite Hav. zbool.
      * rewrite len_firstn, Hav. zbool.
  - destruct (io.fkind f); rewrite Hav; reflexivity.
Qed.

Section latched_flag.
Context {S O : Type} `{BaseReader S O}.
Variable flag : S -> bool.
Variable short : option Z -> S -> bool.
Hypothesis flag_read :
  forall n s, flag (snd (read n s)) = flag s || short n s.
Hypothesis flag_seek :
  forall p w s, flag (snd (seek p w s)) = false.

Lemma flag_do_read (n : option Z) (s : S) :
  flag (snd (do_op (OpRead n) s)) = flag s || short n s.
Proof.
  rewrite <- flag_read. cbn [do_op]. unfold bind.
  destruct (read n s) as [[e|d] s1]; reflexivity.
Qed.

Lemma flag_do_seek (p w : Z) (s : S) :
  flag (snd (do_op (OpSeek p w) s)) = false.
Proof.
  rewrite <- (flag_seek p w s). cbn [do_op]. unfold bind.
  destruct (seek p w s) as [[e|z] s1]; reflexivity.
Qed.

Lemma run_cons_state (o : op) (ops : list op) (s : S) :
  snd (run (o :: ops) s) = snd (run ops (snd (do_op o s))).
Proof.
  cbn [run]. destruct (do_op o s) as [r s1]. cbn [snd].
  destruct (run ops s1) as [rs s2]. reflexivity.
Qed.

Lemma short_read_since_seek_cons (o : op) (ops : list op) (s : S) :
  short_read_since_seek short (o :: ops) s <->
  (exists n, o = OpRead n /\ no_seek ops = true /\ short n s = true) \/
  short_read_since_seek short ops (snd (do_op o s)).
Proof.
  unfold short_read_since_seek. split.
  - intros (pre & n & post & E & Hn & Hs). destruct pre as [|o' pre].
    + cbn in E. injection E as -> ->. left. exists n. auto.
    + cbn in E. injection E as <- ->. right. exists pre, n, post.
      rewrite run_cons_state in Hs. auto.
  - intros [(n & -> & Hn & Hs) | (pre & n & post & -> & Hn & Hs)].
    + exists [], n, ops. auto.
    + exists (o :: pre), n, post. rewrite run_cons_state. auto.
Qed.

(** The flag is set exactly when it was set at the start and no
    [seek] came since, or a read came up short with no [seek]
    after it. *)
Lemma flag_latched (ops : list op) :
  forall s,
    flag (snd (run ops s)) = true <->
    (flag s = true /\ no_seek ops = true) \/
    short_read_since_seek short ops s.
Proof.
  induction ops as [|o ops IH]; intros s.
  - cbn [run snd no_seek forallb]. split.
    + intros Hf. left. auto.
    + intros [[Hf _] | (pre & n & post & E & _)]; [exact Hf|].
      destruct pre; discriminate.
  - rewrite run_cons_state, IH, short_read_since_seek_cons.
    unfold no_seek. cbn [forallb]. fold (no_seek ops).
    destruct o as [n|p w]; cbn [is_seek negb andb].
    + rewrite flag_do_read. rewrite orb_true_iff. split.
      * intros [[[Hf|Hs] Hn] | Hr]; [left | right; left | right; right];
          eauto.
      * intros [[Hf Hn] | [(n' & E & Hn & Hs) | Hr]].
        -- left. auto.
        -- injection E as <-. left. auto.
        -- right. exact Hr.
    + rewrite flag_do_seek. split.
      * intros [[Hf _] | Hr]; [discriminate | right; right; exact Hr].
      * intros [[_ Hf] | [(n' & E & _) | Hr]];
          [discriminate | discriminate | right; exact Hr].
Qed.

End latched_flag.

(** [DataReader.eof()] is no view of the flag: it compares the
    position with the length of the data, and so answers true right
    after a [seek] to the end, with the flag clear. *)
Lemma DataReader_eof_is_position :
  let r := snd (seek 0 SEEK_END (new_bytes (bytes_range 0 16))) in
  eof r = true /\ DataReader._eof r = false.
Proof. vm_compute. split; reflexivity. Qed.

(** C3 as stated fails: the flag is latched.  After a [read(17)] on
    16 bytes has set it, a [read(1)], which asks for less than the 16
    bytes that remain, fails too and leaves the flag set.  And on a
    [FileReader] a [read()] at the end of the file sets the flag
    without asking for a single byte beyond it. *)
Lemma eof_flag_outlives_short_read :
  (let r0 := new_bytes (bytes_range 0 16) in
   let r1 := snd (read (Some 17) r0) in
   let r2 := snd (read (Some 1) r1) in
   DataReader._eof r2 = true /\
   DataReader.remaining r1 = 16 /\
   asks_beyond_data (Some 1) r1 = false) /\
  (let s0 := file_of io.BytesIO (bytes_range 0 16) in
   let s1 := snd (read (Some 16) s0) in
   let s2 := snd (read None s1) in
   FileReader.eof s1 = false /\ FileReader.eof s2 = true /\
   available (snd s1) = 0).
Proof. vm_compute. repeat split; reflexivity. Qed.

(** C3, amended: the EOF flag of a reader is set exactly when a read
    since the reader was made or last repositioned came up short (a
    [DataReader.read] asking for more than remains; a
    [FileReader.read] finding fewer bytes than asked for, or none when
    reading the rest), or when it was set before and no [seek] came
    since; and every [seek], whatever its arguments and whether it
    succeeds or raises, clears the flag. *)
Theorem eof_flag_latched :
  (forall (ops : list op) (r : DataReader.t),
     DataReader._eof (snd (run ops r)) = true <->
     (DataReader._eof r = true /\ no_seek ops = true) \/
     short_read_since_seek asks_beyond_data ops r) /\
  (forall (ops : list op) (s : FileReader.state),
     FileReader.eof (snd (run ops s)) = true <->
     (FileReader.eof s = true /\ no_seek ops = true) \/
     short_read_since_seek finds_less ops s) /\
  (forall (p w : Z) (r : DataReader.t),
     DataReader._eof (snd (seek p w r)) = false) /\
  (forall (p w : Z) (s : FileReader.state),
     FileReader.eof (snd (seek p w s)) = false).
Proof.
  assert (Hd : forall (p w : Z) (r : DataReader.t),
             DataReader._eof (snd (seek p w r)) = false).
  { intros p w r. apply DataReader_seek_clears. }
  assert (Hf : forall (p w : Z) (s : FileReader.state),
             FileReader.eof (snd (seek p w s)) = false).
  { intros p w s. apply FileReader_seek_clears. }
  split; [|split; [|split; [exact Hd | exact Hf]]].
  - intros ops r. apply flag_latched; [|exact Hd].
    intros n s. rewrite <- DataReader_read_flag.
    cbn [read DataReader_BaseReader]. unfold bind.
    destruct (DataReader.read n s) as [[e|d] s1]; reflexivity.
  - intros ops s. apply flag_latched; [|exact Hf].
    intros n s0. apply FileReader_read_flag.
Qed.

(** ** Sub-readers of a [DataReader] *)

Lemma on_cons_same {A} (o : nat) (x : A) (l : list (nat * A)) :
  Store.on o ((o, x) :: l) = x :: Store.on o l.
Proof. unfold Store.on. cbn. rewrite Nat.eqb_refl. reflexivity. Qed.

Lemma on_cons_other {A} (o o' : nat) (x : A) (l : list (nat * A)) :
  o' <> o -> Store.on o ((o', x) :: l) = Store.on o l.
Proof.
  intros Hne. unfold Store.on. cbn.
  destruct (Nat.eqb_spec o' o); [contradiction | reflexivity].
Qed.

(** What a sequence of calls does to one object of the store, and
    what that object's calls return, is what the object's own calls
    do and return when made on it alone. *)
Lemma run_calls_frame (acts : list (nat * op)) :
  forall (h : Store.store) (o : nat) (r : DataReader.t),
    h !! o = Some r ->
    Forall (fun a => is_Some (h !! a.1)) acts ->
    exists outs h',
      Store.run_calls acts h = Some (outs, h') /\
      h' !! o = Some (snd (run (Store.on o acts) r)) /\
      Store.on o outs = fst (run (Store.on o acts) r).
Proof.
  induction acts as [|[o' c] acts IH]; intros h o r Ho Hall.
  - exists [], h. cbn. auto.
  - inversion Hall as [|a l [r' Ho'] Hrest]; subst. cbn [fst] in Ho'.
    cbn [Store.run_calls]. unfold Store.call. rewrite Ho'.
    destruct (do_op c r') as [x r''] eqn:E.
    assert (Hall' : Forall (fun a => is_Some (<[o' := r'']> h !! a.1)) acts).
    { eapply Forall_impl; [exact Hrest|]. intros a Ha. cbv beta in *.
      destruct (decide (o' = a.1)) as [<-|Hd].
      - rewrite lookup_insert_eq. eauto.
      - rewrite lookup_insert_ne by exact Hd. exact Ha. }
    destruct (Nat.eq_dec o' o) as [->|Hne].
    + assert (r' = r) as -> by congruence.
      destruct (IH (<[o := r'']> h) o r'') as (outs & h' & Hrun & Hst & Hout);
        [apply lookup_insert_eq | exact Hall' |].
      exists ((o, x) :: outs), h'. rewrite Hrun.
      rewrite !on_cons_same. cbn [run]. rewrite E.
      destruct (run (Store.on o acts) r'') as [rs s2]. cbn [fst snd] in *.
      rewrite Hout. auto.
    + destruct (IH (<[o' := r'']> h) o r) as (outs & h' & Hrun & Hst & Hout);
        [rewrite lookup_insert_ne by exact Hne; exact Ho | exact Hall' |].
      exists ((o', x) :: outs), h'. rewrite Hrun.
      rewrite !on_cons_other by exact Hne. auto.
Qed.

(** C10: [subreader], with or without a length, leaves the parent
    object as it was and returns a new object holding its own copy of
    the bytes; whatever calls to [seek] and [read] are then made on
    the two, in whatever order, each ends up in the state, and returns
    the outcomes, that its own calls alone would have given. *)
Theorem subreader_independent (h : Store.store) (p : nat)
    (r : DataReader.t) (n : option Z) :
  h !! p = Some r ->
  exists c h',
    Store.subreader p n h = Some (c, h') /\
    c <> p /\
    h' !! p = Some r /\
    h' !! c = Some (DataReader.subreader n r) /\
    forall acts : list (nat * op),
      Forall (fun a => a.1 = p \/ a.1 = c) acts ->
      exists outs h'',
        Store.run_calls acts h' = Some (outs, h'') /\
        h'' !! p = Some (snd (run (Store.on p acts) r)) /\
        Store.on p outs = fst (run (Store.on p acts) r) /\
        h'' !! c
          = Some (snd (run (Store.on c acts) (DataReader.subreader n r))) /\
        Store.on c outs
          = fst (run (Store.on c acts) (DataReader.subreader n r)).
Proof.
  intros Hp. unfold Store.subreader. rewrite Hp.
  set (c := fresh (dom h)).
  assert (Hc : h !! c = None) by (apply not_elem_of_dom, is_fresh).
  assert (Hne : c <> p) by (intros E; rewrite E in Hc; congruence).
  set (child := DataReader.subreader n r).
  assert (Hp' : <[c := child]> h !! p = Some r)
    by (rewrite lookup_insert_ne by exact Hne; exact Hp).
  assert (Hc' : <[c := child]> h !! c = Some child)
    by apply lookup_insert_eq.
  exists c, (<[c := child]> h). repeat split; try assumption.
  intros acts Hacts.
  assert (Hall : Forall (fun a => is_Some (<[c := child]> h !! a.1)) acts).
  { eapply Forall_impl; [exact Hacts|]. intros a [-> | ->]; eauto. }
  destruct (run_calls_frame acts _ p r Hp' Hall)
    as (outs & h'' & Hrun & Hps & Hpo).
  destruct (run_calls_frame acts _ c child Hc' Hall)
    as (outs2 & h2 & Hrun2 & Hcs & Hco).
  rewrite Hrun in Hrun2. injection Hrun2 as <- <-.
  exists outs, h''. auto.
Qed.

Lemma subreader_independent_witness :
  let r := new_bytes (bytes_range 0 16) in
  let h : Store.store := {[ 0%nat := r ]} in
  h !! 0%nat = Some r /\
  exists c h',
    Store.subreader 0 (Some 4) h = Some (c, h') /\
    c <> 0%nat /\
    h' !! 0%nat = Some r /\
    h' !! c = Some (DataReader.subreader (Some 4) r) /\
    forall acts : list (nat * op),
      Forall (fun a => a.1 = 0%nat \/ a.1 = c) acts ->
      exists outs h'',
        Store.run_calls acts h' = Some (outs, h'') /\
        h'' !! 0%nat = Some (snd (run (Store.on 0 acts) r)) /\
        Store.on 0 outs = fst (run (Store.on 0 acts) r) /\
        h'' !! c
          = Some (snd (run (Store.on c acts)
                         (DataReader.subreader (Some 4) r))) /\
        Store.on c outs
          = fst (run (Store.on c acts) (DataReader.subreader (Some 4) r)).
Proof.
  intros r h.
  assert (H0 : h !! 0%nat = Some r) by reflexivity.
  split; [exact H0|].
  exact (subreader_independent h 0%nat r (Some 4) H0).
Defined.

(** ** Bounded views *)

(** What [DataReader.read] returns: the bytes from the position on,
    or [EOFError] when the flag is set or more is asked for than
    remains. *)
Lemma DataReader_read_result (k : Z) (v : DataReader.t) :
  fst (DataReader.read (Some k) v)
  = if DataReader._eof v || (k >? DataReader.remaining v)
    then inl EOFError
    else inr (py_slice (DataReader.data v) (DataReader.pos v)
                (DataReader.pos v + k)).
Proof.
  unfold DataReader.read, DataReader.remaining.
  destruct (DataReader._eof v); [reflexivity|]. cbn [orb].
  destruct (Z.gtb_spec (DataReader.pos v + k) (len (DataReader.data v)));
    destruct (Z.gtb_spec k (len (DataReader.data v) - DataReader.pos v));
    try lia; cbn [fst DataReader.data DataReader.pos]; [reflexivity|].
  replace (DataReader.pos v + k - k) with (DataReader.pos v) by lia.
  reflexivity.
Qed.

(** C2 as stated fails for the bounded sub-reader of a [DataReader]:
    asked for 5 bytes with 4 remaining, it raises [EOFError] and
    returns nothing. *)
Lemma bounded_subreader_raises :
  let parent := new_bytes (bytes_range 0 16) in
  let view := DataReader.subreader (Some 4) parent in
  DataReader.remaining view = 4 /\
  fst (DataReader.read (Some 5) view) = inl EOFError /\
  fst (read (Some 5) view) = inl EOFError.
Proof. vm_compute. repeat split; reflexivity. Qed.

(** Outside its window a [StreamRange] does not clamp: positioned one
    byte past the end of a 4-byte window, [read(1)] hands over the
    rest of the file. *)
Lemma StreamRange_past_window :
  let view := FileReader.__init__ (StreamRange Raw 0 (Some 4)) in
  let f := io.mkfile io.BytesIO (bytes_range 0 16) 0 in
  fst ((seek 5 SEEK_SET ;;; read (Some 1)) (view, f))
    = inr (Some (bytes_range 5 16)).
Proof. vm_compute. reflexivity. Qed.

(** C2, amended.  A [StreamRange] of length [L] starting at [s], at a
    view position [p] with [0 <= p <= L] and asked for [n] bytes, [n]
    omitted or not negative, hands over the bytes of the file from
    [s + p] up to [s + p + min(n, L - p)] (up to [s + L] when [n] is
    omitted), all within the window, and so does a [FileReader] on
    it, without raising.  The sub-reader of a [DataReader] holds a
    copy of the parent's bytes from [pos] up to [pos + L] and returns
    only bytes of that copy, but raises [EOFError] when asked for
    more than remain. *)
Theorem bounded_view_reads (f : io.file) (s L : Z) (n : option Z)
    (eof_flag : bool) (r v : DataReader.t) (k : Z) :
  let h := StreamRange Raw s (Some L) in
  let p := fh_tell h f in
  let m := match n with
           | Some j => Z.min j (L - p)
           | None => L - p
           end in
  0 <= s -> 0 <= p <= L ->
  match n with Some j => 0 <= j | None => True end ->
  (fst (fh_read h n f)
     = inr (py_slice (io.content f) (s + p) (s + p + m)) /\
   fst (FileReader.read n false (FileReader.mk h eof_flag, f))
     = (if eof_flag then inr None
        else inr (Some (py_slice (io.content f) (s + p) (s + p + m)))) /\
   s <= s + p <= s + p + m /\ s + p + m <= s + L) /\
  (DataReader.data (DataReader.subreader (Some L) r)
     = py_slice (DataReader.data r) (DataReader.pos r)
         (DataReader.pos r + L) /\
   fst (DataReader.read (Some k) v)
     = if DataReader._eof v || (k >? DataReader.remaining v)
       then inl EOFError
       else inr (py_slice (DataReader.data v) (DataReader.pos v)
                   (DataReader.pos v + k))).
Proof.
  intros h p m Hs Hp Hn.
  assert (Hm : 0 <= m <= L - p).
  { subst m. destruct n as [j|]; lia. }
  assert (Htell : io.tell f = s + p).
  { subst p h. unfold StreamRange. cbn [fh_tell]. lia. }
  assert (Hread : fh_read h n f
                  = (inr (py_slice (io.content f) (s + p) (s + p + m)),
                     io.set_fpos
                       (io.tell f
                        + len (py_slice (io.content f) (s + p) (s + p + m)))
                       f)).
  { subst h. unfold StreamRange. cbn [fh_read].
    assert (Hn' : match n with
                  | Some j =>
                      if j >? s + L - s - (fh_tell Raw f - s)
                      then s + L - s - (fh_tell Raw f - s) else j
                  | None => s + L - s - (fh_tell Raw f - s)
                  end = m).
    { subst m p. unfold StreamRange. cbn [fh_tell].
      destruct n as [j|]; [|lia].
      destruct (Z.gtb_spec j (s + L - s - (io.tell f - s))); lia. }
    rewrite Hn'. rewrite io_read_count by lia. cbv zeta.
    rewrite py_slice_segment by lia.
    replace (N.to_nat (io.fpos f)) with (Z.to_nat (s + p))
      by (rewrite <- Htell; unfold io.tell; lia).
    replace (s + p + m - (s + p)) with m by lia. reflexivity. }
  split; [|split; [reflexivity | apply DataReader_read_result]].
  split; [rewrite Hread; reflexivity|].
  split; [|lia].
  destruct eof_flag.
  - reflexivity.
  - rewrite FileReader_read_cases, Hread.
    destruct (finds_less n _); reflexivity.
Qed.

Lemma bounded_view_reads_witness :
  let f := io.mkfile io.BytesIO (bytes_range 0 16) 6 in
  let h := StreamRange Raw 4 (Some 4) in
  0 <= 4 /\ 0 <= fh_tell h f <= 4 /\ 0 <= 9 /\
  fst (fh_read h (Some 9) f) = inr (bytes_range 6 8) /\
  fst (FileReader.read (Some 9) false (FileReader.mk h false, f))
    = inr (Some (bytes_range 6 8)).
Proof.
  intros f h.
  assert (H1 : 0 <= 4) by lia.
  assert (H2 : 0 <= fh_tell h f <= 4) by (vm_compute; split; discriminate).
  assert (H3 : 0 <= 9) by lia.
  split; [exact H1|]. split; [exact H2|]. split; [exact H3|].
  pose proof (bounded_view_reads f 4 4 (Some 9) false
                (new_bytes []) (new_bytes []) 0 H1 H2 H3) as [[Ha [Hb _]] _].
  split; [exact Ha | exact Hb].
Defined.

(** ** The entry loop on a file *)

Lemma bind_inr {S A B} (m : M S A) (k : A -> M S B) (s s' : S) (b : B) :
  bind m k s = (inr b, s') ->
  exists a s1, m s = (inr a, s1) /\ k a s1 = (inr b, s').
Proof.
  unfold bind. destruct (m s) as [[e|a] s1]; [discriminate|]. eauto.
Qed.

Lemma le_value_nonneg (bs : bytes) : 0 <= Struct.le_value bs.
Proof. induction bs as [|b bs IH]; cbn [Struct.le_value]; lia. Qed.

Lemma unpack1_inr {S : Type} (fmt : string) e c (d : option bytes)
    (s s1 : S) (v : Z) :
  Struct.parse fmt = Some (e, [c]) ->
  unpack1 fmt d s = (inr v, s1) ->
  exists bs, d = Some bs /\ length bs = Struct.code_size c /\
             v = Struct.field_value e c bs /\ s1 = s.
Proof.
  intros Hp Hu. unfold unpack1, Struct.unpack in Hu. rewrite Hp in Hu.
  destruct d as [bs|]; [|discriminate].
  cbn [Struct.calcsize fold_right] in Hu. rewrite Nat.add_0_r in Hu.
  destruct (Nat.eqb_spec (length bs) (Struct.code_size c)) as [Hl|Hl];
    [|discriminate].
  cbn [Struct.fields] in Hu. rewrite <- Hl, firstn_all in Hu.
  unfold ret in Hu. injection Hu as <- <-. exists bs. auto.
Qed.

(** A [FileReader.read(k)] that returned [k > 0] bytes found the flag
    clear and moved the file on by [k]. *)
Lemma FileReader_read_exact (h : handle) (e : bool) (f : io.file) (k : Z)
    (bs : bytes) (s1 : FileReader.state) :
  0 < k ->
  FileReader.read (Some k) false (FileReader.mk h e, f)
    = (inr (Some bs), s1) ->
  len bs = k ->
  e = false /\
  s1 = (FileReader.mk h false, io.set_fpos (io.tell f + k) f).
Proof.
  intros Hk Hr Hl. destruct e.
  - unfold FileReader.read in Hr. cbn in Hr. discriminate.
  - split; [reflexivity|]. rewrite FileReader_read_cases in Hr.
    unfold finds_less in Hr. cbn [fst snd FileReader.fh] in Hr.
    pose proof (fh_read_state h (Some k) f) as Hst.
    destruct (fh_read h (Some k) f) as [[x|d] f']; [discriminate|].
    destruct (Z.ltb_spec 0 k); [|lia]. cbn [andb] in Hr.
    destruct (Z.ltb_spec (len d) k).
    + injection Hr as Hd _. subst d. lia.
    + injection Hr as Hd <-. subst d f'. rewrite Hl. reflexivity.
Qed.

Lemma FileReader_tell_advance (h : handle) (e e' : bool) (f : io.file)
    (k : Z) :
  0 <= k ->
  FileReader.tell (FileReader.mk h e', io.set_fpos (io.tell f + k) f)
    = FileReader.tell (FileReader.mk h e, f) + k.
Proof.
  intros Hk. unfold FileReader.tell. cbn [fst snd FileReader.fh].
  rewrite !fh_tell_base. pose proof (io_tell_nonneg f).
  rewrite io_tell_set_fpos by lia. lia.
Qed.

(** An unsigned integer helper that succeeds on a [FileReader]
    returns a number that is not negative and moves the position on
    by the width it reads. *)
Lemma FileReader_read_uint (fmt : string) (c : Struct.code) (k : Z)
    (s s1 : FileReader.state) (v : Z) :
  Struct.parse fmt = Some (Struct.LittleEndian, [c]) ->
  Struct.code_signed c = false ->
  Z.of_nat (Struct.code_size c) = k -> 0 < k ->
  (d <- read (Some k) ;; unpack1 fmt d) s = (inr v, s1) ->
  0 <= v /\ tell s1 = tell s + k /\ FileReader.fh (fst s1) = FileReader.fh (fst s).
Proof.
  intros Hp Hc Hsz Hk Hr.
  apply bind_inr in Hr as (d & s0 & Hread & Hu).
  apply (unpack1_inr fmt Struct.LittleEndian c) in Hu
    as (bs & -> & Hl & -> & ->); [|exact Hp].
  destruct s as [[h e] f]. cbn [read FileReader_BaseReader] in Hread.
  apply FileReader_read_exact in Hread as [-> ->];
    [|exact Hk | unfold len; lia].
  rewrite field_value_unsigned by exact Hc.
  split; [apply le_value_nonneg|]. split; [|reflexivity].
  cbn [tell FileReader_BaseReader].
  apply FileReader_tell_advance. lia.
Qed.

Lemma fh_seek_cur (h : handle) :
  forall ofs f,
    0 <= io.tell f + ofs ->
    fh_seek h ofs SEEK_CUR f
      = (inr (io.tell f + ofs - handle_base h),
         io.set_fpos (io.tell f + ofs) f).
Proof.
  induction h as [|fh IH start e]; intros ofs f Hp;
    cbn [fh_seek handle_base].
  - unfold io.seek, SEEK_CUR. cbn [Z.eqb Pos.eqb].
    destruct (Z.ltb_spec (io.tell f + ofs) 0); [lia|].
    rewrite Z.sub_0_r. reflexivity.
  - change (SEEK_CUR =? SEEK_SET) with false.
    change (SEEK_CUR =? SEEK_CUR) with true. cbv iota. unfold bind.
    rewrite IH by lia. unfold ret. do 2 f_equal. lia.
Qed.

Lemma FileReader_skip_advance (count : Z) (s s1 : FileReader.state) :
  0 <= count -> skip count s = (inr tt, s1) ->
  tell s1 = tell s + count /\ FileReader.fh (fst s1) = FileReader.fh (fst s).
Proof.
  intros Hc Hs. destruct s as [[h e] f].
  unfold skip, bind in Hs. cbn [seek FileReader_BaseReader] in Hs.
  unfold FileReader.seek, bind, FileReader.set_eof, modify,
    FileReader.on_file in Hs.
  cbn [fst snd FileReader.fh] in Hs. pose proof (io_tell_nonneg f).
  rewrite fh_seek_cur in Hs by lia. unfold ret in Hs.
  injection Hs as <-. split; [|reflexivity].
  cbn [tell FileReader_BaseReader]. apply FileReader_tell_advance. exact Hc.
Qed.

(** An entry decoded from a [FileReader] records the position six
    bytes after its start, and leaves the reader past its two length
    and type fields, its payload and its checksum. *)
Lemma BsufEntry_advance (s s' : FileReader.state)
    (ent : @BsufEntry FileReader.t) :
  BsufEntry__init__ s = (inr ent, s') ->
  ent_ofs ent = tell s + 6 /\ 0 <= ent_size ent /\
  tell s' = tell s + 8 + ent_size ent.
Proof.
  intros He. unfold BsufEntry__init__ in He.
  apply bind_inr in He as (size & s1 & H1 & He).
  apply bind_inr in He as (type & s2 & H2 & He).
  apply bind_inr in He as (ofs & s2' & H3 & He).
  injection H3 as <- <-.
  apply bind_inr in He as (fh & s2' & H4 & He).
  cbn [subreader FileReader_BaseReader] in H4.
  unfold FileReader.subreader in H4. injection H4 as <- <-.
  apply bind_inr in He as ([] & s3 & H5 & He).
  apply bind_inr in He as (cks & s4 & H6 & He).
  unfold ret in He. injection He as <- <-. cbn [ent_ofs ent_size].
  apply (FileReader_read_uint "<L" Struct.c_L 4) in H1 as (Hsz & Ht1 & _);
    [|reflexivity..|lia].
  apply (FileReader_read_uint "<H" Struct.c_H 2) in H2 as (_ & Ht2 & _);
    [|reflexivity..|lia].
  apply FileReader_skip_advance in H5 as (Ht3 & _); [|exact Hsz].
  apply (FileReader_read_uint "<H" Struct.c_H 2) in H6 as (_ & Ht4 & _);
    [|reflexivity..|lia].
  change (FileReader.tell s2) with (tell s2). lia.
Qed.

(** On a [FileReader] the loop always ends: fuel for the distance to
    the bound is enough, since every entry moves the position on. *)
Lemma entries_loop_total (fuel : nat) :
  forall (bound : Z) acc (s : FileReader.state),
    (Z.to_nat (bound - tell s) <= fuel)%nat ->
    exists r, entries_loop fuel bound acc s = Some r.
Proof.
  induction fuel as [|fuel IH]; intros bound acc s Hf.
  - rewrite entries_loop_exit by lia. eauto.
  - cbn [entries_loop]. destruct (Z.ltb_spec (tell s) bound); [|eauto].
    destruct (BsufEntry__init__ s) as [[e|ent] s1] eqn:E; [eauto|].
    apply BsufEntry_advance in E as (_ & Hsz & Ht).
    apply IH. lia.
Qed.

Lemma BsufFile__init___total (s : FileReader.state) :
  exists fuel r, BsufFile__init__ fuel s = Some r.
Proof.
  unfold BsufFile__init__.
  destruct (BsufFile_header s) as [[e|[v fsz]] s1].
  - exists 0%nat. eauto.
  - destruct (entries_loop_total (Z.to_nat (fsz + 16 - tell s1))
                (fsz + 16) [] s1 (Nat.le_refl _)) as [[[e|ents] s2] Hr].
    + exists (Z.to_nat (fsz + 16 - tell s1)). rewrite Hr. eauto.
    + exists (Z.to_nat (fsz + 16 - tell s1)). rewrite Hr. eauto.
Qed.

Lemma loop_run_offsets (bound : Z) (s s' : FileReader.state) ents :
  loop_run bound s ents s' ->
  Forall (fun ent => ent_ofs ent - 6 < bound) ents.
Proof.
  induction 1 as [s Hge | s s1 s' ent ents Hlt Hent Hrun IH];
    constructor; [|exact IH].
  apply BsufEntry_advance in Hent as (Ho & _). lia.
Qed.

(** C4: when the constructor succeeds, every entry was decoded from
    a position strictly below [declared_size + 0x10], one after the
    other, the loop was left at the first position at or past that
    bound however many bytes follow in the file, and then exactly one
    16-bit value, the file checksum, was read there. *)
Theorem entries_decoded_below_bound (fuel : nat) (s s' : FileReader.state)
    (f : @BsufFile FileReader.t) :
  BsufFile__init__ fuel s = Some (inr f, s') ->
  exists (declared_size : Z) (s1 s2 : FileReader.state),
    BsufFile_header s = (inr (version f, declared_size), s1) /\
    loop_run (declared_size + 0x10) s1 (entries f) s2 /\
    Forall (fun ent => ent_ofs ent - 6 < declared_size + 0x10) (entries f) /\
    declared_size + 0x10 <= tell s2 /\
    read16le s2 = (inr (filechecksum f), s') /\
    tell s' = tell s2 + 2.
Proof.
  unfold BsufFile__init__. intros Hf.
  destruct (BsufFile_header s) as [[e|[v fsz]] s1] eqn:Hh; [discriminate|].
  destruct (entries_loop fuel (fsz + 0x10) [] s1) as [[[e|ents] s2]|] eqn:Hl;
    try discriminate.
  injection Hf as Hf.
  apply entries_loop_run in Hl as (new & -> & Hrun). cbn [app] in *.
  apply bind_inr in Hf as (cks & s3 & Hc & Hf).
  unfold ret in Hf. injection Hf as <- <-. cbn [version entries filechecksum].
  exists fsz, s1, s2. split; [reflexivity|]. split; [exact Hrun|].
  split; [eapply loop_run_offsets; exact Hrun|].
  split; [eapply loop_run_exit; exact Hrun|].
  split; [exact Hc|].
  apply (FileReader_read_uint "<H" Struct.c_H 2) in Hc as (_ & Ht & _);
    [exact Ht | reflexivity.. | lia].
Qed.

(** A file that goes on after its declared size: one entry is
    decoded, the checksum is the value at the bound, and the entry
    behind it is never looked at. *)
Lemma entries_decoded_below_bound_witness :
  exists f s',
    BsufFile__init__ 5 (file_of io.OSFile oversized_file)
      = Some (inr f, s') /\
    length (entries f) = 1%nat /\ filechecksum f = 0xBEEF /\
    tell s' = 32 /\ len oversized_file = 48 /\
    exists (declared_size : Z) (s1 s2 : FileReader.state),
      BsufFile_header (file_of io.OSFile oversized_file)
        = (inr (version f, declared_size), s1) /\
      loop_run (declared_size + 0x10) s1 (entries f) s2 /\
      Forall (fun ent => ent_ofs ent - 6 < declared_size + 0x10) (entries f) /\
      declared_size + 0x10 <= tell s2 /\
      read16le s2 = (inr (filechecksum f), s') /\
      tell s' = tell s2 + 2.
Proof.
  destruct (BsufFile__init__ 5 (file_of io.OSFile oversized_file))
    as [[[e|f] s']|] eqn:E.
  - vm_compute in E. discriminate.
  - exists f, s'. split; [reflexivity|].
    pose proof (entries_decoded_below_bound 5 _ _ _ E) as Hthm.
    vm_compute in E. injection E as <- <-.
    split; [reflexivity|]. split; [reflexivity|]. split; [reflexivity|].
    split; [reflexivity|]. exact Hthm.
  - vm_compute in E. discriminate.
Defined.

(** ** Exact reads *)

(** [DataReader.read(k)] returns exactly [k] bytes, or raises
    [EOFError] with the flag set and the position where it was. *)
Lemma DataReader_read_exact_or_EOFError (k : Z) (r : DataReader.t) :
  0 <= k -> 0 <= DataReader.pos r ->
  match DataReader.read (Some k) r with
  | (inr d, r') => len d = k /\ DataReader.pos r' = DataReader.pos r + k
  | (inl e, r') =>
      e = EOFError /\ DataReader._eof r' = true /\
      DataReader.pos r' = DataReader.pos r
  end.
Proof.
  intros Hk Hp. unfold DataReader.read.
  destruct (DataReader._eof r) eqn:He; [auto|].
  destruct (Z.gtb_spec (DataReader.pos r + k) (len (DataReader.data r)));
    cbn [DataReader.data DataReader.pos DataReader._eof]; [auto|].
  split; [|reflexivity]. rewrite len_py_slice by lia. lia.
Qed.

(** So does [FileReader.read(k, throw=True)] on a file object. *)
Lemma FileReader_read_throw_exact_or_EOFError (k : Z) (e : bool)
    (f : io.file) :
  0 <= k ->
  match FileReader.read (Some k) true (FileReader.mk Raw e, f) with
  | (inr d, s') =>
      exists bs, d = Some bs /\ len bs = k /\
                 FileReader.tell s' = io.tell f + k
  | (inl x, s') =>
      x = EOFError /\ FileReader.eof s' = true /\
      FileReader.tell s' = io.tell f
  end.
Proof.
  intros Hk. destruct e.
  - unfold FileReader.read, FileReader.eof, FileReader.tell.
    cbn [fst snd FileReader._eof FileReader.fh fh_tell raise]. auto.
  - rewrite FileReader_read_cases. unfold finds_less.
    cbn [fst snd FileReader.fh fh_read]. rewrite io_read_count by exact Hk.
    cbv zeta.
    set (d := firstn (Z.to_nat k) (skipn (N.to_nat (io.fpos f)) (io.content f))).
    assert (Hd : len d <= k) by (subst d; rewrite len_firstn; lia).
    pose proof (len_nonneg d) as Hd0. pose proof (io_tell_nonneg f) as Hf.
    destruct (Z.ltb_spec 0 k) as [Hp|Hp]; cbn [andb].
    + destruct (Z.ltb_spec (len d) k) as [Hs|Hs].
      * unfold FileReader.eof, FileReader.tell.
        cbn [fst snd FileReader._eof FileReader.fh fh_tell]. auto.
      * exists d. unfold FileReader.tell. cbn [fst snd FileReader.fh fh_tell].
        rewrite io_tell_set_fpos by lia. repeat split; lia.
    + exists d. unfold FileReader.tell. cbn [fst snd FileReader.fh fh_tell].
      rewrite io_tell_set_fpos by lia. repeat split; lia.
Qed.

(** With [throw] left at its default a short [FileReader.read] raises
    nothing: it hands over the bytes there are. *)
Lemma FileReader_read_short_returns (k : Z) (f : io.file) :
  available f < k ->
  exists bs,
    FileReader.read (Some k) false (FileReader.mk Raw false, f)
      = (inr (Some bs), (FileReader.mk Raw true, f)) /\
    len bs = available f.
Proof.
  intros Hk. rewrite FileReader_read_cases.
  rewrite finds_less_on_file. unfold asks_beyond_file. cbn [snd].
  destruct (Z.gtb_spec k (available f)); [|lia].
  unfold available in *. cbn [fh_read].
  rewrite io_read_count by lia. cbv zeta. eexists. split; [reflexivity|].
  unfold len, io.tell in *. rewrite length_firstn, length_skipn. lia.
Qed.

(** ** A [DataReader] never gets through the header *)

Lemma DataReader_header_fails (s : DataReader.t) :
  exists e s1, BsufFile_header s = (inl e, s1).
Proof.
  unfold BsufFile_header, bind.
  destruct (read64le s) as [[e|m] s1]; [eauto|].
  destruct (negb (m =? 0x663919145fab6655)); [unfold raise; eauto|].
  destruct (read32le s1) as [[e|v] s2]; [eauto|].
  destruct (read32le s2) as [[e|fsz] s3]; [eauto|].
  cbn [size DataReader_BaseReader]. unfold raise. eauto.
Qed.

(** * Further properties of the readers *)

Lemma py_slice_split {A} (l : list A) (p a b : Z) :
  0 <= p -> 0 <= a -> 0 <= b ->
  py_slice l p (p + a) ++ py_slice l (p + a) (p + a + b)
    = py_slice l p (p + a + b).
Proof.
  intros Hp Ha Hb. rewrite !py_slice_segment by lia.
  replace (p + a - p) with a by lia.
  replace (p + a + b - (p + a)) with b by lia.
  replace (p + a + b - p) with (a + b) by lia.
  rewrite (Z2Nat.inj_add a b), (Z2Nat.inj_add p a) by lia.
  rewrite <- drop_drop. apply take_take_drop.
Qed.

(** X1: a [DataReader.read(k)] with [k >= 0] at a position that is
    not negative either returns exactly the [k] bytes at the position
    and moves on by [k], or raises [EOFError], sets the flag and stays
    where it was; the data is the same afterwards. *)
Theorem DataReader_read_exact (k : Z) (r : DataReader.t) :
  0 <= k -> 0 <= DataReader.pos r ->
  match DataReader.read (Some k) r with
  | (inr d, r') =>
      d = py_slice (DataReader.data r) (DataReader.pos r)
            (DataReader.pos r + k) /\
      len d = k /\ DataReader.pos r' = DataReader.pos r + k /\
      DataReader._eof r' = false /\ DataReader.data r' = DataReader.data r
  | (inl e, r') =>
      e = EOFError /\ DataReader._eof r' = true /\
      DataReader.pos r' = DataReader.pos r /\
      DataReader.data r' = DataReader.data r
  end.
Proof.
  intros Hk Hp. unfold DataReader.read.
  destruct (DataReader._eof r) eqn:He; [auto|].
  destruct (Z.gtb_spec (DataReader.pos r + k) (len (DataReader.data r)));
    cbn [DataReader.data DataReader.pos DataReader._eof]; [auto|].
  replace (DataReader.pos r + k - k) with (DataReader.pos r) by lia.
  rewrite len_py_slice by lia. repeat split; (reflexivity || lia || auto).
Qed.

Lemma DataReader_read_exact_witness :
  let r := new_bytes (bytes_range 0 16) in
  0 <= 4 /\ 0 <= DataReader.pos r /\
  match DataReader.read (Some 4) r with
  | (inr d, r') =>
      d = py_slice (DataReader.data r) (DataReader.pos r)
            (DataReader.pos r + 4) /\
      len d = 4 /\ DataReader.pos r' = DataReader.pos r + 4 /\
      DataReader._eof r' = false /\ DataReader.data r' = DataReader.data r
  | (inl e, r') =>
      e = EOFError /\ DataReader._eof r' = true /\
      DataReader.pos r' = DataReader.pos r /\
      DataReader.data r' = DataReader.data r
  end.
Proof.
  intros r.
  assert (H1 : 0 <= 4) by lia.
  assert (H2 : 0 <= DataReader.pos r) by (cbn; lia).
  split; [exact H1|]. split; [exact H2|].
  exact (DataReader_read_exact 4 r H1 H2).
Defined.

(** The bytes a file object holds from its position on, cut at [k]. *)
Lemma io_read_slice (f : io.file) (k : Z) :
  0 <= k ->
  firstn (Z.to_nat k) (skipn (N.to_nat (io.fpos f)) (io.content f))
    = py_slice (io.content f) (io.tell f) (io.tell f + k).
Proof.
  intros Hk. pose proof (io_tell_nonneg f).
  rewrite py_slice_segment by lia.
  replace (io.tell f + k - io.tell f) with k by lia.
  unfold io.tell. f_equal. f_equal. lia.
Qed.

(** X2: on a file object, [FileReader.read(k, throw=True)] with
    [k >= 0] either returns exactly the [k] bytes at the position and
    moves on by [k], or raises [EOFError] with the flag set and the
    file where it was. *)
Theorem FileReader_read_throw_exact (k : Z) (e : bool) (f : io.file) :
  0 <= k ->
  match FileReader.read (Some k) true (FileReader.mk Raw e, f) with
  | (inr d, s') =>
      d = Some (py_slice (io.content f) (io.tell f) (io.tell f + k)) /\
      len (py_slice (io.content f) (io.tell f) (io.tell f + k)) = k /\
      FileReader.tell s' = io.tell f + k /\ FileReader.eof s' = false
  | (inl x, s') =>
      x = EOFError /\ s' = (FileReader.mk Raw true, f)
  end.
Proof.
  intros Hk. destruct e.
  - unfold FileReader.read. cbn [fst snd FileReader._eof raise]. auto.
  - rewrite FileReader_read_cases. unfold finds_less.
    cbn [fst snd FileReader.fh fh_read]. rewrite io_read_count by exact Hk.
    cbv zeta. rewrite io_read_slice by exact Hk.
    set (d := py_slice (io.content f) (io.tell f) (io.tell f + k)).
    assert (Hd : len d <= k).
    { subst d. rewrite <- io_read_slice by exact Hk. rewrite len_firstn. lia. }
    pose proof (len_nonneg d) as Hd0. pose proof (io_tell_nonneg f) as Hf.
    assert (Hfull : k <= len d ->
              FileReader.tell
                (FileReader.mk Raw false, io.set_fpos (io.tell f + len d) f)
              = io.tell f + k).
    { intros Hge. unfold FileReader.tell. cbn [fst snd FileReader.fh fh_tell].
      rewrite io_tell_set_fpos by lia. lia. }
    destruct (Z.ltb_spec 0 k) as [Hp|Hp]; cbn [andb].
    + destruct (Z.ltb_spec (len d) k) as [Hs|Hs]; [auto|].
      repeat split; [lia | apply Hfull; lia].
    + repeat split; [lia | apply Hfull; lia].
Qed.

Lemma FileReader_read_throw_exact_witness :
  let f := io.mkfile io.BytesIO (bytes_range 0 16) 14 in
  0 <= 4 /\
  FileReader.read (Some 4) true (FileReader.mk Raw false, f)
    = (inl EOFError, (FileReader.mk Raw true, f)).
Proof.
  intros f. assert (H1 : 0 <= 4) by lia. split; [exact H1|].
  pose proof (FileReader_read_throw_exact 4 false f H1) as H.
  destruct (FileReader.read (Some 4) true (FileReader.mk Raw false, f))
    as [[x|d] s'] eqn:E.
  - destruct H as [-> ->]. reflexivity.
  - exfalso. vm_compute in E. discriminate.
Defined.

Lemma py_slice_from_skipn {A} (l : list A) (p : Z) :
  0 <= p -> py_slice_from l p = skipn (Z.to_nat p) l.
Proof.
  intros Hp. unfold py_slice_from, slice_bound.
  destruct (Z.ltb_spec p 0); [lia|].
  destruct (Z.le_gt_cases p (len l)) as [Hle|Hgt].
  - rewrite Z.min_l by lia. reflexivity.
  - rewrite Z.min_r by lia. unfold len in *.
    rewrite !skipn_all2 by lia. reflexivity.
Qed.

(** X3: with [throw] left out, a [FileReader.read(k)] that asks a
    file object for more than it still holds returns the bytes there
    are, leaves the file where it was and sets the flag; every read
    after that returns [None] and touches nothing. *)
Theorem FileReader_short_read_default (k : Z) (f : io.file) (n : option Z) :
  available f < k ->
  FileReader.read (Some k) false (FileReader.mk Raw false, f)
    = (inr (Some (py_slice_from (io.content f) (io.tell f))),
       (FileReader.mk Raw true, f)) /\
  len (py_slice_from (io.content f) (io.tell f)) = available f /\
  FileReader.read n false (FileReader.mk Raw true, f)
    = (inr None, (FileReader.mk Raw true, f)).
Proof.
  intros Hk. pose proof (io_tell_nonneg f) as Hf.
  rewrite py_slice_from_skipn by lia.
  assert (Hlen : len (skipn (Z.to_nat (io.tell f)) (io.content f))
                 = available f).
  { unfold available. rewrite len_skipn. lia. }
  split; [|split; [exact Hlen | reflexivity]].
  rewrite FileReader_read_cases.
  rewrite finds_less_on_file. unfold asks_beyond_file. cbn [snd].
  destruct (Z.gtb_spec k (available f)); [|lia].
  cbn [fh_read]. rewrite io_read_count by (unfold available in *; lia).
  cbv zeta. do 3 f_equal.
  replace (N.to_nat (io.fpos f)) with (Z.to_nat (io.tell f))
    by (unfold io.tell; lia).
  apply firstn_all2. unfold len in Hlen. lia.
Qed.

Lemma FileReader_short_read_default_witness :
  let f := io.mkfile io.BytesIO (bytes_range 0 16) 14 in
  available f < 4 /\
  FileReader.read (Some 4) false (FileReader.mk Raw false, f)
    = (inr (Some (bytes_range 14 16)), (FileReader.mk Raw true, f)).
Proof.
  intros f.
  assert (H1 : available f < 4) by (vm_compute; reflexivity).
  split; [exact H1|].
  exact (proj1 (FileReader_short_read_default 4 f None H1)).
Defined.

Lemma DataReader_seek_set (p : Z) (r : DataReader.t) :
  0 <= p ->
  DataReader.seek p SEEK_SET r
    = (inr p, DataReader.mk (DataReader.data r) p false).
Proof.
  intros Hp. unfold DataReader.seek, SEEK_SET. cbn [Z.eqb].
  cbn [DataReader.data DataReader.pos DataReader._eof].
  destruct (Z.ltb_spec p 0); [lia | reflexivity].
Qed.

(** X4: [seek(p)] followed by [read(k)] returns the bytes from [p] up
    to [p + k] whenever they are there, whatever the position and the
    flag were before, on a [DataReader] and on a [FileReader] over a
    file object. *)
Theorem seek_then_read (p k : Z) (r : DataReader.t) (e : bool)
    (f : io.file) :
  0 <= p -> 0 <= k ->
  p + k <= len (DataReader.data r) -> p + k <= len (io.content f) ->
  (seek p SEEK_SET ;;; read (Some k)) r
    = (inr (Some (py_slice (DataReader.data r) p (p + k))),
       DataReader.mk (DataReader.data r) (p + k) false) /\
  (seek p SEEK_SET ;;; read (Some k)) (FileReader.mk Raw e, f)
    = (inr (Some (py_slice (io.content f) p (p + k))),
       (FileReader.mk Raw false, io.set_fpos (p + k) f)).
Proof.
  intros Hp Hk Hlr Hl. split.
  - unfold bind. cbn [seek read DataReader_BaseReader].
    rewrite DataReader_seek_set by exact Hp. unfold bind.
    rewrite DataReader_read_within
      by (cbn [DataReader.data DataReader.pos DataReader._eof];
          (reflexivity || lia)).
    reflexivity.
  - unfold bind at 1. cbn [seek read FileReader_BaseReader].
    unfold FileReader.seek, bind, FileReader.set_eof, modify,
      FileReader.on_file.
    cbn [fst snd FileReader.fh fh_seek]. rewrite io_seek_set by exact Hp.
    assert (Hd : len (py_slice (io.content f) p (p + k)) = k)
      by (rewrite len_py_slice; lia).
    assert (Hread : fh_read Raw (Some k) (io.set_fpos p f)
                    = (inr (py_slice (io.content f) p (p + k)),
                       io.set_fpos (p + k) f)).
    { cbn [fh_read]. rewrite io_read_count by exact Hk. cbv zeta.
      rewrite io_read_slice by exact Hk.
      rewrite io_tell_set_fpos by exact Hp.
      cbn [io.content io.set_fpos]. rewrite Hd. reflexivity. }
    rewrite (FileReader_read_full _ _ _ _ _ false Hread Hd). reflexivity.
Qed.

Lemma seek_then_read_witness :
  let r := DataReader.mk (bytes_range 0 16) 16 true in
  let f := io.mkfile io.OSFile (bytes_range 0 16) 9 in
  0 <= 2 /\ 0 <= 3 /\ 2 + 3 <= len (DataReader.data r) /\
  2 + 3 <= len (io.content f) /\
  (seek 2 SEEK_SET ;;; read (Some 3)) r
    = (inr (Some (bytes_range 2 5)),
       DataReader.mk (bytes_range 0 16) 5 false) /\
  (seek 2 SEEK_SET ;;; read (Some 3)) (FileReader.mk Raw true, f)
    = (inr (Some (bytes_range 2 5)),
       (FileReader.mk Raw false, io.set_fpos 5 f)).
Proof.
  intros r f.
  assert (H1 : 0 <= 2) by lia. assert (H2 : 0 <= 3) by lia.
  assert (H3 : 2 + 3 <= len (DataReader.data r)) by (vm_compute; discriminate).
  assert (H4 : 2 + 3 <= len (io.content f)) by (vm_compute; discriminate).
  split; [exact H1|]. split; [exact H2|]. split; [exact H3|].
  split; [exact H4|].
  exact (seek_then_read 2 3 r true f H1 H2 H3 H4).
Defined.

(** X5: two reads in a row return, put together, what one read of the
    sum returns, and leave the same reader, when the bytes are
    there. *)
Theorem DataReader_reads_compose (a b : Z) (r : DataReader.t) :
  0 <= a -> 0 <= b -> 0 <= DataReader.pos r ->
  DataReader._eof r = false ->
  DataReader.pos r + a + b <= len (DataReader.data r) ->
  (d1 <- DataReader.read (Some a) ;;
   d2 <- DataReader.read (Some b) ;;
   ret (d1 ++ d2)) r
  = DataReader.read (Some (a + b)) r.
Proof.
  intros Ha Hb Hp He Hl. unfold bind.
  rewrite DataReader_read_within by (assumption || lia).
  rewrite DataReader_read_within by (cbn; (reflexivity || lia)).
  rewrite DataReader_read_within by (assumption || lia).
  cbn [DataReader.data DataReader.pos]. unfold ret.
  rewrite py_slice_split by lia.
  rewrite !Z.add_assoc. reflexivity.
Qed.

Lemma DataReader_reads_compose_witness :
  let r := new_bytes (bytes_range 0 16) in
  0 <= 3 /\ 0 <= 4 /\ 0 <= DataReader.pos r /\
  DataReader._eof r = false /\
  DataReader.pos r + 3 + 4 <= len (DataReader.data r) /\
  (d1 <- DataReader.read (Some 3) ;;
   d2 <- DataReader.read (Some 4) ;;
   ret (d1 ++ d2)) r
  = DataReader.read (Some (3 + 4)) r.
Proof.
  intros r.
  assert (H1 : 0 <= 3) by lia. assert (H2 : 0 <= 4) by lia.
  assert (H3 : 0 <= DataReader.pos r) by (cbn; lia).
  assert (H4 : DataReader._eof r = false) by reflexivity.
  assert (H5 : DataReader.pos r + 3 + 4 <= len (DataReader.data r))
    by (vm_compute; discriminate).
  repeat (split; [assumption|]).
  exact (DataReader_reads_compose 3 4 r H1 H2 H3 H4 H5).
Defined.

(** X6: the sub-reader of a [FileReader] starts at its own position
    0, which is the parent's position at that moment; [seek(p)] on it
    returns [p] and puts the file [p] bytes after that position, and
    made with a length [L] its [seek(0, SEEK_END)] returns [L]. *)
Theorem FileReader_subreader_coordinates (h : handle) (e : bool)
    (f : io.file) (n : option Z) (p L : Z) :
  0 <= io.tell f + p -> 0 <= io.tell f + L ->
  let sub := FileReader.__init__ (StreamRange h (fh_tell h f) n) in
  let subL := FileReader.__init__ (StreamRange h (fh_tell h f) (Some L)) in
  FileReader.subreader n (FileReader.mk h e, f)
    = (inr sub, (FileReader.mk h e, f)) /\
  FileReader.tell (sub, f) = 0 /\
  FileReader.seek p SEEK_SET (sub, f)
    = (inr p, (sub, io.set_fpos (io.tell f + p) f)) /\
  FileReader.seek 0 SEEK_END (subL, f)
    = (inr L, (subL, io.set_fpos (io.tell f + L) f)).
Proof.
  intros Hp HL sub subL. split; [reflexivity|]. split.
  { unfold FileReader.tell. subst sub. cbn. lia. }
  assert (Hset : forall q, 0 <= io.tell f + q ->
            fh_seek h (fh_tell h f + q) SEEK_SET f
            = (inr (fh_tell h f + q), io.set_fpos (io.tell f + q) f)).
  { intros q Hq. rewrite fh_seek_set by (rewrite fh_tell_base; lia).
    rewrite fh_tell_base.
    replace (handle_base h + (io.tell f - handle_base h + q))
      with (io.tell f + q) by lia. reflexivity. }
  split.
  - unfold FileReader.seek, bind, FileReader.set_eof, modify,
      FileReader.on_file. subst sub. unfold StreamRange.
    cbn [fst snd FileReader.fh FileReader.__init__ fh_seek].
    change (SEEK_SET =? SEEK_SET) with true. cbv iota. unfold bind.
    rewrite Hset by exact Hp. unfold ret. do 2 f_equal. lia.
  - unfold FileReader.seek, bind, FileReader.set_eof, modify,
      FileReader.on_file. subst subL. unfold StreamRange.
    cbn [fst snd FileReader.fh FileReader.__init__ fh_seek].
    change (SEEK_END =? SEEK_SET) with false.
    change (SEEK_END =? SEEK_CUR) with false.
    change (SEEK_END =? SEEK_END) with true. cbv iota. unfold bind.
    rewrite Z.add_0_r. rewrite Hset by exact HL. unfold ret.
    do 2 f_equal. lia.
Qed.

Lemma FileReader_subreader_coordinates_witness :
  let f := io.mkfile io.OSFile (bytes_range 0 16) 4 in
  let sub := FileReader.__init__ (StreamRange Raw 4 (Some 8)) in
  0 <= io.tell f + 3 /\ 0 <= io.tell f + 8 /\
  FileReader.tell (sub, f) = 0 /\
  FileReader.seek 3 SEEK_SET (sub, f)
    = (inr 3, (sub, io.set_fpos 7 f)) /\
  FileReader.seek 0 SEEK_END (sub, f)
    = (inr 8, (sub, io.set_fpos 12 f)).
Proof.
  intros f sub.
  assert (H1 : 0 <= io.tell f + 3) by (vm_compute; discriminate).
  assert (H2 : 0 <= io.tell f + 8) by (vm_compute; discriminate).
  split; [exact H1|]. split; [exact H2|].
  exact (proj2 (FileReader_subreader_coordinates Raw false f (Some 8) 3 8
                  H1 H2)).
Defined.

(** X7: a [FileReader] and its sub-reader move one and the same file:
    a read through the sub-reader that is not short advances the
    parent's position by the number of bytes returned. *)
Theorem FileReader_subreader_shares_position (h : handle) (e : bool)
    (f f' : io.file) (n k : option Z) (d : bytes) (sub' : FileReader.t) :
  let sub := FileReader.__init__ (StreamRange h (fh_tell h f) n) in
  FileReader.read k false (sub, f) = (inr (Some d), (sub', f')) ->
  FileReader._eof sub' = false ->
  FileReader.tell (FileReader.mk h e, f')
    = FileReader.tell (FileReader.mk h e, f) + len d /\
  io.content f' = io.content f.
Proof.
  intros sub Hr He. subst sub. unfold FileReader.__init__ in Hr.
  rewrite FileReader_read_cases in Hr.
  pose proof (fh_read_state (StreamRange h (fh_tell h f) n) k f) as Hst.
  destruct (fh_read (StreamRange h (fh_tell h f) n) k f) as [[x|d0] f0];
    [discriminate|].
  destruct (finds_less k _).
  - injection Hr as _ <- _. discriminate.
  - injection Hr as <- _ <-. subst f0.
    unfold FileReader.tell. cbn [fst snd FileReader.fh].
    rewrite !fh_tell_base. pose proof (io_tell_nonneg f).
    pose proof (len_nonneg d0).
    rewrite io_tell_set_fpos by lia. split; [lia | reflexivity].
Qed.

Lemma FileReader_subreader_shares_position_witness :
  let f := io.mkfile io.BytesIO (bytes_range 0 16) 4 in
  let f' := io.mkfile io.BytesIO (bytes_range 0 16) 7 in
  let sub := FileReader.__init__ (StreamRange Raw 4 (Some 8)) in
  FileReader.read (Some 3) false (sub, f)
    = (inr (Some (bytes_range 4 7)), (sub, f')) /\
  FileReader._eof sub = false /\
  FileReader.tell (FileReader.mk Raw false, f')
    = FileReader.tell (FileReader.mk Raw false, f) + len (bytes_range 4 7).
Proof.
  intros f f' sub.
  assert (H1 : FileReader.read (Some 3) false (sub, f)
               = (inr (Some (bytes_range 4 7)), (sub, f')))
    by (vm_compute; reflexivity).
  assert (H2 : FileReader._eof sub = false) by reflexivity.
  split; [exact H1|]. split; [exact H2|].
  exact (proj1 (FileReader_subreader_shares_position Raw false f f'
                  (Some 8) (Some 3) (bytes_range 4 7) sub H1 H2)).
Defined.

Lemma firstn_1_skipn {A} (d : A) (l : list A) :
  forall n, (n < length l)%nat -> firstn 1 (skipn n l) = [nth n l d].
Proof.
  induction l as [|x l IH]; intros n Hn; [cbn in Hn; lia|].
  destruct n as [|n]; [reflexivity|]. cbn in *. apply IH. lia.
Qed.

(** X8: [DataReader.readbyte()] does what [read(1)] does: it fails
    when and as [read(1)] fails, and otherwise returns the one byte
    [read(1)] returns, as a number, and leaves the same reader. *)
Theorem DataReader_readbyte_is_read1 (r : DataReader.t) :
  0 <= DataReader.pos r ->
  match DataReader.read (Some 1) r with
  | (inr d, r') =>
      exists b, d = [b] /\
                DataReader.readbyte r = (inr (Z.of_N (Byte.to_N b)), r')
  | (inl e, r') => DataReader.readbyte r = (inl e, r')
  end.
Proof.
  intros Hp. unfold DataReader.read, DataReader.readbyte.
  destruct (DataReader._eof r) eqn:He; [reflexivity|].
  destruct (Z.gtb_spec (DataReader.pos r + 1) (len (DataReader.data r)));
    destruct (Z.leb_spec (len (DataReader.data r)) (DataReader.pos r));
    try lia; [reflexivity|].
  cbn [DataReader.data DataReader.pos DataReader._eof].
  replace (DataReader.pos r + 1 - 1) with (DataReader.pos r) by lia.
  exists (nth (Z.to_nat (DataReader.pos r)) (DataReader.data r) x00).
  rewrite py_slice_segment by lia.
  replace (DataReader.pos r + 1 - DataReader.pos r) with 1 by lia.
  change (Z.to_nat 1) with 1%nat.
  rewrite (firstn_1_skipn x00) by (unfold len in *; lia).
  split; [reflexivity|]. unfold py_index.
  assert (Hn : (DataReader.pos r <? 0) = false) by (apply Z.ltb_ge; lia).
  assert (Hm : (len (DataReader.data r) <=? DataReader.pos r) = false)
    by (apply Z.leb_gt; lia).
  rewrite Hn. cbv iota. rewrite Hn, Hm. reflexivity.
Qed.

Lemma DataReader_readbyte_is_read1_witness :
  let r := DataReader.mk (bytes_range 0 16) 5 false in
  0 <= DataReader.pos r /\
  DataReader.readbyte r = (inr 5, DataReader.mk (bytes_range 0 16) 6 false).
Proof.
  intros r. assert (H1 : 0 <= DataReader.pos r) by (cbn; lia).
  split; [exact H1|].
  pose proof (DataReader_readbyte_is_read1 r H1) as H.
  destruct (DataReader.read (Some 1) r) as [[e|d] r'] eqn:E.
  - exfalso. vm_compute in E. discriminate.
  - destruct H as (b & -> & ->). vm_compute in E.
    injection E as <- <-. reflexivity.
Defined.

(** A call with no negative read count keeps the bytes of a
    [DataReader] and leaves its position at or above 0. *)
Lemma DataReader_do_op_keeps (o : op) (r : DataReader.t) :
  0 <= DataReader.pos r ->
  match o with OpRead (Some k) => 0 <= k | _ => True end ->
  DataReader.data (snd (do_op o r)) = DataReader.data r /\
  0 <= DataReader.pos (snd (do_op o r)).
Proof.
  intros Hp Ho. destruct o as [n|p w]; cbn [do_op]; unfold bind.
  - cbn [read DataReader_BaseReader]. unfold bind, DataReader.read.
    destruct (DataReader._eof r); [auto|].
    pose proof (len_nonneg (DataReader.data r)).
    destruct n as [k|].
    + destruct (Z.gtb_spec (DataReader.pos r + k) (len (DataReader.data r)));
        cbn; split; (reflexivity || lia).
    + destruct (Z.gtb_spec
                  (DataReader.pos r
                   + (len (DataReader.data r) - DataReader.pos r))
                  (len (DataReader.data r))); cbn; split;
        (reflexivity || lia).
  - cbn [seek DataReader_BaseReader]. unfold DataReader.seek.
    cbn [DataReader.data DataReader.pos DataReader._eof].
    match goal with |- context [if ?c <? 0 then _ else _] =>
      destruct (Z.ltb_spec c 0) end; cbn; split; (reflexivity || lia).
Qed.

(** X9: whatever calls to [seek] and [read] are made on a
    [DataReader], its data stays the same, and its position, once not
    negative, never becomes negative as long as no read is given a
    negative count. *)
Theorem DataReader_keeps_data_and_position (ops : list op)
    (r : DataReader.t) :
  0 <= DataReader.pos r ->
  Forall (fun o => match o with OpRead (Some k) => 0 <= k | _ => True end)
    ops ->
  DataReader.data (snd (run ops r)) = DataReader.data r /\
  0 <= DataReader.pos (snd (run ops r)).
Proof.
  intros Hp Hall. revert r Hp.
  induction Hall as [|o ops Ho Hall IH]; intros r Hp; [cbn; auto|].
  rewrite (run_cons_state o ops r).
  destruct (DataReader_do_op_keeps o r Hp Ho) as [Hd Hq].
  destruct (IH _ Hq) as [Hd' Hq']. split; [congruence | exact Hq'].
Qed.

Lemma DataReader_keeps_data_and_position_witness :
  let r := new_bytes (bytes_range 0 16) in
  let ops := [OpRead (Some 20); OpSeek (-3) SEEK_END; OpRead None;
              OpSeek (-40) SEEK_CUR] in
  0 <= DataReader.pos r /\
  DataReader.data (snd (run ops r)) = DataReader.data r /\
  0 <= DataReader.pos (snd (run ops r)).
Proof.
  intros r ops. assert (H1 : 0 <= DataReader.pos r) by (cbn; lia).
  split; [exact H1|].
  apply (DataReader_keeps_data_and_position ops r H1).
  repeat constructor; lia.
Defined.

(** * Further properties of the integer helpers *)

Lemma le_value_app (a b : bytes) :
  Struct.le_value (a ++ b)
    = Struct.le_value a + 256 ^ Z.of_nat (length a) * Struct.le_value b.
Proof.
  induction a as [|x a IH]; cbn [app Struct.le_value length].
  - cbn. lia.
  - rewrite IH, Nat2Z.inj_succ, Z.pow_succ_r by lia. ring.
Qed.

Lemma byte_value_bound (b : byte) : 0 <= Z.of_N (Byte.to_N b) < 256.
Proof. pose proof (Byte.to_N_bounded b). lia. Qed.

Lemma le_value_bound (bs : bytes) :
  0 <= Struct.le_value bs < 256 ^ Z.of_nat (length bs).
Proof.
  induction bs as [|b bs IH]; cbn [Struct.le_value length]; [cbn; lia|].
  rewrite Nat2Z.inj_succ, Z.pow_succ_r by lia.
  pose proof (byte_value_bound b). lia.
Qed.

Lemma field_value_unsigned_be (c : Struct.code) (bs : bytes) :
  Struct.code_signed c = false ->
  Struct.field_value Struct.BigEndian c bs = Struct.le_value (rev bs).
Proof. intros Hc. unfold Struct.field_value. rewrite Hc. reflexivity. Qed.

Lemma shift_join_le_value (a b : bytes) (sh : Z) :
  sh = 8 * Z.of_nat (length a) ->
  Z.shiftl (Struct.le_value b) sh + Struct.le_value a
    = Struct.le_value (a ++ b).
Proof.
  intros ->. rewrite Z.shiftl_mul_pow2 by lia.
  rewrite Z.pow_mul_r by lia. change (2 ^ 8) with 256.
  rewrite le_value_app. ring.
Qed.


Section fixed_width_values.
Context {S O : Type} `{BaseReader S O}.
Variables (s s' : S) (bs : bytes) (k : Z).
Hypothesis Hread : read (Some k) s = (inr (Some bs), s').

Lemma read_one_value (fmt : string) e c :
  Struct.parse fmt = Some (e, [c]) -> Struct.code_signed c = false ->
  length bs = Struct.code_size c ->
  (d <- read (Some k) ;; unpack1 fmt d) s
    = (inr (Struct.le_value (low_first e bs)), s').
Proof.
  intros Hp Hc Hl. erewrite read_one_field; [|exact Hread|exact Hp|exact Hl].
  destruct e; cbn [low_first];
    [rewrite field_value_unsigned | rewrite field_value_unsigned_be];
    (reflexivity || exact Hc).
Qed.

(** little-endian: the low field comes first *)
Lemma read_two_values_le (fmt : string) c1 c2 (sh : Z) :
  Struct.parse fmt = Some (Struct.LittleEndian, [c1; c2]) ->
  Struct.code_signed c1 = false -> Struct.code_signed c2 = false ->
  length bs = (Struct.code_size c1 + Struct.code_size c2)%nat ->
  sh = 8 * Z.of_nat (Struct.code_size c1) ->
  (d <- read (Some k) ;; lh <- unpack2 fmt d ;;
   ret (Z.shiftl (snd lh) sh + fst lh)) s
    = (inr (Struct.le_value bs), s').
Proof.
  intros Hp H1 H2 Hl Hsh.
  erewrite (read_two_fields s s' bs k Hread fmt _ c1 c2
              (firstn (Struct.code_size c1) bs)
              (skipn (Struct.code_size c1) bs)
              (fun lh => Z.shiftl (snd lh) sh + fst lh));
    [ | exact Hp | symmetry; apply firstn_skipn
      | rewrite length_firstn; lia | rewrite length_skipn; lia ].
  cbn [fst snd]. rewrite !field_value_unsigned by assumption.
  rewrite shift_join_le_value, firstn_skipn;
    [reflexivity | rewrite length_firstn; lia].
Qed.

(** big-endian: the high field comes first *)
Lemma read_two_values_be (fmt : string) c1 c2 (sh : Z) :
  Struct.parse fmt = Some (Struct.BigEndian, [c1; c2]) ->
  Struct.code_signed c1 = false -> Struct.code_signed c2 = false ->
  length bs = (Struct.code_size c1 + Struct.code_size c2)%nat ->
  sh = 8 * Z.of_nat (Struct.code_size c2) ->
  (d <- read (Some k) ;; hl <- unpack2 fmt d ;;
   ret (Z.shiftl (fst hl) sh + snd hl)) s
    = (inr (Struct.le_value (rev bs)), s').
Proof.
  intros Hp H1 H2 Hl Hsh.
  erewrite (read_two_fields s s' bs k Hread fmt _ c1 c2
              (firstn (Struct.code_size c1) bs)
              (skipn (Struct.code_size c1) bs)
              (fun hl => Z.shiftl (fst hl) sh + snd hl));
    [ | exact Hp | symmetry; apply firstn_skipn
      | rewrite length_firstn; lia | rewrite length_skipn; lia ].
  cbn [fst snd]. rewrite !field_value_unsigned_be by assumption.
  rewrite shift_join_le_value, <- rev_app_distr, firstn_skipn;
    [reflexivity | rewrite length_rev, length_skipn; lia].
Qed.

End fixed_width_values.

Ltac one_value :=
  eapply read_one_value; [eassumption | reflexivity | reflexivity | assumption].

Ltac two_values :=
  first [ eapply read_two_values_le;
          [eassumption | reflexivity | reflexivity | reflexivity
           | assumption | reflexivity]
        | eapply read_two_values_be;
          [eassumption | reflexivity | reflexivity | reflexivity
           | assumption | reflexivity] ].

(** Whatever the reader, the helper for a width and an endianness
    returns the number whose base-256 digits, lowest first, are the
    bytes its [read] handed over. *)
Lemma read_fixed_le_value {S O : Type} `{BaseReader S O}
    (e : Struct.endian) (w : width) (bs : bytes) (s s' : S) :
  length bs = width_bytes w ->
  read (Some (Z.of_nat (width_bytes w))) s = (inr (Some bs), s') ->
  read_fixed e w s = (inr (Struct.le_value (low_first e bs)), s').
Proof.
  intros Hl Hr.
  destruct e, w; cbn [read_fixed width_bytes] in *;
    unfold read16le, read24le, read32le, read48le, read64le, read96le,
      read128le, read16be, read24be, read32be, read48be, read64be,
      read96be, read128be;
    first [ one_value | two_values ].
Qed.

Lemma pow256_bits (n : nat) : 256 ^ Z.of_nat n = 2 ^ (8 * Z.of_nat n).
Proof. rewrite Z.pow_mul_r by lia. reflexivity. Qed.

Lemma length_low_first (e : Struct.endian) (bs : bytes) :
  length (low_first e bs) = length bs.
Proof. destruct e; cbn [low_first]; [reflexivity | apply length_rev]. Qed.

(** X10: every fixed-width helper returns the number whose base-256
    digits are the bytes read, the first byte being the lowest digit
    for the little-endian helpers and the highest for the big-endian
    ones; the 24-, 48- and 96-bit helpers, put together from two
    fields, are no exception.  The number lies in [0, 2^w). *)
Theorem fixed_width_value (e : Struct.endian) (w : width) (bs : bytes) :
  length bs = width_bytes w ->
  fst (read_fixed e w (new_bytes bs))
    = inr (Struct.le_value (low_first e bs)) /\
  (forall kind,
     fst (read_fixed e w (file_of kind bs))
       = inr (Struct.le_value (low_first e bs))) /\
  0 <= Struct.le_value (low_first e bs) < 2 ^ width_bits w.
Proof.
  intros Hl.
  assert (Hlen : len bs = Z.of_nat (width_bytes w))
    by (unfold len; rewrite Hl; reflexivity).
  split; [|split].
  - erewrite read_fixed_le_value;
      [reflexivity | exact Hl | apply read_whole_bytes, Hlen].
  - intros kind. erewrite read_fixed_le_value;
      [reflexivity | exact Hl | apply read_whole_file, Hlen].
  - pose proof (le_value_bound (low_first e bs)) as Hb.
    rewrite length_low_first, Hl, pow256_bits in Hb. exact Hb.
Qed.

Lemma fixed_width_value_witness :
  let bs := [x01; x02; x03] in
  length bs = width_bytes W24 /\
  fst (read_fixed Struct.BigEndian W24 (new_bytes bs)) = inr 0x010203 /\
  fst (read_fixed Struct.LittleEndian W24 (new_bytes bs)) = inr 0x030201.
Proof.
  intros bs. assert (H1 : length bs = width_bytes W24) by reflexivity.
  split; [exact H1|]. split.
  - exact (proj1 (fixed_width_value Struct.BigEndian W24 bs H1)).
  - exact (proj1 (fixed_width_value Struct.LittleEndian W24 bs H1)).
Defined.

Lemma byte_of_Z_of_byte (b : byte) (v : Z) :
  byte_of_Z (Z.of_N (Byte.to_N b) + 256 * v) = b.
Proof.
  unfold byte_of_Z. pose proof (byte_value_bound b) as Hb.
  replace ((Z.of_N (Byte.to_N b) + 256 * v) mod 256)
    with (Z.of_N (Byte.to_N b)).
  - rewrite N2Z.id, Byte.of_to_N. reflexivity.
  - replace (Z.of_N (Byte.to_N b) + 256 * v)
      with (Z.of_N (Byte.to_N b) + v * 256) by lia.
    rewrite Z.mod_add by lia. symmetry. apply Z.mod_small. exact Hb.
Qed.

Lemma encode_le_le_value (bs : bytes) :
  encode_le (length bs) (Struct.le_value bs) = bs.
Proof.
  induction bs as [|b bs IH]; [reflexivity|].
  cbn [length encode_le Struct.le_value].
  rewrite byte_of_Z_of_byte. f_equal.
  pose proof (byte_value_bound b) as Hb.
  replace ((Z.of_N (Byte.to_N b) + 256 * Struct.le_value bs) / 256)
    with (Struct.le_value bs); [exact IH|].
  replace (Z.of_N (Byte.to_N b) + 256 * Struct.le_value bs)
    with (Z.of_N (Byte.to_N b) + Struct.le_value bs * 256) by lia.
  rewrite Z.div_add by lia.
  rewrite (Z.div_small _ 256) by exact Hb. lia.
Qed.

(** X11: encoding the number a helper has read gives back the bytes it
    was read from, so no two byte strings of a width read as the same
    number. *)
Theorem fixed_width_reencode (e : Struct.endian) (w : width) (bs : bytes)
    (v : Z) :
  length bs = width_bytes w ->
  fst (read_fixed e w (new_bytes bs)) = inr v ->
  encode e w v = bs.
Proof.
  intros Hl Hv.
  assert (Hlen : len bs = Z.of_nat (width_bytes w))
    by (unfold len; rewrite Hl; reflexivity).
  erewrite read_fixed_le_value in Hv;
    [ | exact Hl | apply read_whole_bytes, Hlen ].
  cbn [fst] in Hv. injection Hv as <-.
  destruct e; cbn [encode low_first]; rewrite <- Hl.
  - apply encode_le_le_value.
  - unfold encode_be. rewrite <- (length_rev bs), encode_le_le_value.
    apply rev_involutive.
Qed.

Lemma fixed_width_reencode_witness :
  let bs := [xff; x00; x80; x7f] in
  length bs = width_bytes W32 /\
  fst (read_fixed Struct.BigEndian W32 (new_bytes bs)) = inr 0xff00807f /\
  encode Struct.BigEndian W32 0xff00807f = bs.
Proof.
  intros bs. assert (H1 : length bs = width_bytes W32) by reflexivity.
  assert (H2 : fst (read_fixed Struct.BigEndian W32 (new_bytes bs))
               = inr 0xff00807f) by (vm_compute; reflexivity).
  split; [exact H1|]. split; [exact H2|].
  exact (fixed_width_reencode Struct.BigEndian W32 bs 0xff00807f H1 H2).
Defined.

Lemma reads16le_value {S O : Type} `{BaseReader S O} (s s' : S)
    (bs : bytes) :
  length bs = 2%nat ->
  read (Some 2) s = (inr (Some bs), s') ->
  reads16le s
    = (inr (Struct.field_value Struct.LittleEndian Struct.c_h bs), s').
Proof.
  intros Hl Hr. unfold reads16le.
  eapply read_one_field; [exact Hr | reflexivity | exact Hl].
Qed.

Lemma signed16_of_encoding (v : Z) :
  - 2 ^ 15 <= v < 2 ^ 15 ->
  Struct.field_value Struct.LittleEndian Struct.c_h (encode_le 2 v) = v.
Proof.
  intros Hv. unfold Struct.field_value. rewrite le_value_encode_le.
  cbn [Struct.code_signed Struct.code_size andb].
  change (8 * Z.of_nat 2 - 1) with 15. change (8 * Z.of_nat 2) with 16.
  change (256 ^ Z.of_nat 2) with 65536.
  change (2 ^ 15) with 32768 in *. change (2 ^ 16) with 65536.
  destruct (Z.lt_ge_cases v 0) as [Hn|Hn].
  - assert (Hq : v mod 65536 = v + 65536).
    { symmetry. apply (Z.mod_unique v 65536 (-1)); lia. }
    rewrite Hq. destruct (Z.leb_spec 32768 (v + 65536)); lia.
  - rewrite Z.mod_small by lia. destruct (Z.leb_spec 32768 v); lia.
Qed.

(** X12: [reads16le] reads two's complement: it returns [v] from the
    two-byte encoding of any [v] with [-2^15 <= v < 2^15], and from
    any two bytes a number in that range. *)
Theorem reads16le_signed (v : Z) (bs : bytes) :
  - 2 ^ 15 <= v < 2 ^ 15 -> length bs = 2%nat ->
  fst (reads16le (new_bytes (encode_le 2 v))) = inr v /\
  (forall kind, fst (reads16le (file_of kind (encode_le 2 v))) = inr v) /\
  exists u, fst (reads16le (new_bytes bs)) = inr u /\
            - 2 ^ 15 <= u < 2 ^ 15.
Proof.
  intros Hv Hl. split; [|split].
  - rewrite (reads16le_value _ _ (encode_le 2 v) eq_refl
               (read_whole_bytes (encode_le 2 v) 2 eq_refl)).
    cbn [fst]. f_equal. apply signed16_of_encoding, Hv.
  - intros kind.
    rewrite (reads16le_value _ _ (encode_le 2 v) eq_refl
               (read_whole_file kind (encode_le 2 v) 2 eq_refl)).
    cbn [fst]. f_equal. apply signed16_of_encoding, Hv.
  - assert (Hlen : len bs = 2) by (unfold len; rewrite Hl; reflexivity).
    rewrite (reads16le_value _ _ bs Hl (read_whole_bytes bs 2 Hlen)).
    eexists. split; [reflexivity|].
    unfold Struct.field_value.
    cbn [Struct.code_signed Struct.code_size andb].
    change (8 * Z.of_nat 2 - 1) with 15. change (8 * Z.of_nat 2) with 16.
    pose proof (le_value_bound bs) as Hb. rewrite Hl in Hb.
    change (256 ^ Z.of_nat 2) with 65536 in Hb.
    change (2 ^ 15) with 32768 in *. change (2 ^ 16) with 65536.
    destruct (Z.leb_spec 32768 (Struct.le_value bs)); lia.
Qed.

Lemma reads16le_signed_witness :
  - 2 ^ 15 <= -2 < 2 ^ 15 /\ length [xfe; xff] = 2%nat /\
  encode_le 2 (-2) = [xfe; xff] /\
  fst (reads16le (new_bytes (encode_le 2 (-2)))) = inr (-2).
Proof.
  assert (H1 : - 2 ^ 15 <= -2 < 2 ^ 15) by lia.
  assert (H2 : length [xfe; xff] = 2%nat) by reflexivity.
  split; [exact H1|]. split; [exact H2|]. split; [reflexivity|].
  exact (proj1 (reads16le_signed (-2) [xfe; xff] H1 H2)).
Defined.

Lemma unpack_wrong_length (fmt : string) e cs (d : bytes) :
  Struct.parse fmt = Some (e, cs) -> length d <> Struct.calcsize cs ->
  Struct.unpack fmt (Some d) = inl StructError.
Proof.
  intros Hp Hl. unfold Struct.unpack. rewrite Hp.
  destruct (Nat.eqb_spec (length d) (Struct.calcsize cs));
    [contradiction | reflexivity].
Qed.

Lemma unpack_None (fmt : string) e cs :
  Struct.parse fmt = Some (e, cs) -> Struct.unpack fmt None = inl TypeError.
Proof. intros Hp. unfold Struct.unpack. rewrite Hp. reflexivity. Qed.

Section fixed_width_errors.
Context {S O : Type} `{BaseReader S O}.
Variables (s s' : S).

(** Each helper starts with a [read] of its width. *)
Lemma read_fixed_read_fails (e : Struct.endian) (w : width) (x : exn) :
  read (Some (Z.of_nat (width_bytes w))) s = (inl x, s') ->
  read_fixed e w s = (inl x, s').
Proof.
  intros Hr.
  destruct e, w; cbn [read_fixed width_bytes] in *;
    cbv [Z.of_nat Pos.of_succ_nat Pos.succ] in Hr;
    unfold read16le, read24le, read32le, read48le, read64le, read96le,
      read128le, read16be, read24be, read32be, read48be, read64be,
      read96be, read128be, bind; rewrite Hr; reflexivity.
Qed.

Lemma read_fixed_wrong_length (e : Struct.endian) (w : width)
    (d : bytes) :
  read (Some (Z.of_nat (width_bytes w))) s = (inr (Some d), s') ->
  length d <> width_bytes w ->
  read_fixed e w s = (inl StructError, s').
Proof.
  intros Hr Hl.
  destruct e, w; cbn [read_fixed width_bytes] in *;
    cbv [Z.of_nat Pos.of_succ_nat Pos.succ] in Hr;
    unfold read16le, read24le, read32le, read48le, read64le, read96le,
      read128le, read16be, read24be, read32be, read48be, read64be,
      read96be, read128be, bind, unpack1, unpack2; rewrite Hr;
    (erewrite unpack_wrong_length; [reflexivity | reflexivity | exact Hl]).
Qed.

Lemma read_fixed_None (e : Struct.endian) (w : width) :
  read (Some (Z.of_nat (width_bytes w))) s = (inr None, s') ->
  read_fixed e w s = (inl TypeError, s').
Proof.
  intros Hr.
  destruct e, w; cbn [read_fixed width_bytes] in *;
    cbv [Z.of_nat Pos.of_succ_nat Pos.succ] in Hr;
    unfold read16le, read24le, read32le, read48le, read64le, read96le,
      read128le, read16be, read24be, read32be, read48be, read64be,
      read96be, read128be, bind, unpack1, unpack2; rewrite Hr;
    (erewrite unpack_None; [reflexivity | reflexivity]).
Qed.

End fixed_width_errors.

(** X13: a fixed-width helper that finds fewer bytes than its width
    consumes nothing and sets the flag; on a [DataReader] it raises
    [EOFError], on a [FileReader] over a file object the short bytes
    reach [struct.unpack], which raises its own error, and once the
    flag is set the [None] that [read] returns makes it a
    [TypeError]. *)
Theorem fixed_width_short_input (e : Struct.endian) (w : width)
    (r : DataReader.t) (f : io.file) :
  DataReader.remaining r < Z.of_nat (width_bytes w) ->
  available f < Z.of_nat (width_bytes w) ->
  read_fixed e w r
    = (inl EOFError,
       DataReader.mk (DataReader.data r) (DataReader.pos r) true) /\
  read_fixed e w (FileReader.mk Raw false, f)
    = (inl StructError, (FileReader.mk Raw true, f)) /\
  read_fixed e w (FileReader.mk Raw true, f)
    = (inl TypeError, (FileReader.mk Raw true, f)).
Proof.
  intros Hr Hf. split; [|split].
  - apply read_fixed_read_fails. cbn [read DataReader_BaseReader].
    unfold bind, DataReader.read, DataReader.remaining in *.
    destruct r as [d p [|]]; cbn [DataReader.data DataReader.pos
                                   DataReader._eof] in *; [reflexivity|].
    destruct (Z.gtb_spec (p + Z.of_nat (width_bytes w)) (len d));
      [reflexivity | lia].
  - destruct (FileReader_read_short_returns _ f Hf) as (bs & Hread & Hlen).
    eapply read_fixed_wrong_length; [exact Hread|].
    unfold len in Hlen. lia.
  - apply read_fixed_None. reflexivity.
Qed.

Lemma fixed_width_short_input_witness :
  let r := DataReader.mk (bytes_range 0 16) 13 false in
  let f := io.mkfile io.OSFile (bytes_range 0 16) 13 in
  DataReader.remaining r < Z.of_nat (width_bytes W32) /\
  available f < Z.of_nat (width_bytes W32) /\
  read_fixed Struct.LittleEndian W32 r
    = (inl EOFError, DataReader.mk (bytes_range 0 16) 13 true) /\
  read_fixed Struct.LittleEndian W32 (FileReader.mk Raw false, f)
    = (inl StructError, (FileReader.mk Raw true, f)).
Proof.
  intros r f.
  assert (H1 : DataReader.remaining r < Z.of_nat (width_bytes W32))
    by (vm_compute; reflexivity).
  assert (H2 : available f < Z.of_nat (width_bytes W32))
    by (vm_compute; reflexivity).
  split; [exact H1|]. split; [exact H2|].
  destruct (fixed_width_short_input Struct.LittleEndian W32 r f H1 H2)
    as (Ha & Hb & _).
  split; [exact Ha | exact Hb].
Defined.

(** * Further properties of the container decoder *)

(** A [FileReader.read(k)] that returned [k > 0] bytes: the flag was
    clear, the bytes are what the handle handed over, and the file has
    moved on by [k]. *)
Lemma FileReader_read_exact_bytes (h : handle) (e : bool) (f : io.file)
    (k : Z) (bs : bytes) (s1 : FileReader.state) :
  0 < k ->
  FileReader.read (Some k) false (FileReader.mk h e, f)
    = (inr (Some bs), s1) ->
  len bs = k ->
  e = false /\
  s1 = (FileReader.mk h false, io.set_fpos (io.tell f + k) f) /\
  fh_read h (Some k) f = (inr bs, io.set_fpos (io.tell f + k) f).
Proof.
  intros Hk Hr Hl. destruct e.
  - unfold FileReader.read in Hr. cbn in Hr. discriminate.
  - split; [reflexivity|]. rewrite FileReader_read_cases in Hr.
    unfold finds_less in Hr. cbn [fst snd FileReader.fh] in Hr.
    pose proof (fh_read_state h (Some k) f) as Hst.
    destruct (fh_read h (Some k) f) as [[x|d] f']; [discriminate|].
    destruct (Z.ltb_spec 0 k); [|lia]. cbn [andb] in Hr.
    destruct (Z.ltb_spec (len d) k).
    + injection Hr as Hd _. subst d. lia.
    + injection Hr as Hd <-. subst d f'. rewrite Hl. auto.
Qed.

(** An unsigned little-endian helper that succeeds on a [FileReader]:
    where it leaves the reader, and what it returns. *)
Lemma FileReader_read_uint_state (fmt : string) (c : Struct.code) (k : Z)
    (h : handle) (e : bool) (f : io.file) (s1 : FileReader.state) (v : Z) :
  Struct.parse fmt = Some (Struct.LittleEndian, [c]) ->
  Struct.code_signed c = false ->
  Z.of_nat (Struct.code_size c) = k -> 0 < k ->
  (d <- read (Some k) ;; unpack1 fmt d) (FileReader.mk h e, f) = (inr v, s1) ->
  e = false /\
  s1 = (FileReader.mk h false, io.set_fpos (io.tell f + k) f) /\
  exists bs,
    fh_read h (Some k) f = (inr bs, io.set_fpos (io.tell f + k) f) /\
    length bs = Struct.code_size c /\ v = Struct.le_value bs /\
    0 <= v < 256 ^ Z.of_nat (Struct.code_size c).
Proof.
  intros Hp Hc Hsz Hk Hr.
  apply bind_inr in Hr as (d & s0 & Hread & Hu).
  apply (unpack1_inr fmt Struct.LittleEndian c) in Hu
    as (bs & -> & Hl & -> & ->); [|exact Hp].
  cbn [read FileReader_BaseReader] in Hread.
  apply FileReader_read_exact_bytes in Hread as (-> & -> & Hfh);
    [|exact Hk | unfold len; lia].
  split; [reflexivity|]. split; [reflexivity|].
  exists bs. rewrite field_value_unsigned by exact Hc.
  pose proof (le_value_bound bs) as Hb. rewrite Hl in Hb. auto.
Qed.

Lemma fh_read_raw_slice (f : io.file) (k : Z) (bs : bytes) (f' : io.file) :
  0 <= k -> fh_read Raw (Some k) f = (inr bs, f') ->
  bs = py_slice (io.content f) (io.tell f) (io.tell f + k).
Proof.
  intros Hk Hr. cbn [fh_read] in Hr. rewrite io_read_count in Hr by exact Hk.
  cbv zeta in Hr. rewrite io_read_slice in Hr by exact Hk.
  injection Hr as <- _. reflexivity.
Qed.

Ltac norm_file :=
  repeat first
    [ progress cbn [io.content io.set_fpos io.fkind] in *
    | progress rewrite io_set_fpos_twice in *
    | match goal with
      | |- context [io.tell (io.set_fpos ?p ?f)] =>
          rewrite (io_tell_set_fpos p f) by lia
      | H : context [io.tell (io.set_fpos ?p ?f)] |- _ =>
          rewrite (io_tell_set_fpos p f) in H by lia
      end ].

(** An entry decoded from a [FileReader] on a file object. *)
Lemma BsufEntry_on_file (e : bool) (f : io.file) (s' : FileReader.state)
    (ent : @BsufEntry FileReader.t) :
  BsufEntry__init__ (FileReader.mk Raw e, f) = (inr ent, s') ->
  let p := io.tell f in
  let c := io.content f in
  ent_size ent = Struct.le_value (py_slice c p (p + 4)) /\
  ent_type ent = Struct.le_value (py_slice c (p + 4) (p + 6)) /\
  ent_ofs ent = p + 6 /\
  entfh ent
    = FileReader.__init__ (StreamRange Raw (p + 6) (Some (ent_size ent))) /\
  ent_checksum ent
    = Struct.le_value (py_slice c (p + 6 + ent_size ent)
                         (p + 8 + ent_size ent)) /\
  0 <= ent_size ent < 2 ^ 32 /\ 0 <= ent_type ent < 2 ^ 16 /\
  0 <= ent_checksum ent < 2 ^ 16 /\
  p + 8 + ent_size ent <= len c /\
  s' = (FileReader.mk Raw false, io.set_fpos (p + 8 + ent_size ent) f).
Proof.
  intros He p c. subst p c. unfold BsufEntry__init__ in He.
  pose proof (io_tell_nonneg f) as Hp0.
  apply bind_inr in He as (size & s1 & H1 & He).
  apply (FileReader_read_uint_state "<L" Struct.c_L 4) in H1
    as (-> & -> & bs1 & Hb1 & Hl1 & -> & Hr1); [|reflexivity..|lia].
  apply fh_read_raw_slice in Hb1; [|lia].
  apply bind_inr in He as (type & s2 & H2 & He).
  apply (FileReader_read_uint_state "<H" Struct.c_H 2) in H2
    as (_ & -> & bs2 & Hb2 & Hl2 & -> & Hr2); [|reflexivity..|lia].
  apply fh_read_raw_slice in Hb2; [|lia].
  norm_file.
  apply bind_inr in He as (ofs & s2' & H3 & He).
  injection H3 as <- <-.
  apply bind_inr in He as (fh & s2' & H4 & He).
  cbn [subreader FileReader_BaseReader] in H4.
  unfold FileReader.subreader in H4. injection H4 as <- <-.
  apply bind_inr in He as ([] & s3 & H5 & He).
  unfold skip, bind in H5. cbn [seek FileReader_BaseReader] in H5.
  unfold FileReader.seek, bind, FileReader.set_eof, modify,
    FileReader.on_file in H5.
  cbn [fst snd FileReader.fh] in H5.
  rewrite fh_seek_cur in H5 by (norm_file; lia).
  unfold ret in H5. injection H5 as <-. norm_file.
  apply bind_inr in He as (cks & s4 & H6 & He).
  apply (FileReader_read_uint_state "<H" Struct.c_H 2) in H6
    as (_ & -> & bs3 & Hb3 & Hl3 & -> & Hr3); [|reflexivity..|lia].
  apply fh_read_raw_slice in Hb3; [|lia].
  norm_file.
  unfold ret in He. injection He as <- <-.
  cbn [ent_size ent_type ent_ofs entfh ent_checksum].
  unfold FileReader.tell. cbn [fst snd FileReader.fh fh_tell]. norm_file.
  replace (io.tell f + 4 + 2) with (io.tell f + 6) in * by lia.
  replace (io.tell f + 6 + Struct.le_value bs1 + 2)
    with (io.tell f + 8 + Struct.le_value bs1) in * by lia.
  change (256 ^ Z.of_nat (Struct.code_size Struct.c_L)) with (2 ^ 32) in Hr1.
  change (256 ^ Z.of_nat (Struct.code_size Struct.c_H)) with (2 ^ 16)
    in Hr2, Hr3.
  assert (Hend : io.tell f + 8 + Struct.le_value bs1 <= len (io.content f)).
  { assert (Hlen3 : len bs3 = 2) by (unfold len; rewrite Hl3; reflexivity).
    rewrite Hb3 in Hlen3. rewrite py_slice_segment in Hlen3 by lia.
    rewrite len_firstn, len_skipn in Hlen3. lia. }
  rewrite <- Hb1, <- Hb2, <- Hb3. repeat split; (reflexivity || lia).
Qed.

(** X15: an entry decoded from a [FileReader] on a file object takes
    its size from the four bytes at the position, its type from the
    next two and its checksum from the two bytes behind the payload;
    it records the offset of the payload, six bytes on, holds a
    bounded view of exactly [size] bytes from there, and leaves the
    reader [8 + size] bytes further on. *)
Theorem BsufEntry_layout (e : bool) (f : io.file) (s' : FileReader.state)
    (ent : @BsufEntry FileReader.t) :
  BsufEntry__init__ (FileReader.mk Raw e, f) = (inr ent, s') ->
  let p := io.tell f in
  let c := io.content f in
  ent_size ent = Struct.le_value (py_slice c p (p + 4)) /\
  ent_type ent = Struct.le_value (py_slice c (p + 4) (p + 6)) /\
  ent_ofs ent = p + 6 /\
  entfh ent
    = FileReader.__init__ (StreamRange Raw (p + 6) (Some (ent_size ent))) /\
  ent_checksum ent
    = Struct.le_value (py_slice c (p + 6 + ent_size ent)
                         (p + 8 + ent_size ent)) /\
  0 <= ent_size ent < 2 ^ 32 /\ 0 <= ent_type ent < 2 ^ 16 /\
  0 <= ent_checksum ent < 2 ^ 16 /\
  p + 8 + ent_size ent <= len c /\
  s' = (FileReader.mk Raw false, io.set_fpos (p + 8 + ent_size ent) f).
Proof. exact (BsufEntry_on_file e f s' ent). Qed.

Lemma BsufEntry_layout_witness :
  let f := io.mkfile io.OSFile one_entry_buffer 16 in
  exists ent s',
    BsufEntry__init__ (FileReader.mk Raw false, f) = (inr ent, s') /\
    ent_size ent = 6 /\ ent_type ent = 0 /\ ent_ofs ent = 22 /\
    entfh ent = FileReader.__init__ (StreamRange Raw 22 (Some 6)) /\
    s' = (FileReader.mk Raw false, io.set_fpos 30 f).
Proof.
  intros f.
  destruct (BsufEntry__init__ (FileReader.mk Raw false, f))
    as [[x|ent] s'] eqn:E.
  - exfalso. vm_compute in E. discriminate.
  - exists ent, s'. split; [reflexivity|].
    pose proof (BsufEntry_layout false f s' ent E) as H.
    cbv zeta in H.
    destruct H as (H1 & H2 & H3 & H4 & _ & _ & _ & _ & _ & H5).
    vm_compute in E. injection E as <- <-.
    repeat split; reflexivity.
Defined.

Lemma FileReader_size_succeeds (h : handle) (e : bool) (f : io.file)
    (z : Z) (s1 : FileReader.state) :
  FileReader.size (FileReader.mk h e, f) = (inr z, s1) ->
  h = Raw /\ io.fkind f = io.OSFile /\ z = len (io.content f) /\
  s1 = (FileReader.mk h e, f).
Proof.
  unfold FileReader.size, FileReader.fileno, bind, FileReader.on_file.
  cbn [fst snd FileReader.fh]. unfold fh_fileno, io.fileno, io.st_size.
  destruct h; [|discriminate].
  destruct (io.fkind f); [discriminate|].
  intros Hs. injection Hs as <- <-. auto.
Qed.

(** The header of a file that [BsufFile.__init__] gets through. *)
Lemma BsufFile_header_layout (h : handle) (e : bool) (f : io.file)
    (v fsz : Z) (s1 : FileReader.state) :
  BsufFile_header (FileReader.mk h e, f) = (inr (v, fsz), s1) ->
  let p := io.tell f in
  let c := io.content f in
  h = Raw /\ io.fkind f = io.OSFile /\ e = false /\
  Struct.le_value (py_slice c p (p + 8)) = magic /\
  v = Struct.le_value (py_slice c (p + 8) (p + 12)) /\
  fsz = Struct.le_value (py_slice c (p + 12) (p + 16)) /\
  0 <= v < 2 ^ 32 /\ 0 <= fsz < 2 ^ 32 /\ p + 16 <= len c /\
  s1 = (FileReader.mk Raw false, io.set_fpos (p + 16) f).
Proof.
  intros Hh p c. subst p c. unfold BsufFile_header in Hh.
  pose proof (io_tell_nonneg f) as Hp0.
  apply bind_inr in Hh as (m & s0 & H0 & Hh).
  apply (FileReader_read_uint_state "<Q" Struct.c_Q 8) in H0
    as (-> & -> & bs0 & Hb0 & Hl0 & -> & Hr0); [|reflexivity..|lia].
  fold magic in Hh.
  destruct (Z.eqb_spec (Struct.le_value bs0) magic) as [Hm|Hm];
    [|discriminate].
  cbn [negb] in Hh.
  apply bind_inr in Hh as (v' & s2 & H1 & Hh).
  apply (FileReader_read_uint_state "<L" Struct.c_L 4) in H1
    as (_ & -> & bs1 & Hb1 & Hl1 & -> & Hr1); [|reflexivity..|lia].
  apply bind_inr in Hh as (fsz' & s3 & H2 & Hh).
  apply (FileReader_read_uint_state "<L" Struct.c_L 4) in H2
    as (_ & -> & bs2 & Hb2 & Hl2 & -> & Hr2); [|reflexivity..|lia].
  norm_file.
  apply bind_inr in Hh as (real & s4 & H3 & Hh).
  cbn [size FileReader_BaseReader] in H3.
  apply FileReader_size_succeeds in H3 as (-> & Hkind & -> & ->).
  assert (Hs1 : s1 = (FileReader.mk Raw false,
                      io.set_fpos (io.tell f + 8 + 4 + 4) f)
                /\ v = Struct.le_value bs1 /\ fsz = Struct.le_value bs2).
  { apply bind_inr in Hh as ([] & s5 & H4 & Hh).
    unfold ret in Hh. injection Hh as <- <- <-. norm_file.
    match type of H4 with context [negb ?b] => destruct (negb b) end.
    - apply bind_inr in H4 as (z & s6 & H4 & H5).
      cbn [size FileReader_BaseReader] in H4.
      apply FileReader_size_succeeds in H4 as (_ & _ & _ & ->).
      unfold ret in H5. injection H5 as <-. norm_file. auto.
    - unfold ret in H4. injection H4 as <-. norm_file. auto. }
  destruct Hs1 as (-> & -> & ->).
  apply fh_read_raw_slice in Hb0; [|lia].
  apply fh_read_raw_slice in Hb1; [|lia].
  apply fh_read_raw_slice in Hb2; [|lia].
  norm_file.
  replace (io.tell f + 8 + 4) with (io.tell f + 12) in * by lia.
  replace (io.tell f + 12 + 4) with (io.tell f + 16) in * by lia.
  change (256 ^ Z.of_nat (Struct.code_size Struct.c_L)) with (2 ^ 32)
    in Hr1, Hr2.
  assert (Hend : io.tell f + 16 <= len (io.content f)).
  { assert (Hlen : len bs2 = 4) by (unfold len; rewrite Hl2; reflexivity).
    rewrite Hb2 in Hlen. rewrite py_slice_segment in Hlen by lia.
    rewrite len_firstn, len_skipn in Hlen. lia. }
  rewrite <- Hb0, <- Hb1, <- Hb2. cbn [io.fkind io.set_fpos] in Hkind.
  repeat split; (reflexivity || assumption || lia).
Qed.

(** X16: [BsufFile.__init__] succeeds only on a [FileReader] whose
    [fh] is a file object with a file descriptor and whose flag is
    clear: a sub-reader and a [FileReader] on a [BytesIO] end in an
    exception, and so does every [DataReader], whatever bytes it
    holds. *)
Theorem BsufFile_needs_a_file (fuel : nat) (r : DataReader.t)
    (s s' : FileReader.state) (f : @BsufFile FileReader.t) :
  BsufFile__init__ fuel s = Some (inr f, s') ->
  (FileReader.fh (fst s) = Raw /\ io.fkind (snd s) = io.OSFile /\
   FileReader._eof (fst s) = false) /\
  exists x r', BsufFile__init__ fuel r = Some (inl x, r').
Proof.
  intros Hf. split.
  - unfold BsufFile__init__ in Hf.
    destruct (BsufFile_header s) as [[x|[v fsz]] s1] eqn:Hh; [discriminate|].
    destruct s as [[h e] fl].
    apply BsufFile_header_layout in Hh. cbv zeta in Hh.
    destruct Hh as (-> & Hk & -> & _). auto.
  - unfold BsufFile__init__.
    destruct (DataReader_header_fails r) as (x & r' & Hh).
    rewrite Hh. eauto.
Qed.

Lemma BsufFile_needs_a_file_witness :
  exists f s',
    BsufFile__init__ 3 (file_of io.OSFile one_entry_buffer)
      = Some (inr f, s') /\
    exists x r',
      BsufFile__init__ 3 (new_bytes one_entry_buffer) = Some (inl x, r').
Proof.
  destruct (BsufFile__init__ 3 (file_of io.OSFile one_entry_buffer))
    as [[[x|f] s']|] eqn:E.
  - exfalso. vm_compute in E. discriminate.
  - exists f, s'. split; [reflexivity|].
    exact (proj2 (BsufFile_needs_a_file 3 (new_bytes one_entry_buffer)
                    _ s' f E)).
  - exfalso. vm_compute in E. discriminate.
Defined.

(** X14: on a [FileReader] the constructor always comes to an end:
    the loop cannot run on, since every entry it decodes moves the
    position on by at least eight bytes, and from some number of
    iterations on the result no longer depends on how many are
    allowed. *)
Theorem BsufFile_init_terminates (s : FileReader.state) :
  exists fuel r,
    forall fuel', (fuel <= fuel')%nat -> BsufFile__init__ fuel' s = Some r.
Proof.
  destruct (BsufFile__init___total s) as (fuel & r & Hr).
  exists fuel, r. intros fuel' Hle.
  eapply BsufFile__init___mono; eassumption.
Qed.

Lemma loop_run_laid_out (bound : Z) (s s' : FileReader.state) ents :
  loop_run bound s ents s' ->
  FileReader.fh (fst s) = Raw ->
  laid_out (io.tell (snd s)) ents /\
  FileReader.fh (fst s') = Raw /\
  snd s' = io.set_fpos (entries_end (io.tell (snd s)) ents) (snd s) /\
  entries_end (io.tell (snd s)) ents <= Z.max (io.tell (snd s))
                                          (len (io.content (snd s))) /\
  io.tell (snd s) + 8 * Z.of_nat (length ents)
    <= entries_end (io.tell (snd s)) ents /\
  8 * Z.of_nat (length ents) <= Z.max 0 (bound - io.tell (snd s) + 7).
Proof.
  induction 1 as [s Hge | s s1 s' ent ents Hlt Hent Hrun IH]; intros Hraw.
  - cbn [laid_out entries_end length]. rewrite io_set_fpos_tell.
    repeat split; (assumption || lia).
  - destruct s as [[h e] f]. cbn [fst snd FileReader.fh] in *. subst h.
    apply BsufEntry_on_file in Hent. cbv zeta in Hent.
    destruct Hent as (_ & _ & Hofs & Hfh & _ & Hsz & _ & _ & Hend & ->).
    pose proof (io_tell_nonneg f) as Hp0.
    cbn [fst snd FileReader.fh] in IH.
    destruct (IH eq_refl) as (Hlay & Hraw' & Hs' & Hmax & Hcnt & Hbnd).
    clear IH. norm_file.
    cbn [laid_out entries_end length].
    unfold tell in Hlt. cbn [FileReader_BaseReader] in Hlt.
    unfold FileReader.tell in Hlt. cbn [fst snd FileReader.fh fh_tell] in Hlt.
    rewrite Nat2Z.inj_succ.
    repeat split; try assumption; try lia.
Qed.

(** X18: in a file the constructor has decoded, the entries follow
    one another without a gap from offset 16 behind the header on:
    each records the offset six bytes after its start and holds a
    view of its own [size] payload bytes, the next starts right
    behind its checksum, and the file checksum is the two bytes
    behind the last entry, at or past offset 16 + the declared size. *)
Theorem decoded_entries_are_contiguous (fuel : nat) (e : bool)
    (fl : io.file) (f : @BsufFile FileReader.t) (s' : FileReader.state) :
  BsufFile__init__ fuel (FileReader.mk Raw e, fl) = Some (inr f, s') ->
  let p := io.tell fl in
  let c := io.content fl in
  let last := entries_end (p + 16) (entries f) in
  laid_out (p + 16) (entries f) /\
  version f = Struct.le_value (py_slice c (p + 8) (p + 12)) /\
  Struct.le_value (py_slice c (p + 12) (p + 16)) + 16 <= last /\
  filechecksum f = Struct.le_value (py_slice c last (last + 2)) /\
  last + 2 <= len c /\
  s' = (FileReader.mk Raw false, io.set_fpos (last + 2) fl).
Proof.
  intros Hf p c last. subst p c last. unfold BsufFile__init__ in Hf.
  destruct (BsufFile_header (FileReader.mk Raw e, fl))
    as [[x|[v fsz]] s1] eqn:Hh; [discriminate|].
  destruct (entries_loop fuel (fsz + 0x10) [] s1) as [[[x|ents] s2]|] eqn:Hl;
    try discriminate.
  injection Hf as Hf.
  apply entries_loop_run in Hl as (new & -> & Hrun). cbn [app] in *.
  apply bind_inr in Hf as (cks & s3 & Hc & Hf).
  unfold ret in Hf. injection Hf as <- <-. cbn [version entries filechecksum].
  apply BsufFile_header_layout in Hh. cbv zeta in Hh.
  destruct Hh as (_ & _ & _ & _ & Hv & Hfsz & _ & _ & Hlen & ->).
  pose proof (io_tell_nonneg fl) as Hp0.
  pose proof (loop_run_exit _ _ _ _ Hrun) as Hexit.
  apply loop_run_laid_out in Hrun; [|reflexivity].
  cbn [fst snd] in Hrun. norm_file.
  destruct Hrun as (Hlay & Hraw & Hs2 & Hmax & Hcnt & _).
  destruct s2 as [[h2 e2] f2]. cbn [fst snd FileReader.fh] in *. subst h2 f2.
  norm_file.
  unfold tell in Hexit. cbn [FileReader_BaseReader] in Hexit.
  unfold FileReader.tell in Hexit.
  cbn [fst snd FileReader.fh fh_tell] in Hexit.
  pose proof (len_nonneg new) as Hn.
  rewrite io_tell_set_fpos in Hexit by lia.
  apply (FileReader_read_uint_state "<H" Struct.c_H 2) in Hc
    as (_ & -> & bs & Hb & Hlb & -> & _); [|reflexivity..|lia].
  apply fh_read_raw_slice in Hb; [|lia]. norm_file.
  assert (Hend : entries_end (io.tell fl + 16) new + 2
                 <= len (io.content fl)).
  { assert (Hlen2 : len bs = 2) by (unfold len; rewrite Hlb; reflexivity).
    rewrite Hb in Hlen2. rewrite py_slice_segment in Hlen2 by lia.
    rewrite len_firstn, len_skipn in Hlen2. lia. }
  rewrite <- Hb. subst v fsz.
  repeat split; (assumption || reflexivity || lia).
Qed.

Lemma decoded_entries_are_contiguous_witness :
  exists f s',
    BsufFile__init__ 5 (file_of io.OSFile oversized_file)
      = Some (inr f, s') /\
    laid_out 16 (entries f) /\ entries_end 16 (entries f) = 30 /\
    filechecksum f = 0xBEEF /\
    s' = (FileReader.mk Raw false,
          io.set_fpos 32 (io.mkfile io.OSFile oversized_file 0)).
Proof.
  destruct (BsufFile__init__ 5 (file_of io.OSFile oversized_file))
    as [[[x|f] s']|] eqn:E.
  - exfalso. vm_compute in E. discriminate.
  - exists f, s'. split; [reflexivity|].
    pose proof (decoded_entries_are_contiguous 5 false _ f s' E) as H.
    cbv zeta in H. destruct H as (H1 & _ & _ & _ & _ & H6).
    vm_compute in E. injection E as <- <-.
    split; [exact H1|]. repeat split; reflexivity.
  - exfalso. vm_compute in E. discriminate.
Defined.

(** X19: a decoded file has at most one entry for every eight bytes
    of its declared size, and one more: the number of entries is
    bounded by the header alone. *)
Theorem decoded_entries_count (fuel : nat) (e : bool) (fl : io.file)
    (f : @BsufFile FileReader.t) (s' : FileReader.state) :
  BsufFile__init__ fuel (FileReader.mk Raw e, fl) = Some (inr f, s') ->
  let declared :=
    Struct.le_value (py_slice (io.content fl) (io.tell fl + 12)
                       (io.tell fl + 16)) in
  8 * Z.of_nat (length (entries f)) <= declared + 7 /\
  declared < 2 ^ 32.
Proof.
  intros Hf declared. subst declared. unfold BsufFile__init__ in Hf.
  destruct (BsufFile_header (FileReader.mk Raw e, fl))
    as [[x|[v fsz]] s1] eqn:Hh; [discriminate|].
  destruct (entries_loop fuel (fsz + 0x10) [] s1) as [[[x|ents] s2]|] eqn:Hl;
    try discriminate.
  injection Hf as Hf.
  apply entries_loop_run in Hl as (new & -> & Hrun). cbn [app] in *.
  apply bind_inr in Hf as (cks & s3 & Hc & Hf).
  unfold ret in Hf. injection Hf as <- <-. cbn [entries].
  apply BsufFile_header_layout in Hh. cbv zeta in Hh.
  destruct Hh as (_ & _ & _ & _ & _ & Hfsz & _ & Hr & _ & ->).
  pose proof (io_tell_nonneg fl) as Hp0.
  apply loop_run_laid_out in Hrun; [|reflexivity].
  cbn [fst snd] in Hrun. norm_file.
  destruct Hrun as (_ & _ & _ & _ & _ & Hbnd).
  subst fsz. lia.
Qed.

Lemma decoded_entries_count_witness :
  exists f s',
    BsufFile__init__ 5 (file_of io.OSFile oversized_file)
      = Some (inr f, s') /\
    8 * Z.of_nat (length (entries f)) <= 0x0E + 7.
Proof.
  destruct (BsufFile__init__ 5 (file_of io.OSFile oversized_file))
    as [[[x|f] s']|] eqn:E.
  - exfalso. vm_compute in E. discriminate.
  - exists f, s'. split; [reflexivity|].
    exact (proj1 (decoded_entries_count 5 false _ f s' E)).
  - exfalso. vm_compute in E. discriminate.
Defined.

(** [read(k)] of a file object, [k >= 0]: the bytes from the position
    on, as far as there are any. *)
Lemma io_read_eq (k : Z) (f : io.file) :
  0 <= k ->
  io.read (Some k) f
  = (inr (py_slice (io.content f) (io.tell f) (io.tell f + k)),
     io.set_fpos
       (io.tell f + len (py_slice (io.content f) (io.tell f) (io.tell f + k)))
       f).
Proof.
  intros Hk. rewrite io_read_count by exact Hk. cbv zeta.
  rewrite io_read_slice by exact Hk. reflexivity.
Qed.

(** Reading all of a bounded view of a file from its start. *)
Lemma view_read_all (ofs size : Z) (b : bool) (f : io.file) :
  0 <= ofs -> 0 <= size -> ofs + size <= len (io.content f) ->
  (seek 0 SEEK_SET ;;; read None)
    (FileReader.mk (StreamRange Raw ofs (Some size)) b, f)
  = (inr (Some (py_slice (io.content f) ofs (ofs + size))),
     (FileReader.mk (StreamRange Raw ofs (Some size)) (size =? 0),
      io.set_fpos (ofs + size) f)).
Proof.
  intros Ho Hs Hl. unfold bind at 1.
  cbn [seek read FileReader_BaseReader].
  unfold FileReader.seek, bind, FileReader.set_eof, modify,
    FileReader.on_file.
  cbn [fst snd FileReader.fh StreamRange fh_seek FileReader._eof].
  unfold bind. rewrite Z.eqb_refl.
  rewrite io_seek_set by lia. unfold ret.
  unfold FileReader.read. cbn [fst snd FileReader._eof FileReader.fh].
  unfold bind, FileReader.on_file. unfold StreamRange.
  cbn [fst snd FileReader.fh fh_read fh_tell].
  rewrite io_tell_set_fpos by lia.
  replace (ofs + size - ofs - (ofs + 0 - ofs)) with size by lia.
  rewrite io_read_eq by lia. norm_file. rewrite Z.add_0_r.
  cbn [andb].
  assert (Hlen : len (py_slice (io.content f) ofs (ofs + size)) = size).
  { rewrite py_slice_segment by lia. rewrite len_firstn, len_skipn. lia. }
  rewrite Hlen. unfold FileReader.set_eof, modify, ret.
  destruct (Z.eqb_spec size 0) as [Hz|Hz]; reflexivity.
Qed.

(** The object [enumentries] makes of an entry that keeps a payload. *)
Lemma enum_payload_entry (r : FileReader.t) (b : bool)
    (f : io.file) (ent : @BsufEntry FileReader.t) :
  let ofs := ent_ofs ent in
  let size := ent_size ent in
  entfh ent = FileReader.mk (StreamRange Raw ofs (Some size)) b ->
  0 <= ofs -> 0 <= size -> ofs + size <= len (io.content f) ->
  ~ In (ent_type ent) [3; 6; 13; 20] ->
  exists obj,
    enum_entry ent (r, f)
    = (inr (obj,
            mkBsufEntry size (ent_type ent) ofs
              (FileReader.mk (StreamRange Raw ofs (Some size)) (size =? 0))
              (ent_checksum ent)),
       (r, io.set_fpos (ofs + size) f)) /\
    payload_of obj = Some (Some (py_slice (io.content f) ofs (ofs + size))).
Proof.
  intros ofs size Hfh Ho Hs Hl Ht. subst ofs size.
  pose proof (view_read_all _ _ b f Ho Hs Hl) as Hv.
  unfold bind in Hv. cbn [seek read FileReader_BaseReader] in Hv.
  unfold enum_entry, within, bind.
  cbn [enter this FileReader_BaseReader fst snd]. rewrite Hfh.
  cbn [seek FileReader_BaseReader].
  destruct (FileReader.seek 0 SEEK_SET _) as [[x|z] s1] eqn:Hseek;
    [discriminate|].
  unfold entry_init.
  repeat match goal with
  | |- context [ent_type ent =? ?k] =>
      destruct (Z.eqb_spec (ent_type ent) k) as [He|He];
      [try (exfalso; apply Ht; rewrite He; cbn [In]; tauto)|clear He]
  end;
  unfold bind; cbn [read FileReader_BaseReader]; rewrite Hv;
  unfold ret; cbn [fst snd]; eexists; split; reflexivity.
Qed.

(** X17: for an entry of a class that keeps a payload, whose view lies
    inside the file, [enumentries] yields an object whose payload is
    exactly the file's bytes [ofs, ofs + size); the file is left
    behind the payload, the caller's own reader is untouched, and the
    entry's reader has its flag set only if the payload is empty. *)
Theorem entry_payload_is_file_bytes (r : FileReader.t) (b : bool)
    (f : io.file) (ent : @BsufEntry FileReader.t) :
  let ofs := ent_ofs ent in
  let size := ent_size ent in
  entfh ent = FileReader.mk (StreamRange Raw ofs (Some size)) b ->
  0 <= ofs -> 0 <= size -> ofs + size <= len (io.content f) ->
  ~ In (ent_type ent) [3; 6; 13; 20] ->
  exists obj,
    enum_entry ent (r, f)
    = (inr (obj,
            mkBsufEntry size (ent_type ent) ofs
              (FileReader.mk (StreamRange Raw ofs (Some size)) (size =? 0))
              (ent_checksum ent)),
       (r, io.set_fpos (ofs + size) f)) /\
    payload_of obj = Some (Some (py_slice (io.content f) ofs (ofs + size))).
Proof. exact (enum_payload_entry r b f ent). Qed.

Lemma entry_payload_is_file_bytes_witness :
  exists obj,
    enum_entry
      (mkBsufEntry 6 0 22 (FileReader.__init__ (StreamRange Raw 22 (Some 6))) 0)
      (file_of io.OSFile one_entry_buffer)
    = (inr (obj,
            mkBsufEntry 6 0 22
              (FileReader.mk (StreamRange Raw 22 (Some 6)) false) 0),
       (FileReader.__init__ Raw,
        io.set_fpos 28 (io.mkfile io.OSFile one_entry_buffer 0))) /\
    payload_of obj = Some (Some abcdef).
Proof.
  apply (entry_payload_is_file_bytes (FileReader.__init__ Raw) false
           (io.mkfile io.OSFile one_entry_buffer 0)
           (mkBsufEntry 6 0 22
              (FileReader.__init__ (StreamRange Raw 22 (Some 6))) 0)).
  - reflexivity.
  - cbn. lia.
  - cbn. lia.
  - vm_compute. discriminate.
  - cbn. intros [H|[H|[H|[H|[]]]]]; discriminate.
Defined.

(** The names [savefirmware] makes *)
Lemma firmware_name_examples :
  fmt_04x 0x300 = "0300" /\ fmt_04x (-1) = "-001" /\ fmt_04x 0x12345 = "12345"
  /\ fmt_04x 0 = "0000" /\ fmt_int (-3) = "-3" /\ fmt_int 0 = "0"
  /\ firmware_name "out" 0x300 (4, -1, 1234) = "out/fw0300-4.-1.1234.bin".
Proof. vm_compute. repeat split. Qed.

(** ** Saving *)

Lemma py_slice_clamp {A} (l : list A) (a b : Z) :
  0 <= a -> a <= b -> len l <= b -> py_slice l a b = py_slice l a (len l).
Proof.
  intros Ha Hab Hb. pose proof (len_nonneg l) as Hl.
  destruct (Z.le_gt_cases a (len l)) as [Hal|Hal].
  - rewrite !py_slice_segment by lia.
    rewrite !firstn_all2; [reflexivity| |];
      rewrite length_skipn; unfold len in *; lia.
  - unfold py_slice, slice_bound.
    destruct (Z.ltb_spec a 0); [lia|].
    destruct (Z.ltb_spec b 0); [lia|].
    destruct (Z.ltb_spec (len l) 0); [lia|].
    rewrite !skipn_all2 by (unfold len in *; lia).
    rewrite !firstn_nil. reflexivity.
Qed.

(** The chunks [copyfile] asks for *)
Lemma io_read_upto (k : Z) (f : io.file) :
  0 <= k -> io.tell f <= len (io.content f) ->
  let q := io.tell f in
  let E := len (io.content f) in
  io.read (Some k) f
  = (inr (py_slice (io.content f) q (Z.min (q + k) E)),
     io.set_fpos (Z.min (q + k) E) f).
Proof.
  intros Hk Hq q E. subst q E. pose proof (io_tell_nonneg f) as H0.
  rewrite io_read_eq by exact Hk.
  destruct (Z.le_gt_cases (io.tell f + k) (len (io.content f))) as [H|H].
  - rewrite Z.min_l by lia. rewrite len_py_slice by lia.
    do 2 f_equal. lia.
  - rewrite Z.min_r by lia.
    rewrite (py_slice_clamp _ _ (io.tell f + k)) by lia.
    rewrite len_py_slice by lia. do 2 f_equal. lia.
Qed.

Lemma ofh_write_open (fn : string) (d old : bytes) (fs : filesystem) :
  fs !! fn = Some old -> ofh_write fn d fs = <[fn := old ++ d]> fs.
Proof. intros H. unfold ofh_write. unfold bytes in *. rewrite H. reflexivity. Qed.

Section window.
Variables (h : handle) (c : bytes) (E : Z).
Hypothesis HE : E <= len c.
Hypothesis Hreads : forall f k,
  io.content f = c -> 0 <= k -> io.tell f <= E ->
  fh_read h (Some k) f
  = (inr (py_slice c (io.tell f) (Z.min (io.tell f + k) E)),
     io.set_fpos (Z.min (io.tell f + k) E) f).

Lemma copyfile_flag_set (fuel : nat) (fn : string) (f : io.file)
    (fs : filesystem) :
  copyfile (S fuel) fn ((FileReader.mk h true, f), fs)
  = Some (inr tt, ((FileReader.mk h true, f), fs)).
Proof. reflexivity. Qed.

Lemma copyfile_chunks (fn : string) :
  forall (fuel : nat) (f : io.file) (fs : filesystem) (old : bytes),
    io.content f = c -> io.tell f <= E -> fs !! fn = Some old ->
    (E - io.tell f) / 0x10000 + 2 <= Z.of_nat fuel ->
    copyfile fuel fn ((FileReader.mk h false, f), fs)
    = Some (inr tt,
            ((FileReader.mk h true,
              io.set_fpos
                (io.tell f + (E - io.tell f) / 0x10000 * 0x10000) f),
             <[fn := old ++ py_slice c (io.tell f) E]> fs)).
Proof.
  induction fuel as [|fuel IH]; intros f fs old Hc Hq Hfn Hfuel.
  - pose proof (Z.div_pos (E - io.tell f) 0x10000). lia.
  - pose proof (io_tell_nonneg f) as H0.
    cbn [copyfile fst snd]. rewrite FileReader_read_cases.
    unfold finds_less. cbn [fst snd FileReader.fh].
    rewrite (Hreads f 0x10000 Hc) by lia.
    destruct (Z.le_gt_cases 0x10000 (E - io.tell f)) as [Hfull|Hshort].
    + (* a full chunk *)
      rewrite Z.min_l by lia.
      assert (Hlen : len (py_slice c (io.tell f) (io.tell f + 0x10000))
                     = 0x10000) by (rewrite len_py_slice; lia).
      rewrite Hlen. cbn [Z.ltb Z.compare Pos.compare Pos.compare_cont andb].
      destruct (py_slice c (io.tell f) (io.tell f + 0x10000))
        as [|b0 d0] eqn:Hd; [discriminate Hlen|].
      rewrite <- Hd. clear Hlen Hd b0 d0.
      set (d := py_slice c (io.tell f) (io.tell f + 0x10000)) in *.
      assert (Hdiv : (E - io.tell f) / 0x10000
                     = (E - (io.tell f + 0x10000)) / 0x10000 + 1).
      { replace (E - io.tell f)
          with (E - (io.tell f + 0x10000) + 1 * 0x10000) by lia.
        rewrite Z.div_add by lia. reflexivity. }
      rewrite (IH _ _ (old ++ d)).
      * rewrite io_tell_set_fpos by lia. rewrite io_set_fpos_twice.
        rewrite (ofh_write_open _ _ _ _ Hfn).
        unfold filesystem, bytes in *. rewrite insert_insert_eq.
        rewrite <- app_assoc.
        pose proof (py_slice_split c (io.tell f) 0x10000
                      (E - (io.tell f + 0x10000))) as Hs.
        replace (io.tell f + 0x10000 + (E - (io.tell f + 0x10000)))
          with E in Hs by lia.
        unfold d. rewrite Hs by lia. rewrite Hdiv.
        replace (io.tell f + 0x10000
                 + (E - (io.tell f + 0x10000)) / 0x10000 * 0x10000)
          with (io.tell f
                + ((E - (io.tell f + 0x10000)) / 0x10000 + 1) * 0x10000)
          by lia.
        reflexivity.
      * exact Hc.
      * rewrite io_tell_set_fpos by lia. lia.
      * rewrite (ofh_write_open _ _ _ _ Hfn). apply lookup_insert_eq.
      * rewrite io_tell_set_fpos by lia. lia.
    + (* the last chunk, short or empty *)
      rewrite Z.min_r by lia.
      assert (Hlen : len (py_slice c (io.tell f) E) = E - io.tell f)
        by (rewrite len_py_slice; lia).
      rewrite Hlen.
      assert (Hlt : (E - io.tell f <? 0x10000) = true)
        by (apply Z.ltb_lt; lia).
      rewrite Hlt. cbn [Z.ltb Z.compare andb].
      rewrite Z.div_small in Hfuel by lia.
      rewrite Z.div_small by lia. rewrite Z.add_0_r, io_set_fpos_tell.
      destruct (py_slice c (io.tell f) E) as [|b d] eqn:Hd.
      * rewrite app_nil_r. unfold filesystem, bytes in *.
        rewrite insert_id by exact Hfn. reflexivity.
      * destruct fuel as [|fuel]; [lia|].
        rewrite copyfile_flag_set. rewrite (ofh_write_open _ _ _ _ Hfn).
        reflexivity.
Qed.



Lemma window_read (k : Z) (f : io.file) :
  io.content f = c -> 0 <= k -> io.tell f + k <= E ->
  read (Some k) (FileReader.mk h false, f)
  = (inr (Some (py_slice c (io.tell f) (io.tell f + k))),
     (FileReader.mk h false, io.set_fpos (io.tell f + k) f)).
Proof.
  intros Hc Hk Hq. pose proof (io_tell_nonneg f) as H0.
  cbn [read FileReader_BaseReader].
  apply FileReader_read_full.
  - rewrite (Hreads f k Hc) by lia. rewrite Z.min_l by lia. reflexivity.
  - rewrite len_py_slice; lia.
Qed.

Lemma window_field (fmt : string) (cd : Struct.code) (f : io.file) :
  Struct.parse fmt = Some (Struct.LittleEndian, [cd]) ->
  io.content f = c ->
  io.tell f + Z.of_nat (Struct.code_size cd) <= E ->
  let k := Z.of_nat (Struct.code_size cd) in
  (d <- read (Some k) ;; unpack1 fmt d) (FileReader.mk h false, f)
  = (inr (Struct.field_value Struct.LittleEndian cd
            (py_slice c (io.tell f) (io.tell f + k))),
     (FileReader.mk h false, io.set_fpos (io.tell f + k) f)).
Proof.
  intros Hp Hc Hq k. subst k. pose proof (io_tell_nonneg f) as H0.
  eapply read_one_field; [|exact Hp|].
  - apply window_read; [exact Hc|lia|exact Hq].
  - apply Nat2Z.inj. fold (len (py_slice c (io.tell f)
                                  (io.tell f + Z.of_nat (Struct.code_size cd)))).
    rewrite len_py_slice; lia.
Qed.

Lemma window_read16le (f : io.file) :
  io.content f = c -> io.tell f + 2 <= E ->
  read16le (FileReader.mk h false, f)
  = (inr (Struct.le_value (py_slice c (io.tell f) (io.tell f + 2))),
     (FileReader.mk h false, io.set_fpos (io.tell f + 2) f)).
Proof.
  intros Hc Hq. unfold read16le.
  exact (window_field "<H" Struct.c_H f eq_refl Hc Hq).
Qed.

Lemma window_reads16le (f : io.file) :
  io.content f = c -> io.tell f + 2 <= E ->
  reads16le (FileReader.mk h false, f)
  = (inr (Struct.field_value Struct.LittleEndian Struct.c_h
            (py_slice c (io.tell f) (io.tell f + 2))),
     (FileReader.mk h false, io.set_fpos (io.tell f + 2) f)).
Proof.
  intros Hc Hq. unfold reads16le.
  exact (window_field "<h" Struct.c_h f eq_refl Hc Hq).
Qed.

Lemma window_version_triple (f : io.file) :
  io.content f = c -> io.tell f + 6 <= E ->
  version_triple (FileReader.mk h false, f)
  = (inr (version_at c (io.tell f)),
     (FileReader.mk h false, io.set_fpos (io.tell f + 6) f)).
Proof.
  intros Hc Hq. pose proof (io_tell_nonneg f) as H0.
  unfold version_triple, bind.
  rewrite window_reads16le by (assumption || lia).
  rewrite window_reads16le by (norm_file; assumption || lia).
  rewrite window_reads16le by (norm_file; assumption || lia).
  norm_file. unfold ret, version_at, int16_at.
  replace (io.tell f + 2 + 2) with (io.tell f + 4) by lia.
  replace (io.tell f + 4 + 2) with (io.tell f + 6) by lia.
  reflexivity.
Qed.

End window.

Lemma raw_reads (f : io.file) (k : Z) :
  0 <= k -> io.tell f <= len (io.content f) ->
  fh_read Raw (Some k) f
  = (inr (py_slice (io.content f) (io.tell f)
            (Z.min (io.tell f + k) (len (io.content f)))),
     io.set_fpos (Z.min (io.tell f + k) (len (io.content f))) f).
Proof. intros Hk Hq. cbn [fh_read]. apply io_read_upto; assumption. Qed.

(** A bounded view hands over the bytes up to its end. *)
Lemma view_reads (s e : Z) (f : io.file) (k : Z) :
  e <= len (io.content f) -> 0 <= k -> io.tell f <= e ->
  fh_read (Range Raw s (Some e)) (Some k) f
  = (inr (py_slice (io.content f) (io.tell f) (Z.min (io.tell f + k) e)),
     io.set_fpos (Z.min (io.tell f + k) e) f).
Proof.
  intros He Hk Hq. pose proof (io_tell_nonneg f) as H0.
  cbn [fh_read fh_tell].
  replace (e - s - (io.tell f - s)) with (e - io.tell f) by lia.
  destruct (Z.gtb_spec k (e - io.tell f)) as [Hgt|Hle].
  - rewrite io_read_upto by lia. cbv zeta.
    rewrite Z.min_l by lia. rewrite Z.min_r by lia.
    replace (io.tell f + (e - io.tell f)) with e by lia. reflexivity.
  - rewrite io_read_upto by lia. cbv zeta.
    rewrite Z.min_l by lia. rewrite Z.min_l by lia. reflexivity.
Qed.

Lemma py_slice_to_end {A} (l : list A) (p : Z) :
  0 <= p -> py_slice l p (len l) = py_slice_from l p.
Proof.
  intros Hp. rewrite py_slice_from_skipn by exact Hp.
  pose proof (len_nonneg l) as Hl.
  destruct (Z.le_gt_cases p (len l)) as [H|H].
  - rewrite py_slice_segment by lia. apply firstn_all2.
    rewrite length_skipn. unfold len in *. lia.
  - unfold py_slice, slice_bound.
    destruct (Z.ltb_spec p 0); [lia|].
    destruct (Z.ltb_spec (len l) 0); [lia|].
    rewrite !skipn_all2 by (unfold len in *; lia).
    rewrite firstn_nil. reflexivity.
Qed.

(** X20: [copyfile] from a [FileReader] on a file object writes
    exactly the bytes from the position to the end of the file behind
    what the output file holds, in chunks of 0x10000 bytes, and stops;
    it leaves the reader with its flag set and the file at the start
    of the last chunk if that was short.  From a reader whose flag
    is set it copies nothing. *)
Theorem copyfile_copies_rest (fuel : nat) (fn : string) (f : io.file)
    (fs : filesystem) (old : bytes) :
  io.tell f <= len (io.content f) ->
  fs !! fn = Some old ->
  (len (io.content f) - io.tell f) / 0x10000 + 2 <= Z.of_nat fuel ->
  copyfile fuel fn ((FileReader.mk Raw false, f), fs)
  = Some (inr tt,
          ((FileReader.mk Raw true,
            io.set_fpos
              (io.tell f
               + (len (io.content f) - io.tell f) / 0x10000 * 0x10000) f),
           <[fn := old ++ py_slice_from (io.content f) (io.tell f)]> fs)) /\
  copyfile fuel fn ((FileReader.mk Raw true, f), fs)
  = Some (inr tt, ((FileReader.mk Raw true, f), fs)).
Proof.
  intros Hq Hfn Hfuel. pose proof (io_tell_nonneg f) as H0. split.
  - rewrite <- py_slice_to_end by exact H0.
    apply (copyfile_chunks Raw (io.content f) (len (io.content f)));
      try assumption; try reflexivity; try lia.
    intros f' k Hc Hk Hq'. rewrite <- Hc. apply raw_reads; [exact Hk|].
    rewrite Hc. exact Hq'.
  - destruct fuel as [|fuel]; [|reflexivity].
    pose proof (Z.div_pos (len (io.content f) - io.tell f) 0x10000). lia.
Qed.

Lemma copyfile_copies_rest_witness :
  copyfile 2 "out/fw.bin"
    ((FileReader.mk Raw false, io.mkfile io.OSFile one_entry_buffer 22),
     {["out/fw.bin" := []]})
  = Some (inr tt,
          ((FileReader.mk Raw true,
            io.mkfile io.OSFile one_entry_buffer 22),
           {["out/fw.bin" := py_slice_from one_entry_buffer 22]})).
Proof.
  pose proof (copyfile_copies_rest 2 "out/fw.bin"
                (io.mkfile io.OSFile one_entry_buffer 22)
                {["out/fw.bin" := []]} []) as H.
  destruct H as [H _].
  - vm_compute. discriminate.
  - reflexivity.
  - vm_compute. discriminate.
  - rewrite H. vm_compute. reflexivity.
Defined.

Lemma FileReader_seek_set_eq (h : handle) (b : bool) (p : Z) (f : io.file) :
  0 <= handle_base h + p ->
  FileReader.seek p SEEK_SET (FileReader.mk h b, f)
  = (inr p, (FileReader.mk h false, io.set_fpos (handle_base h + p) f)).
Proof.
  intros Hp. unfold FileReader.seek, bind, FileReader.set_eof, modify,
    FileReader.on_file.
  cbn [fst snd FileReader.fh]. rewrite fh_seek_set by exact Hp. reflexivity.
Qed.

Lemma view_window (s e : Z) (c : bytes) :
  e <= len c ->
  forall f k,
    io.content f = c -> 0 <= k -> io.tell f <= e ->
    fh_read (Range Raw s (Some e)) (Some k) f
    = (inr (py_slice c (io.tell f) (Z.min (io.tell f + k) e)),
       io.set_fpos (Z.min (io.tell f + k) e) f).
Proof.
  intros He f k Hc Hk Hq. subst c. apply view_reads; assumption.
Qed.

Lemma sub_window (s e s2 : Z) (c : bytes) :
  e <= len c ->
  forall f k,
    io.content f = c -> 0 <= k -> io.tell f <= e ->
    fh_read (Range (Range Raw s (Some e)) s2 None) (Some k) f
    = (inr (py_slice c (io.tell f) (Z.min (io.tell f + k) e)),
       io.set_fpos (Z.min (io.tell f + k) e) f).
Proof. intros He f k. cbn [fh_read]. apply view_window. exact He. Qed.

(** The header of a firmware entry, read through the view of the
    entry *)
Lemma firmware_header_read (ofs size : Z) (f : io.file) :
  0 <= ofs -> ofs + size <= len (io.content f) ->
  let c := io.content f in
  let V := StreamRange Raw ofs (Some size) in
  (8 <= size ->
   entry_init 3 (FileReader.mk V false, io.set_fpos ofs f)
   = (inr (EntryType3Firmware (uint16_at c ofs) (version_at c (ofs + 2))
             (FileReader.mk (Range V 8 None) false)),
      (FileReader.mk V false, io.set_fpos (ofs + 8) f))) /\
  (20 <= size ->
   entry_init 6 (FileReader.mk V false, io.set_fpos ofs f)
   = (inr (EntryType6Firmware (uint16_at c ofs) (version_at c (ofs + 2))
             (version_at c (ofs + 8)) (version_at c (ofs + 14))
             (FileReader.mk (Range V 20 None) false)),
      (FileReader.mk V false, io.set_fpos (ofs + 20) f))).
Proof.
  intros Ho Hl c V. subst c V. unfold StreamRange.
  pose proof (view_window ofs (ofs + size) (io.content f) Hl) as Hw.
  split; intros Hs.
  - unfold entry_init. cbn [Z.eqb Pos.eqb]. unfold bind.
    rewrite (window_read16le _ _ _ Hl Hw) by (norm_file; reflexivity || lia).
    rewrite (window_version_triple _ _ _ Hl Hw)
      by (norm_file; reflexivity || lia).
    norm_file. cbn [subreader FileReader_BaseReader].
    unfold FileReader.subreader, FileReader.tell, FileReader.__init__,
      StreamRange, ret.
    cbn [fst snd FileReader.fh fh_tell]. norm_file.
    unfold uint16_at.
    replace (ofs + 2 + 6 - ofs) with 8 by lia.
    replace (ofs + 2 + 6) with (ofs + 8) by lia. reflexivity.
  - unfold entry_init. cbn [Z.eqb Pos.eqb]. unfold bind.
    rewrite (window_read16le _ _ _ Hl Hw) by (norm_file; reflexivity || lia).
    rewrite (window_version_triple _ _ _ Hl Hw)
      by (norm_file; reflexivity || lia).
    rewrite (window_version_triple _ _ _ Hl Hw)
      by (norm_file; reflexivity || lia).
    rewrite (window_version_triple _ _ _ Hl Hw)
      by (norm_file; reflexivity || lia).
    norm_file. cbn [subreader FileReader_BaseReader].
    unfold FileReader.subreader, FileReader.tell, FileReader.__init__,
      StreamRange, ret.
    cbn [fst snd FileReader.fh fh_tell]. norm_file.
    unfold uint16_at.
    replace (ofs + 2 + 6 + 6 + 6 - ofs) with 20 by lia.
    replace (ofs + 2 + 6 + 6 + 6) with (ofs + 20) by lia.
    replace (ofs + 2 + 6) with (ofs + 8) by lia.
    replace (ofs + 8 + 6) with (ofs + 14) by lia.
    reflexivity.
Qed.

Lemma firmware_save_window (fuel : nat) (savedir : string) (fwtype : Z)
    (v : Z * Z * Z) (ofs e hdr : Z) (b : bool) (f : io.file)
    (fs : filesystem) :
  let W := Range (Range Raw ofs (Some e)) hdr None in
  let start := ofs + hdr + (if fwtype =? 0x300 then 0x10 else 0) in
  let name := firmware_name savedir fwtype v in
  0 <= ofs -> 0 <= hdr -> start <= e -> e <= len (io.content f) ->
  (e - start) / 0x10000 + 2 <= Z.of_nat fuel ->
  exists p b',
    EntryType3Firmware_save fuel savedir fwtype v
      ((FileReader.mk W b, f), fs)
    = Some (inr tt,
            ((FileReader.mk W b', io.set_fpos p f),
             if path_exists fs name then fs
             else <[name := py_slice (io.content f) start e]> fs)).
Proof.
  intros W start name Ho Hh Hs He Hfuel.
  assert (Hsave : forall k, 0 <= k -> ofs + hdr + k <= e ->
            (e - (ofs + hdr + k)) / 0x10000 + 2 <= Z.of_nat fuel ->
            exists p b',
              match FileReader.seek k SEEK_SET (FileReader.mk W b, f) with
              | (inl x, s') => Some (inl x, (s', fs))
              | (inr _, s') => savefirmware fuel savedir fwtype v (s', fs)
              end
              = Some (inr tt,
                      ((FileReader.mk W b', io.set_fpos p f),
                       if path_exists fs name then fs
                       else <[name := py_slice (io.content f)
                                        (ofs + hdr + k) e]> fs))).
  { intros k Hk Hke Hf.
    rewrite FileReader_seek_set_eq by (subst W; cbn [handle_base]; lia).
    subst W. cbn [handle_base]. unfold savefirmware. cbn [snd fst].
    fold name. destruct (path_exists fs name) eqn:Hex.
    - eexists _, _. reflexivity.
    - unfold open_wb, modify. cbn [snd fst].
      rewrite (copyfile_chunks _ (io.content f) e He
                 (sub_window ofs e hdr (io.content f) He) name fuel _ _ []).
      + norm_file. unfold filesystem, bytes in *.
        rewrite insert_insert_eq. cbn [app].
        replace (0 + ofs + hdr + k) with (ofs + hdr + k) by lia.
        eexists _, _. reflexivity.
      + reflexivity.
      + norm_file. lia.
      + apply lookup_insert_eq.
      + norm_file. replace (0 + ofs + hdr + k) with (ofs + hdr + k) by lia.
        exact Hf. }
  unfold EntryType3Firmware_save. cbn [fst snd]. subst start.
  destruct (fwtype =? 0x300).
  - apply Hsave; lia.
  - replace (ofs + hdr + 0) with (ofs + hdr + 0) in * by lia.
    apply Hsave; lia.
Qed.

(** One round of the loop of [BsufFile.save] *)
Lemma save_one (fuel : nat) (savedir : string) (r : FileReader.t)
    (f : io.file) (fs : filesystem) (ent : @BsufEntry FileReader.t) :
  saveable (io.content f) ent ->
  len (io.content f) / 0x10000 + 2 <= Z.of_nat fuel ->
  exists p,
    match enum_entry ent (r, f) with
    | (inl e, s') => Some (inl e, (s', fs))
    | (inr (obj, _), s') => obj_save fuel savedir obj (s', fs)
    end
    = Some (inr tt,
            ((r, io.set_fpos p f),
             if is_firmware ent
                && negb (path_exists fs
                           (fst (firmware_file savedir (io.content f) ent)))
             then <[fst (firmware_file savedir (io.content f) ent)
                    := snd (firmware_file savedir (io.content f) ent)]> fs
             else fs)).
Proof.
  intros (Hfh & Ho & Hs & Hl & H13 & H20 & Hfw) Hfuel.
  destruct (entfh ent) as [hh b] eqn:Hent. cbn [FileReader.fh] in Hfh.
  subst hh.
  assert (Hfuel' : forall start, ent_ofs ent <= start ->
            (ent_ofs ent + ent_size ent - start) / 0x10000 + 2
            <= Z.of_nat fuel).
  { intros start Hst.
    assert ((ent_ofs ent + ent_size ent - start) / 0x10000
            <= len (io.content f) / 0x10000)
      by (apply Z.div_le_mono; lia).
    lia. }
  assert (Hseek : FileReader.seek 0 SEEK_SET
                    (FileReader.mk
                       (StreamRange Raw (ent_ofs ent) (Some (ent_size ent)))
                       b, f)
                  = (inr 0,
                     (FileReader.mk
                        (StreamRange Raw (ent_ofs ent) (Some (ent_size ent)))
                        false, io.set_fpos (ent_ofs ent) f))).
  { rewrite FileReader_seek_set_eq by (cbn [handle_base StreamRange]; lia).
    cbn [handle_base StreamRange].
    replace (0 + ent_ofs ent + 0) with (ent_ofs ent) by lia. reflexivity. }
  unfold is_firmware, firmware_file, firmware_start in *.
  cbn [fst snd].
  destruct (Z.eqb_spec (ent_type ent) 3) as [H3|H3];
    [|destruct (Z.eqb_spec (ent_type ent) 6) as [H6|H6]];
    cbn [orb andb] in *.
  - (* EntryType3Firmware *)
    specialize (Hfw eq_refl).
    assert (Hsz : 8 <= ent_size ent)
      by (destruct (uint16_at (io.content f) (ent_ofs ent) =? 768); lia).
    unfold enum_entry, within, bind.
    cbn [enter this FileReader_BaseReader fst snd seek]. rewrite Hent.
    rewrite Hseek. rewrite H3.
    rewrite (proj1 (firmware_header_read _ _ f Ho Hl) Hsz).
    unfold ret. cbn [fst snd obj_save]. unfold on_reader. cbn [fst snd].
    unfold StreamRange.
    destruct (firmware_save_window fuel savedir
                (uint16_at (io.content f) (ent_ofs ent))
                (version_at (io.content f) (ent_ofs ent + 2))
                (ent_ofs ent) (ent_ofs ent + ent_size ent) 8 false
                (io.set_fpos (ent_ofs ent + 8) f) fs)
      as (p & b' & Hsave); try (norm_file; lia).
    { norm_file. apply Hfuel'.
      destruct (uint16_at (io.content f) (ent_ofs ent) =? 768); lia. }
    rewrite Hsave. norm_file. exists p.
    destruct (path_exists fs _); reflexivity.
  - (* EntryType6Firmware *)
    specialize (Hfw eq_refl).
    assert (Hsz : 20 <= ent_size ent)
      by (destruct (uint16_at (io.content f) (ent_ofs ent) =? 768); lia).
    unfold enum_entry, within, bind.
    cbn [enter this FileReader_BaseReader fst snd seek]. rewrite Hent.
    rewrite Hseek. rewrite H6.
    rewrite (proj2 (firmware_header_read _ _ f Ho Hl) Hsz).
    unfold ret. cbn [fst snd obj_save]. unfold on_reader. cbn [fst snd].
    unfold StreamRange.
    destruct (firmware_save_window fuel savedir
                (uint16_at (io.content f) (ent_ofs ent))
                (version_at (io.content f) (ent_ofs ent + 2))
                (ent_ofs ent) (ent_ofs ent + ent_size ent) 20 false
                (io.set_fpos (ent_ofs ent + 20) f) fs)
      as (p & b' & Hsave); try (norm_file; lia).
    { norm_file. apply Hfuel'.
      destruct (uint16_at (io.content f) (ent_ofs ent) =? 768); lia. }
    unfold EntryType6Firmware_save.
    unfold EntryType3Firmware_save in Hsave.
    rewrite Hsave. norm_file. exists p.
    destruct (path_exists fs _); reflexivity.
  - (* the classes with a payload *)
    destruct (enum_payload_entry r b f ent) as (obj & Hen & Hpay);
      try assumption.
    { cbn [In]. intros [H|[H|[H|[H|[]]]]]; congruence. }
    rewrite Hen. exists (ent_ofs ent + ent_size ent).
    destruct obj; cbn [payload_of] in Hpay; try discriminate Hpay;
      reflexivity.
Qed.



(** X22: [BsufFile.save] stops at the first entry of type 13 or 20:
    [saveunique] ends in [NameError], so that the firmware of the
    entries before it has been written and nothing of the entries
    behind it is, whatever they hold. *)
Theorem BsufFile_save_stops_at_saveunique (fuel : nat) (savedir : string)
    (r : FileReader.t) (ent : @BsufEntry FileReader.t)
    (rest : list (@BsufEntry FileReader.t)) (b : bool) :
  forall (before : list (@BsufEntry FileReader.t)) (f : io.file)
         (fs : filesystem),
    Forall (saveable (io.content f)) before ->
    len (io.content f) / 0x10000 + 2 <= Z.of_nat fuel ->
    ent_type ent = 13 \/ ent_type ent = 20 ->
    entfh ent
      = FileReader.mk (StreamRange Raw (ent_ofs ent) (Some (ent_size ent))) b ->
    0 <= ent_ofs ent ->
    BsufFile_save fuel savedir (before ++ ent :: rest) ((r, f), fs)
    = Some (inl NameError,
            ((r, io.set_fpos (ent_ofs ent) f),
             saved savedir (io.content f) before fs)).
Proof.
  induction before as [|e0 before IH]; intros f fs Hall Hfuel Ht Hfh Ho.
  - cbn [app BsufFile_save saved fst snd].
    unfold enum_entry, within, bind.
    cbn [enter this FileReader_BaseReader fst snd seek]. rewrite Hfh.
    rewrite FileReader_seek_set_eq by (cbn [handle_base StreamRange]; lia).
    cbn [handle_base StreamRange].
    replace (0 + ent_ofs ent + 0) with (ent_ofs ent) by lia.
    unfold entry_init.
    destruct Ht as [-> | ->]; cbn [Z.eqb Pos.eqb]; reflexivity.
  - inversion Hall as [|? ? Hent Hrest]; subst.
    destruct (save_one fuel savedir r f fs e0 Hent Hfuel) as (p & Hone).
    cbn [app BsufFile_save saved fst snd]. unfold FileReader.state in *.
    destruct (enum_entry e0 (r, f)) as [[x|[obj ent']] s'];
      [discriminate Hone|].
    rewrite Hone.
    rewrite (IH (io.set_fpos p f)) by assumption.
    reflexivity.
Qed.

Lemma BsufFile_save_stops_at_saveunique_witness :
  BsufFile_save 2 "out"
    ([mkBsufEntry 30 3 22
        (FileReader.__init__ (StreamRange Raw 22 (Some 30))) 0]
     ++ mkBsufEntry 6 13 60
          (FileReader.__init__ (StreamRange Raw 60 (Some 6))) 0
     :: [mkBsufEntry 26 6 74
           (FileReader.__init__ (StreamRange Raw 74 (Some 26))) 0])
    ((FileReader.__init__ Raw, io.mkfile io.OSFile firmware_bsuf 0), ∅)
  = Some (inl NameError,
          ((FileReader.__init__ Raw, io.mkfile io.OSFile firmware_bsuf 60),
           {["out/fw0300-4.-1.1234.bin" := abcdef]})).
Proof.
  rewrite (BsufFile_save_stops_at_saveunique 2 "out" (FileReader.__init__ Raw)
             (mkBsufEntry 6 13 60
                (FileReader.__init__ (StreamRange Raw 60 (Some 6))) 0)
             [mkBsufEntry 26 6 74
                (FileReader.__init__ (StreamRange Raw 74 (Some 26))) 0]
             false).
  - vm_compute. reflexivity.
  - repeat constructor; vm_compute; congruence.
  - vm_compute. discriminate.
  - left. reflexivity.
  - reflexivity.
  - vm_compute. discriminate.
Defined.

(** ** What saving leaves alone *)

Lemma io_seek_content (ofs whence : Z) (f : io.file) :
  io.content (snd (io.seek ofs whence f)) = io.content f.
Proof.
  unfold io.seek.
  repeat match goal with
  | |- context [if ?c then _ else _] => destruct c
  | |- context [match io.fkind ?x with _ => _ end] => destruct (io.fkind x)
  end; reflexivity.
Qed.

Lemma fh_seek_content (h : handle) :
  forall ofs whence f,
    io.content (snd (fh_seek h ofs whence f)) = io.content f.
Proof.
  induction h as [|fh IH start e]; intros ofs whence f; cbn [fh_seek].
  - apply io_seek_content.
  - repeat match goal with
    | |- context [if ?c then _ else _] => destruct c
    | |- context [match ?x with Some _ => _ | None => _ end] => destruct x
    end;
    try reflexivity; unfold bind;
    match goal with
    | |- context [fh_seek fh ?o ?w f] =>
        pose proof (IH o w f) as Hc;
        destruct (fh_seek fh o w f) as [[?|?] ?]; exact Hc
    end.
Qed.

Lemma fh_read_content (h : handle) (n : option Z) (f : io.file) :
  io.content (snd (fh_read h n f)) = io.content f.
Proof.
  pose proof (fh_read_state h n f) as Hs.
  destruct (fh_read h n f) as [[x|d] f']; cbn [snd]; subst f'; reflexivity.
Qed.

Lemma keeps_ret {A} (a : A) : keeps_content (ret a).
Proof. intros s. reflexivity. Qed.

Lemma keeps_raise {A} (e : exn) : keeps_content (@raise _ A e).
Proof. intros s. reflexivity. Qed.

Lemma keeps_bind {A B} (m : M FileReader.state A)
    (k : A -> M FileReader.state B) :
  keeps_content m -> (forall a, keeps_content (k a)) ->
  keeps_content (bind m k).
Proof.
  intros Hm Hk s. unfold bind. specialize (Hm s).
  destruct (m s) as [[x|a] s1]; [exact Hm|].
  rewrite (Hk a s1). exact Hm.
Qed.

Lemma keeps_FileReader_read (n : option Z) (throw : bool) :
  keeps_content (FileReader.read n throw).
Proof.
  intros [[h [|]] f].
  - unfold FileReader.read. cbn [fst snd FileReader._eof].
    destruct throw; reflexivity.
  - rewrite FileReader_read_cases.
    pose proof (fh_read_content h n f) as Hc.
    destruct (fh_read h n f) as [[x|d] f']; [reflexivity|].
    destruct (finds_less n _); [reflexivity|exact Hc].
Qed.

Lemma keeps_FileReader_seek (pos whence : Z) :
  keeps_content (FileReader.seek pos whence).
Proof.
  intros [[h e] f].
  unfold FileReader.seek, bind, FileReader.set_eof, modify,
    FileReader.on_file.
  cbn [fst snd FileReader.fh].
  pose proof (fh_seek_content h pos whence f) as Hc.
  destruct (fh_seek h pos whence f) as [[x|z] f']; exact Hc.
Qed.

Lemma keeps_unpack1 (fmt : string) (d : option bytes) :
  keeps_content (unpack1 fmt d).
Proof.
  unfold unpack1. destruct (Struct.unpack fmt d) as [x|[|v vs]];
    intros s; reflexivity.
Qed.

Lemma keeps_read16le : keeps_content read16le.
Proof.
  apply keeps_bind; [apply keeps_FileReader_read|].
  intros d. apply keeps_unpack1.
Qed.

Lemma keeps_reads16le : keeps_content reads16le.
Proof.
  apply keeps_bind; [apply keeps_FileReader_read|].
  intros d. apply keeps_unpack1.
Qed.

Lemma keeps_version_triple : keeps_content version_triple.
Proof.
  unfold version_triple.
  repeat (apply keeps_bind; [apply keeps_reads16le|intros ?]).
  apply keeps_ret.
Qed.

Lemma keeps_subreader (n : option Z) :
  keeps_content (subreader (S := FileReader.state) n).
Proof. intros s. reflexivity. Qed.

Lemma keeps_entry_init (type : Z) : keeps_content (entry_init type).
Proof.
  unfold entry_init.
  repeat match goal with
  | |- context [type =? ?k] => destruct (type =? k)
  end;
  repeat first
    [ apply keeps_ret
    | apply keeps_subreader
    | apply keeps_version_triple
    | apply keeps_read16le
    | apply keeps_FileReader_read
    | apply keeps_bind
    | intros ? ];
  intros s; reflexivity.
Qed.

Lemma within_keeps {A} (o : FileReader.t) (m : M FileReader.state A)
    (s : FileReader.state) :
  keeps_content m ->
  fst (snd (within o m s)) = fst s /\
  io.content (snd (snd (within o m s))) = io.content (snd s).
Proof.
  intros Hk. specialize (Hk (enter o s)). unfold within.
  destruct (m (enter o s)) as [[x|a] s1]; cbn [fst snd] in *;
    split; (reflexivity || exact Hk).
Qed.

(** [enumentries] hands the caller's reader back and leaves the bytes
    of the file alone, whatever the entry is. *)
Lemma enum_entry_keeps (ent : @BsufEntry FileReader.t)
    (s : FileReader.state) :
  fst (snd (enum_entry ent s)) = fst s /\
  io.content (snd (snd (enum_entry ent s))) = io.content (snd s).
Proof.
  unfold enum_entry, bind.
  pose proof (within_keeps (entfh ent)
                (seek 0 SEEK_SET ;;; entry_init (ent_type ent)) s) as Hw.
  destruct (within (entfh ent) _ s) as [[x|a] s1]; cbn [fst snd] in *;
    apply Hw;
    (apply keeps_bind; [apply keeps_FileReader_seek|];
     intros _; apply keeps_entry_init).
Qed.

(** [copyfile] touches no file but the one it writes to. *)
Lemma copyfile_keeps (fn : string) :
  forall (fuel : nat) (st st' : saving) (r : exn + unit),
    copyfile fuel fn st = Some (r, st') ->
    io.content (snd (fst st')) = io.content (snd (fst st)) /\
    forall k, k <> fn -> snd st' !! k = snd st !! k.
Proof.
  induction fuel as [|fuel IH]; intros st st' r Hc; [discriminate|].
  cbn [copyfile] in Hc.
  pose proof (keeps_FileReader_read (Some 0x10000) false (fst st)) as Hk.
  destruct (FileReader.read (Some 0x10000) false (fst st))
    as [[x|[[|b d]|]] s1]; cbn [snd] in Hk.
  - injection Hc as <- <-. cbn [fst snd]. auto.
  - injection Hc as <- <-. cbn [fst snd]. auto.
  - apply IH in Hc as [Hc1 Hc2]. cbn [fst snd] in *. split.
    + congruence.
    + intros k Hne. rewrite Hc2 by exact Hne. unfold ofh_write.
      apply lookup_insert_ne. congruence.
  - injection Hc as <- <-. cbn [fst snd]. auto.
Qed.

Lemma savefirmware_keeps (fuel : nat) (savedir : string) (fwtype : Z)
    (version : Z * Z * Z) (st st' : saving) (r : exn + unit) :
  savefirmware fuel savedir fwtype version st = Some (r, st') ->
  io.content (snd (fst st')) = io.content (snd (fst st)) /\
  forall k d, snd st !! k = Some d -> snd st' !! k = Some d.
Proof.
  unfold savefirmware. intros Hs.
  destruct (path_exists (snd st) _) eqn:Hex.
  - injection Hs as <- <-. auto.
  - apply copyfile_keeps in Hs as [Hc1 Hc2].
    unfold open_wb, modify in *. cbn [fst snd] in *. split; [exact Hc1|].
    intros k d Hk.
    assert (Hne : k <> firmware_name savedir fwtype version).
    { intros ->. unfold path_exists in Hex.
      apply bool_decide_eq_false in Hex. apply Hex. eauto. }
    rewrite Hc2 by exact Hne. rewrite <- Hk.
    apply lookup_insert_ne. congruence.
Qed.

Lemma firmware_save_keeps (fuel : nat) (savedir : string) (fwtype : Z)
    (version : Z * Z * Z) (st st' : saving) (r : exn + unit) :
  EntryType3Firmware_save fuel savedir fwtype version st = Some (r, st') ->
  io.content (snd (fst st')) = io.content (snd (fst st)) /\
  forall k d, snd st !! k = Some d -> snd st' !! k = Some d.
Proof.
  unfold EntryType3Firmware_save. intros Hs.
  destruct (fwtype =? 0x300);
    match type of Hs with
    | context [FileReader.seek ?p ?w (fst st)] =>
        pose proof (keeps_FileReader_seek p w (fst st)) as Hk;
        destruct (FileReader.seek p w (fst st)) as [[x|z] s1]
    end; cbn [snd] in Hk;
    try (injection Hs as <- <-; cbn [fst snd]; auto);
    apply savefirmware_keeps in Hs as [Hc1 Hc2]; cbn [fst snd] in *;
    (split; [congruence|exact Hc2]).
Qed.

Lemma obj_save_keeps (fuel : nat) (savedir : string)
    (obj : @entry_obj FileReader.t) (st st' : saving) (r : exn + unit) :
  obj_save fuel savedir obj st = Some (r, st') ->
  fst (fst st') = fst (fst st) /\
  io.content (snd (fst st')) = io.content (snd (fst st)) /\
  forall k d, snd st !! k = Some d -> snd st' !! k = Some d.
Proof.
  intros Hs.
  destruct obj; cbn [obj_save] in Hs;
    try (injection Hs as <- <-; auto).
  - unfold on_reader in Hs.
    destruct (EntryType3Firmware_save _ _ _ _ _) as [[r1 st1]|] eqn:Hf;
      [|discriminate].
    injection Hs as <- <-. apply firmware_save_keeps in Hf as [Hc1 Hc2].
    cbn [fst snd] in *. auto.
  - unfold on_reader in Hs.
    destruct (EntryType6Firmware_save _ _ _ _ _) as [[r1 st1]|] eqn:Hf;
      [|discriminate].
    injection Hs as <- <-.
    apply (firmware_save_keeps fuel savedir fwtype version1) in Hf
      as [Hc1 Hc2].
    cbn [fst snd] in *. auto.
Qed.

(** X23: whatever the entries are, and however it ends,
    [BsufFile.save] changes no byte of the file it reads, changes or
    removes no file that was in the directory before, and leaves the
    caller's reader as it was. *)
Theorem BsufFile_save_keeps_files (fuel : nat) (savedir : string)
    (ents : list (@BsufEntry FileReader.t)) :
  forall (st st' : saving) (r : exn + unit),
    BsufFile_save fuel savedir ents st = Some (r, st') ->
    fst (fst st') = fst (fst st) /\
    io.content (snd (fst st')) = io.content (snd (fst st)) /\
    forall fn d, snd st !! fn = Some d -> snd st' !! fn = Some d.
Proof.
  induction ents as [|ent rest IH]; intros st st' r Hs.
  - injection Hs as <- <-. auto.
  - cbn [BsufFile_save] in Hs.
    pose proof (enum_entry_keeps ent (fst st)) as [He1 He2].
    destruct (enum_entry ent (fst st)) as [[x|[obj ent']] s1];
      cbn [fst snd] in He1, He2.
    + injection Hs as <- <-. cbn [fst snd]. auto.
    + destruct (obj_save fuel savedir obj (s1, snd st))
        as [[[x|[]] st1]|] eqn:Ho; [| |discriminate].
      * injection Hs as <- <-.
        apply obj_save_keeps in Ho as (H1 & H2 & H3). cbn [fst snd] in *.
        repeat split; (congruence || exact H3).
      * apply obj_save_keeps in Ho as (H1 & H2 & H3).
        apply IH in Hs as (H4 & H5 & H6). cbn [fst snd] in *.
        repeat split; try congruence.
        intros fn d Hfn. apply H6, H3, Hfn.
Qed.

Lemma BsufFile_save_keeps_files_witness :
  exists r st',
    BsufFile_save 2 "out"
      [mkBsufEntry 30 3 22
         (FileReader.__init__ (StreamRange Raw 22 (Some 30))) 0;
       mkBsufEntry 26 6 74
         (FileReader.__init__ (StreamRange Raw 74 (Some 26))) 0]
      ((FileReader.__init__ Raw, io.mkfile io.OSFile firmware_bsuf 0),
       {["out/fw0300-4.-1.1234.bin" := []]})
    = Some (r, st') /\
    io.content (snd (fst st')) = firmware_bsuf /\
    snd st' !! "out/fw0300-4.-1.1234.bin" = Some [].
Proof.
  destruct (BsufFile_save 2 "out"
      [mkBsufEntry 30 3 22
         (FileReader.__init__ (StreamRange Raw 22 (Some 30))) 0;
       mkBsufEntry 26 6 74
         (FileReader.__init__ (StreamRange Raw 74 (Some 26))) 0]
      ((FileReader.__init__ Raw, io.mkfile io.OSFile firmware_bsuf 0),
       {["out/fw0300-4.-1.1234.bin" := []]})) as [[r st']|] eqn:E.
  - exists r, st'. split; [reflexivity|].
    apply BsufFile_save_keeps_files in E as (_ & H2 & H3).
    split; [exact H2|]. apply H3. reflexivity.
  - exfalso. vm_compute in E. discriminate.
Defined.

(** ** Zero-terminated strings *)

Lemma find_from_found (pre post : bytes) :
  forall i, ~ In x00 pre ->
            find_from (pre ++ x00 :: post) i = i + len pre.
Proof.
  induction pre as [|b pre IH]; intros i Hn; cbn [app find_from].
  - cbn. unfold len. cbn. lia.
  - destruct (Byte.eqb b x00) eqn:Hb.
    + apply Byte.byte_dec_bl in Hb. subst b. exfalso. apply Hn. left.
      reflexivity.
    + rewrite IH by (intros Hin; apply Hn; right; exact Hin).
      unfold len. cbn [length]. lia.
Qed.

Lemma find_from_none (l : bytes) :
  forall i, ~ In x00 l -> find_from l i = -1.
Proof.
  induction l as [|b l IH]; intros i Hn; cbn [find_from]; [reflexivity|].
  destruct (Byte.eqb b x00) eqn:Hb.
  - apply Byte.byte_dec_bl in Hb. subst b. exfalso. apply Hn. left.
    reflexivity.
  - apply IH. intros Hin. apply Hn. right. exact Hin.
Qed.

Lemma slice_bound_inside (n p : Z) : 0 <= p <= n -> slice_bound n p = p.
Proof. intros Hp. unfold slice_bound. destruct (Z.ltb_spec p 0); lia. Qed.

Lemma skipn_nonempty_bound {A} (l : list A) (p : Z) (x : A) (rest : list A) :
  0 <= p -> skipn (Z.to_nat p) l = x :: rest -> p < len l.
Proof.
  intros Hp Hs. destruct (Z.lt_ge_cases p (len l)) as [H|H]; [exact H|].
  rewrite skipn_all2 in Hs by (unfold len in H; lia). discriminate.
Qed.

Lemma byte_value_zero (b : byte) : Z.of_N (Byte.to_N b) = 0 -> b = x00.
Proof.
  intros H. destruct b; (reflexivity || (exfalso; cbv in H; discriminate H)).
Qed.

Lemma bytes_of_ints_snoc (data : list Z) (done : bytes) (b : byte) :
  bytes_of_ints data = inr done ->
  bytes_of_ints (data ++ [Z.of_N (Byte.to_N b)]) = inr (done ++ [b]).
Proof.
  unfold bytes_of_ints. intros H.
  destruct (forallb _ data) eqn:Hf; [|discriminate]. injection H as <-.
  rewrite forallb_app, Hf. cbn [forallb andb].
  pose proof (byte_value_bound b) as Hb.
  destruct (Z.leb_spec 0 (Z.of_N (Byte.to_N b))); [|lia].
  destruct (Z.ltb_spec (Z.of_N (Byte.to_N b)) 256); [|lia].
  cbn [andb]. rewrite map_app. cbn [map].
  replace (Z.of_N (Byte.to_N b)) with (Z.of_N (Byte.to_N b) + 256 * 0)
    by lia.
  rewrite byte_of_Z_of_byte. reflexivity.
Qed.

(** [readbyte] of a [FileReader] on a file object that has a byte at
    the position *)
Lemma FileReader_readbyte_at (f : io.file) (b : byte) (rest : bytes) :
  py_slice_from (io.content f) (io.tell f) = b :: rest ->
  FileReader.readbyte (FileReader.mk Raw false, f)
  = (inr (Z.of_N (Byte.to_N b)),
     (FileReader.mk Raw false, io.set_fpos (io.tell f + 1) f)).
Proof.
  intros Hs. pose proof (io_tell_nonneg f) as H0.
  rewrite py_slice_from_skipn in Hs by exact H0.
  pose proof (skipn_nonempty_bound _ _ _ _ H0 Hs) as Hlt.
  assert (Hb : py_slice (io.content f) (io.tell f) (io.tell f + 1) = [b]).
  { rewrite py_slice_segment by lia.
    replace (io.tell f + 1 - io.tell f) with 1 by lia.
    rewrite Hs. reflexivity. }
  unfold FileReader.readbyte, bind.
  rewrite (FileReader_read_full Raw f (io.set_fpos (io.tell f + 1) f) [b]).
  - rewrite (unpack1_field ">B" Struct.BigEndian Struct.c_B [b])
      by reflexivity.
    unfold ret, Struct.field_value.
    cbn [Struct.code_signed andb rev app Struct.le_value].
    do 2 f_equal. lia.
  - rewrite raw_reads by lia. rewrite Z.min_l by lia. rewrite Hb.
    reflexivity.
  - reflexivity.
Qed.

(** ... and at the end of the file *)
Lemma FileReader_readbyte_end (f : io.file) :
  len (io.content f) <= io.tell f ->
  FileReader.readbyte (FileReader.mk Raw false, f)
  = (inl StructError, (FileReader.mk Raw true, f)).
Proof.
  intros Hq. unfold FileReader.readbyte, bind.
  destruct (FileReader_read_short_returns 1 f) as (bs & Hr & Hl).
  { unfold available. lia. }
  rewrite Hr. unfold available in Hl.
  rewrite Z.max_l in Hl by lia.
  destruct bs as [|x bs]; [|unfold len in Hl; cbn in Hl; lia].
  reflexivity.
Qed.

Section readzstr_properties.
Context {T : Type} (decode : bytes -> exn + T).

Lemma DataReader_readzstr_found (r : DataReader.t) (pre post : bytes) :
  0 <= DataReader.pos r ->
  py_slice_from (DataReader.data r) (DataReader.pos r) = pre ++ x00 :: post ->
  ~ In x00 pre ->
  DataReader_readzstr decode r
  = (decode pre,
     DataReader.mk (DataReader.data r) (DataReader.pos r + len pre + 1)
       (DataReader._eof r)).
Proof.
  intros Hp Hs Hn. rewrite py_slice_from_skipn in Hs by exact Hp.
  assert (Hlt : DataReader.pos r < len (DataReader.data r)).
  { destruct pre; eapply skipn_nonempty_bound; eauto. }
  pose proof (len_nonneg pre) as Hpre.
  unfold DataReader_readzstr, find_zero.
  rewrite slice_bound_inside by lia. rewrite Hs.
  rewrite find_from_found by exact Hn.
  destruct (Z.eqb_spec (DataReader.pos r + len pre) (-1)) as [E|_]; [lia|].
  cbn [DataReader.data DataReader.pos].
  rewrite py_slice_segment by lia. rewrite Hs.
  replace (Z.to_nat (DataReader.pos r + len pre + 1 - 1 - DataReader.pos r))
    with (length pre) by (unfold len; lia).
  rewrite firstn_app, firstn_all, Nat.sub_diag. cbn [firstn].
  rewrite app_nil_r. reflexivity.
Qed.

Lemma DataReader_readzstr_rest (c : bytes) (p : Z) :
  0 <= p <= len c -> ~ In x00 (py_slice_from c p) ->
  DataReader_readzstr decode (DataReader.mk c p false)
  = (decode (py_slice_from c p), DataReader.mk c (len c) false).
Proof.
  intros Hp Hn. rewrite py_slice_from_skipn in * by lia.
  unfold DataReader_readzstr, find_zero.
  cbn [DataReader.data DataReader.pos DataReader._eof].
  rewrite slice_bound_inside by lia.
  rewrite find_from_none by exact Hn. cbn [Z.eqb].
  unfold bind, DataReader.read.
  cbn [DataReader.data DataReader.pos DataReader._eof].
  destruct (Z.gtb_spec (p + (len c - p)) (len c)) as [H|_]; [lia|].
  replace (p + (len c - p)) with (len c) by lia.
  replace (len c - (len c - p)) with p by lia.
  rewrite py_slice_to_end by lia. rewrite py_slice_from_skipn by lia.
  reflexivity.
Qed.

Lemma readzstr_loop_found (post : bytes) (txt : T) :
  forall (pre : bytes) (data : list Z) (done : bytes) (f : io.file)
         (fuel : nat),
    py_slice_from (io.content f) (io.tell f) = pre ++ x00 :: post ->
    ~ In x00 pre ->
    bytes_of_ints data = inr done ->
    decode (done ++ pre) = inr txt ->
    (length pre < fuel)%nat ->
    readzstr_loop decode fuel data (FileReader.mk Raw false, f)
    = Some (inr (Some txt),
            (FileReader.mk Raw false,
             io.set_fpos (io.tell f + len pre + 1) f)).
Proof.
  induction pre as [|b pre IH]; intros data done f fuel Hs Hn Hd Hdec Hfuel;
    (destruct fuel as [|fuel]; [cbn in Hfuel; lia|]);
    pose proof (io_tell_nonneg f) as H0;
    cbn [readzstr_loop]; unfold FileReader.eof;
    cbn [fst FileReader._eof]; unfold readzstr_try, bind;
    rewrite (FileReader_readbyte_at f _ _ Hs).
  - cbn [Z.eqb Byte.to_N Z.of_N]. unfold return_decoded. rewrite Hd.
    rewrite app_nil_r in Hdec. rewrite Hdec.
    unfold len. cbn [length]. rewrite Z.add_0_r. reflexivity.
  - destruct (Z.eqb_spec (Z.of_N (Byte.to_N b)) 0) as [Hz|Hz].
    { exfalso. apply Hn. left. apply byte_value_zero. exact Hz. }
    unfold ret.
    rewrite (IH (data ++ [Z.of_N (Byte.to_N b)]) (done ++ [b])
               (io.set_fpos (io.tell f + 1) f) fuel).
    + norm_file. do 4 f_equal. unfold len. cbn [length]. lia.
    + norm_file. rewrite py_slice_from_skipn in * by lia.
      replace (Z.to_nat (io.tell f + 1))
        with (Z.to_nat (io.tell f) + 1)%nat by lia.
      change skipn with (@drop byte).
      rewrite <- (drop_drop _ 1 (Z.to_nat (io.tell f))).
      change skipn with (@drop byte) in Hs. rewrite Hs. reflexivity.
    + intros Hin. apply Hn. right. exact Hin.
    + apply bytes_of_ints_snoc. exact Hd.
    + rewrite <- app_assoc. exact Hdec.
    + cbn [length] in Hfuel. lia.
Qed.

Lemma readzstr_loop_runs_out :
  forall (rest : bytes) (data : list Z) (f : io.file) (fuel : nat),
    py_slice_from (io.content f) (io.tell f) = rest ->
    io.tell f <= len (io.content f) ->
    ~ In x00 rest ->
    (length rest < fuel)%nat ->
    readzstr_loop decode fuel data (FileReader.mk Raw false, f)
    = Some (inl StructError,
            (FileReader.mk Raw true, io.set_fpos (len (io.content f)) f)).
Proof.
  induction rest as [|b rest IH]; intros data f fuel Hs Hq Hn Hfuel;
    (destruct fuel as [|fuel]; [cbn in Hfuel; lia|]);
    pose proof (io_tell_nonneg f) as H0;
    cbn [readzstr_loop]; unfold FileReader.eof;
    cbn [fst FileReader._eof]; unfold readzstr_try, bind.
  - assert (Hend : io.tell f = len (io.content f)).
    { rewrite py_slice_from_skipn in Hs by lia.
      apply (f_equal (@length byte)) in Hs.
      rewrite length_skipn in Hs. cbn in Hs. unfold len in *. lia. }
    rewrite FileReader_readbyte_end by lia.
    rewrite <- Hend, io_set_fpos_tell. reflexivity.
  - rewrite (FileReader_readbyte_at f _ _ Hs).
    destruct (Z.eqb_spec (Z.of_N (Byte.to_N b)) 0) as [Hz|Hz].
    { exfalso. apply Hn. left. apply byte_value_zero. exact Hz. }
    unfold ret.
    rewrite py_slice_from_skipn in Hs by lia.
    pose proof (skipn_nonempty_bound _ _ _ _ H0 Hs) as Hlt.
    rewrite (IH _ (io.set_fpos (io.tell f + 1) f) fuel).
    + norm_file. reflexivity.
    + norm_file. rewrite py_slice_from_skipn by lia.
      replace (Z.to_nat (io.tell f + 1))
        with (Z.to_nat (io.tell f) + 1)%nat by lia.
      change skipn with (@drop byte).
      rewrite <- (drop_drop _ 1 (Z.to_nat (io.tell f))).
      change skipn with (@drop byte) in Hs. rewrite Hs. reflexivity.
    + norm_file. lia.
    + intros Hin. apply Hn. right. exact Hin.
    + cbn [length] in Hfuel. lia.
Qed.

End readzstr_properties.

Section readzstr_theorems.
Context {T : Type} (decode : bytes -> exn + T).

(** X24: where a zero byte follows, [readzstr] returns on both readers
    the decoded bytes between the position and the first zero byte
    and leaves the reader right behind that byte; a [DataReader] does
    so even with its flag set. *)
Theorem readzstr_terminated (c pre post : bytes) (txt : T) (p : Z)
    (e : bool) (kind : io.kind) (fuel : nat) :
  0 <= p ->
  py_slice_from c p = pre ++ x00 :: post ->
  ~ In x00 pre ->
  decode pre = inr txt ->
  (length pre < fuel)%nat ->
  DataReader_readzstr decode (DataReader.mk c p e)
  = (inr txt, DataReader.mk c (p + len pre + 1) e) /\
  FileReader_readzstr decode fuel
    (FileReader.mk Raw false, io.mkfile kind c (Z.to_N p))
  = Some (inr (Some txt),
          (FileReader.mk Raw false,
           io.mkfile kind c (Z.to_N (p + len pre + 1)))).
Proof.
  intros Hp Hs Hn Hdec Hfuel. split.
  - rewrite (DataReader_readzstr_found decode (DataReader.mk c p e) pre post)
      by assumption.
    rewrite Hdec. reflexivity.
  - unfold FileReader_readzstr.
    rewrite (readzstr_loop_found decode post txt pre [] []
               (io.mkfile kind c (Z.to_N p)) fuel).
    + unfold io.set_fpos, io.tell. cbn [io.fkind io.content io.fpos].
      rewrite Z2N.id by exact Hp. reflexivity.
    + unfold io.tell. cbn [io.content io.fpos].
      rewrite Z2N.id by exact Hp. exact Hs.
    + exact Hn.
    + reflexivity.
    + exact Hdec.
    + exact Hfuel.
Qed.

(** X25: where no zero byte follows, the two readers part:
    [DataReader.readzstr] returns the decoded rest of the data,
    [FileReader.readzstr] on a file object reads to the end and then
    fails with the error of [struct.unpack], its flag set, without
    returning what it has collected.  With the flag set beforehand
    the first raises [EOFError] and the second returns [None]. *)
Theorem readzstr_unterminated (c : bytes) (p : Z) (kind : io.kind)
    (fuel : nat) :
  0 <= p <= len c ->
  ~ In x00 (py_slice_from c p) ->
  (length (py_slice_from c p) < fuel)%nat ->
  DataReader_readzstr decode (DataReader.mk c p false)
  = (decode (py_slice_from c p), DataReader.mk c (len c) false) /\
  FileReader_readzstr decode fuel
    (FileReader.mk Raw false, io.mkfile kind c (Z.to_N p))
  = Some (inl StructError,
          (FileReader.mk Raw true, io.mkfile kind c (Z.to_N (len c)))) /\
  DataReader_readzstr decode (DataReader.mk c p true)
  = (inl EOFError, DataReader.mk c p true) /\
  FileReader_readzstr decode fuel
    (FileReader.mk Raw true, io.mkfile kind c (Z.to_N p))
  = Some (inr None, (FileReader.mk Raw true, io.mkfile kind c (Z.to_N p))).
Proof.
  intros Hp Hn Hfuel. repeat split.
  - apply DataReader_readzstr_rest; assumption.
  - unfold FileReader_readzstr.
    rewrite (readzstr_loop_runs_out decode (py_slice_from c p) []
               (io.mkfile kind c (Z.to_N p)) fuel).
    + reflexivity.
    + unfold io.tell. cbn [io.content io.fpos].
      rewrite Z2N.id by lia. reflexivity.
    + unfold io.tell. cbn [io.content io.fpos]. lia.
    + exact Hn.
    + exact Hfuel.
  - rewrite py_slice_from_skipn in Hn by lia.
    unfold DataReader_readzstr, find_zero.
    cbn [DataReader.data DataReader.pos DataReader._eof].
    rewrite slice_bound_inside by lia.
    rewrite find_from_none by exact Hn. reflexivity.
  - destruct fuel as [|fuel]; [lia|]. reflexivity.
Qed.

End readzstr_theorems.

Lemma readzstr_terminated_witness :
  DataReader_readzstr inr (DataReader.mk (abcdef ++ x00 :: abcdef) 2 true)
  = (inr ["c"; "d"; "e"; "f"]%byte,
     DataReader.mk (abcdef ++ x00 :: abcdef) 7 true) /\
  FileReader_readzstr inr 5
    (FileReader.mk Raw false,
     io.mkfile io.BytesIO (abcdef ++ x00 :: abcdef) 2)
  = Some (inr (Some ["c"; "d"; "e"; "f"]%byte),
          (FileReader.mk Raw false,
           io.mkfile io.BytesIO (abcdef ++ x00 :: abcdef) 7)).
Proof.
  apply (readzstr_terminated inr (abcdef ++ x00 :: abcdef)
           ["c"; "d"; "e"; "f"]%byte abcdef ["c"; "d"; "e"; "f"]%byte 2
           true io.BytesIO 5).
  - lia.
  - reflexivity.
  - cbn. intros [H|[H|[H|[H|[]]]]]; discriminate.
  - reflexivity.
  - cbn. lia.
Defined.

Lemma readzstr_unterminated_witness :
  DataReader_readzstr inr (DataReader.mk abcdef 2 false)
  = (inr ["c"; "d"; "e"; "f"]%byte, DataReader.mk abcdef 6 false) /\
  FileReader_readzstr inr 5
    (FileReader.mk Raw false, io.mkfile io.BytesIO abcdef 2)
  = Some (inl StructError,
          (FileReader.mk Raw true, io.mkfile io.BytesIO abcdef 6)).
Proof.
  destruct (readzstr_unterminated (T := bytes) inr abcdef 2 io.BytesIO 5)
    as (H1 & H2 & _).
  - vm_compute. split; discriminate.
  - cbn. intros [H|[H|[H|[H|[]]]]]; discriminate.
  - vm_compute. lia.
  - split; [exact H1|exact H2].
Defined.

(** ** Decoding what has been put together *)

Lemma py_slice_app_mid {A} (pre x post : list A) :
  py_slice (pre ++ x ++ post) (len pre) (len pre + len x) = x.
Proof.
  pose proof (len_nonneg pre). pose proof (len_nonneg x).
  rewrite py_slice_segment by lia.
  replace (Z.to_nat (len pre + len x - len pre)) with (length x)
    by (unfold len; lia).
  replace (Z.to_nat (len pre)) with (length pre) by (unfold len; lia).
  change skipn with (@drop A). change firstn with (@take A).
  rewrite drop_app_length. apply take_app_length.
Qed.

Lemma raw_window (c : bytes) :
  forall f k,
    io.content f = c -> 0 <= k -> io.tell f <= len c ->
    fh_read Raw (Some k) f
    = (inr (py_slice c (io.tell f) (Z.min (io.tell f + k) (len c))),
       io.set_fpos (Z.min (io.tell f + k) (len c)) f).
Proof. intros f k Hc Hk Hq. subst c. apply raw_reads; assumption. Qed.

(** An unsigned little-endian field of a file that holds the encoding
    of [v] at the position *)
Lemma read_encoded_field (fmt : string) (cd : Struct.code) (v : Z)
    (pre post : bytes) (f : io.file) :
  Struct.parse fmt = Some (Struct.LittleEndian, [cd]) ->
  Struct.code_signed cd = false ->
  io.content f = pre ++ encode_le (Struct.code_size cd) v ++ post ->
  io.tell f = len pre ->
  0 <= v < 256 ^ Z.of_nat (Struct.code_size cd) ->
  (d <- read (Some (Z.of_nat (Struct.code_size cd))) ;; unpack1 fmt d)
    (FileReader.mk Raw false, f)
  = (inr v,
     (FileReader.mk Raw false,
      io.set_fpos (len pre + Z.of_nat (Struct.code_size cd)) f)).
Proof.
  intros Hp Hs Hc Hq Hv.
  assert (Hlen : len (io.content f)
                 = len pre + Z.of_nat (Struct.code_size cd) + len post).
  { rewrite Hc, !len_app. unfold len at 2. rewrite length_encode_le. lia. }
  pose proof (len_nonneg post) as Hpost.
  rewrite (window_field Raw (io.content f) (len (io.content f))
             ltac:(lia) (raw_window (io.content f)) fmt cd f Hp eq_refl)
    by lia.
  cbv zeta. rewrite Hq. rewrite field_value_unsigned by exact Hs.
  replace (Z.of_nat (Struct.code_size cd))
    with (len (encode_le (Struct.code_size cd) v)) at 1
    by (unfold len; rewrite length_encode_le; reflexivity).
  rewrite Hc at 1. rewrite py_slice_app_mid.
  rewrite le_value_encode_le. rewrite Z.mod_small by exact Hv.
  reflexivity.
Qed.

Lemma read16le_encoded (v : Z) (pre post : bytes) (f : io.file) :
  io.content f = pre ++ encode_le 2 v ++ post -> io.tell f = len pre ->
  0 <= v < 2 ^ 16 ->
  read16le (FileReader.mk Raw false, f)
  = (inr v, (FileReader.mk Raw false, io.set_fpos (len pre + 2) f)).
Proof.
  intros Hc Hq Hv.
  exact (read_encoded_field "<H" Struct.c_H v pre post f eq_refl eq_refl
           Hc Hq Hv).
Qed.

Lemma read32le_encoded (v : Z) (pre post : bytes) (f : io.file) :
  io.content f = pre ++ encode_le 4 v ++ post -> io.tell f = len pre ->
  0 <= v < 2 ^ 32 ->
  read32le (FileReader.mk Raw false, f)
  = (inr v, (FileReader.mk Raw false, io.set_fpos (len pre + 4) f)).
Proof.
  intros Hc Hq Hv.
  exact (read_encoded_field "<L" Struct.c_L v pre post f eq_refl eq_refl
           Hc Hq Hv).
Qed.

Lemma read64le_encoded (v : Z) (pre post : bytes) (f : io.file) :
  io.content f = pre ++ encode_le 8 v ++ post -> io.tell f = len pre ->
  0 <= v < 2 ^ 64 ->
  read64le (FileReader.mk Raw false, f)
  = (inr v, (FileReader.mk Raw false, io.set_fpos (len pre + 8) f)).
Proof.
  intros Hc Hq Hv.
  exact (read_encoded_field "<Q" Struct.c_Q v pre post f eq_refl eq_refl
           Hc Hq Hv).
Qed.

Lemma len_encode_le (n : nat) (v : Z) : len (encode_le n v) = Z.of_nat n.
Proof. unfold len. rewrite length_encode_le. reflexivity. Qed.

Lemma len_bsuf_entry (t ck : Z) (pl : bytes) :
  len (bsuf_entry t pl ck) = 8 + len pl.
Proof.
  unfold bsuf_entry. rewrite !len_app, !len_encode_le. lia.
Qed.

(** An entry of a file that holds its encoding at the position *)
Lemma BsufEntry_decodes (e : Z * bytes * Z) (pre post : bytes)
    (f : io.file) :
  io.content f
    = pre ++ bsuf_entry (fst (fst e)) (snd (fst e)) (snd e) ++ post ->
  io.tell f = len pre ->
  entry_fits e ->
  BsufEntry__init__ (FileReader.mk Raw false, f)
  = (inr (mkBsufEntry (len (snd (fst e))) (fst (fst e)) (len pre + 6)
            (FileReader.__init__
               (StreamRange Raw (len pre + 6) (Some (len (snd (fst e))))))
            (snd e)),
     (FileReader.mk Raw false,
      io.set_fpos (len pre + 8 + len (snd (fst e))) f)).
Proof.
  destruct e as [[t pl] ck]. unfold entry_fits. cbn [fst snd].
  intros Hc Hq (Ht & Hpl & Hck).
  pose proof (len_nonneg pre) as Hpre. pose proof (len_nonneg pl) as Hpl0.
  unfold bsuf_entry in Hc.
  unfold BsufEntry__init__, bind at 1.
  rewrite (read32le_encoded (len pl) pre
             (encode_le 2 t ++ pl ++ encode_le 2 ck ++ post) f);
    [|rewrite Hc, <- !app_assoc; reflexivity|exact Hq|lia].
  unfold bind at 1.
  rewrite (read16le_encoded t (pre ++ encode_le 4 (len pl))
             (pl ++ encode_le 2 ck ++ post));
    [|cbn [io.content io.set_fpos]; rewrite Hc, <- !app_assoc; reflexivity
     |rewrite io_tell_set_fpos by lia; rewrite len_app, len_encode_le;
      reflexivity
     |lia].
  rewrite len_app, len_encode_le. norm_file.
  change (Z.of_nat 4) with 4.
  replace (len pre + 4 + 2) with (len pre + 6) by lia.
  unfold bind at 1.
  cbn [tell FileReader_BaseReader]. unfold FileReader.tell.
  cbn [fst snd FileReader.fh fh_tell]. norm_file.
  unfold bind at 1. cbn [subreader FileReader_BaseReader].
  unfold FileReader.subreader, FileReader.tell.
  cbn [fst snd FileReader.fh fh_tell]. norm_file.
  unfold bind at 1. unfold skip, bind at 1.
  cbn [seek FileReader_BaseReader].
  unfold FileReader.seek, bind at 1, FileReader.set_eof, modify,
    FileReader.on_file.
  cbn [fst snd FileReader.fh].
  rewrite fh_seek_cur by (norm_file; lia). norm_file.
  unfold ret at 1. unfold bind at 1.
  rewrite (read16le_encoded ck
             (pre ++ encode_le 4 (len pl) ++ encode_le 2 t ++ pl) post);
    [|cbn [io.content io.set_fpos]; rewrite Hc, <- !app_assoc; reflexivity
     |rewrite io_tell_set_fpos by lia; rewrite !len_app, !len_encode_le; lia
     |lia].
  rewrite !len_app, !len_encode_le. norm_file.
  unfold ret. do 3 f_equal. lia.
Qed.

Lemma loop_run_decodes (post : bytes) (f : io.file) :
  forall (es : list (Z * bytes * Z)) (pre : bytes),
    io.content f = pre ++ bsuf_entries es ++ post ->
    Forall entry_fits es ->
    loop_run (len pre + len (bsuf_entries es))
      (FileReader.mk Raw false, io.set_fpos (len pre) f)
      (entries_at (len pre) es)
      (FileReader.mk Raw false,
       io.set_fpos (len pre + len (bsuf_entries es)) f).
Proof.
  induction es as [|e es IH]; intros pre Hc Hall;
    pose proof (len_nonneg pre) as Hpre.
  - cbn [bsuf_entries flat_map entries_at].
    change (len (@nil byte)) with 0. rewrite Z.add_0_r.
    apply (loop_exit (St := FileReader.state)).
    cbn [tell FileReader_BaseReader]. unfold FileReader.tell.
    cbn [fst snd FileReader.fh fh_tell]. rewrite io_tell_set_fpos by lia.
    lia.
  - inversion Hall as [|? ? He Hrest]; subst.
    cbn [bsuf_entries flat_map entries_at] in *.
    fold (bsuf_entries es) in *.
    pose proof (len_nonneg (snd (fst e))) as Hpl.
    pose proof (len_nonneg (bsuf_entries es)) as Hes.
    rewrite len_app, len_bsuf_entry.
    eapply (loop_entry (St := FileReader.state)).
    + cbn [tell FileReader_BaseReader]. unfold FileReader.tell.
      cbn [fst snd FileReader.fh fh_tell]. rewrite io_tell_set_fpos by lia.
      lia.
    + rewrite (BsufEntry_decodes e pre (bsuf_entries es ++ post)).
      * rewrite io_set_fpos_twice. reflexivity.
      * cbn [io.content io.set_fpos]. rewrite Hc, <- !app_assoc.
        reflexivity.
      * apply io_tell_set_fpos. lia.
      * exact He.
    + specialize (IH (pre ++ bsuf_entry (fst (fst e)) (snd (fst e)) (snd e))).
      rewrite len_app, len_bsuf_entry in IH.
      replace (len pre + (8 + len (snd (fst e))))
        with (len pre + 8 + len (snd (fst e))) in IH by lia.
      replace (len pre + (8 + len (snd (fst e)) + len (bsuf_entries es)))
        with (len pre + 8 + len (snd (fst e)) + len (bsuf_entries es))
        by lia.
      apply IH; [|exact Hrest].
      rewrite Hc, <- !app_assoc. reflexivity.
Qed.

Lemma length_entries_at (es : list (Z * bytes * Z)) :
  forall start, length (entries_at start es) = length es.
Proof.
  induction es as [|e es IH]; intros start; cbn [entries_at length];
    [reflexivity|]. rewrite IH. reflexivity.
Qed.

(** The payload views of the entries found cover the payloads. *)
Lemma entries_at_payloads (post : bytes) :
  forall (es : list (Z * bytes * Z)) (pre : bytes),
    map (fun ent => py_slice (pre ++ bsuf_entries es ++ post)
                      (ent_ofs ent) (ent_ofs ent + ent_size ent))
      (entries_at (len pre) es)
    = map (fun e => snd (fst e)) es.
Proof.
  induction es as [|e es IH]; intros pre; cbn [entries_at map];
    [reflexivity|].
  cbn [ent_ofs ent_size bsuf_entries flat_map]. fold (bsuf_entries es).
  f_equal.
  - set (front := pre ++ encode_le 4 (len (snd (fst e)))
                     ++ encode_le 2 (fst (fst e))).
    replace (pre ++ (bsuf_entry (fst (fst e)) (snd (fst e)) (snd e)
                     ++ bsuf_entries es) ++ post)
      with (front ++ snd (fst e)
            ++ (encode_le 2 (snd e) ++ bsuf_entries es ++ post))
      by (unfold front, bsuf_entry; rewrite <- !app_assoc; reflexivity).
    replace (len pre + 6) with (len front)
      by (unfold front; rewrite !len_app, !len_encode_le; lia).
    apply py_slice_app_mid.
  - specialize (IH (pre ++ bsuf_entry (fst (fst e)) (snd (fst e)) (snd e))).
    rewrite len_app, len_bsuf_entry in IH.
    replace (len pre + (8 + len (snd (fst e))))
      with (len pre + 8 + len (snd (fst e))) in IH by lia.
    rewrite <- IH. rewrite <- !app_assoc. reflexivity.
Qed.

(** X26: a file put together from a version, entries and a checksum
    that fit their fields decodes to just these: the constructor
    returns the version, one entry for each one given, with its type,
    size and checksum, in order and at the offsets they were put, and
    the checksum, and leaves the reader at the end of the file; the
    view of each entry covers exactly its payload. *)
Theorem container_roundtrip (version checksum : Z)
    (es : list (Z * bytes * Z)) (fuel : nat) :
  Forall entry_fits es ->
  0 <= version < 2 ^ 32 -> 0 <= checksum < 2 ^ 16 ->
  len (bsuf_entries es) < 2 ^ 32 ->
  (length es <= fuel)%nat ->
  let file := bsuf_file version es checksum in
  BsufFile__init__ fuel (file_of io.OSFile file)
  = Some (inr (mkBsufFile version (entries_at 16 es) checksum),
          (FileReader.mk Raw false,
           io.mkfile io.OSFile file (Z.to_N (len file)))) /\
  map (fun ent => py_slice file (ent_ofs ent) (ent_ofs ent + ent_size ent))
    (entries_at 16 es)
  = map (fun e => snd (fst e)) es.
Proof.
  intros Hall Hv Hck Hlen Hfuel file.
  pose proof (len_nonneg (bsuf_entries es)) as Hes.
  set (hdr := bsuf_header version (len (bsuf_entries es))).
  assert (Hhdr : len hdr = 16).
  { unfold hdr, bsuf_header. rewrite !len_app, !len_encode_le. reflexivity. }
  assert (Hfile : file = hdr ++ bsuf_entries es ++ encode_le 2 checksum)
    by reflexivity.
  split.
  2:{ rewrite Hfile, <- Hhdr. apply entries_at_payloads. }
  set (f := io.mkfile io.OSFile file 0).
  assert (Hhead : BsufFile_header (FileReader.mk Raw false, f)
                  = (inr (version, len (bsuf_entries es)),
                     (FileReader.mk Raw false, io.set_fpos 16 f))).
  { unfold BsufFile_header, bind at 1.
    rewrite (read64le_encoded magic []
               (encode_le 4 version ++ encode_le 4 (len (bsuf_entries es))
                ++ bsuf_entries es ++ encode_le 2 checksum) f);
      [|subst f; cbn [io.content]; rewrite Hfile; unfold hdr, bsuf_header;
        rewrite <- !app_assoc; reflexivity
       |reflexivity
       |unfold magic; lia].
    fold magic. rewrite Z.eqb_refl. cbn [negb].
    unfold bind at 1.
    rewrite (read32le_encoded version (encode_le 8 magic)
               (encode_le 4 (len (bsuf_entries es))
                ++ bsuf_entries es ++ encode_le 2 checksum));
      [|subst f; cbn [io.content io.set_fpos]; rewrite Hfile;
        unfold hdr, bsuf_header; rewrite <- !app_assoc; reflexivity
       |reflexivity
       |exact Hv].
    unfold bind at 1.
    rewrite (read32le_encoded (len (bsuf_entries es))
               (encode_le 8 magic ++ encode_le 4 version)
               (bsuf_entries es ++ encode_le 2 checksum));
      [|subst f; cbn [io.content io.set_fpos]; rewrite Hfile;
        unfold hdr, bsuf_header; rewrite <- !app_assoc; reflexivity
       |reflexivity
       |lia].
    unfold bind.
    cbn [size FileReader_BaseReader]. unfold FileReader.size, bind,
      FileReader.fileno, FileReader.on_file.
    cbn [fst snd FileReader.fh fh_fileno io.fileno io.fkind io.set_fpos f].
    destruct (negb _); reflexivity. }
  unfold BsufFile__init__, file_of, new_file, FileReader.__init__.
  fold f. unfold FileReader.state in *. rewrite Hhead.
  pose proof (loop_run_decodes (encode_le 2 checksum) f es hdr Hfile Hall)
    as Hrun.
  rewrite Hhdr in Hrun.
  replace (len (bsuf_entries es) + 16) with (16 + len (bsuf_entries es))
    by lia.
  rewrite (loop_run_entries_loop _ _ _ _ Hrun [] fuel)
    by (rewrite length_entries_at; exact Hfuel).
  cbn [app]. unfold bind.
  rewrite (read16le_encoded checksum (hdr ++ bsuf_entries es) []);
    [|cbn [io.content io.set_fpos f]; rewrite Hfile, <- !app_assoc;
      reflexivity
     |rewrite io_tell_set_fpos by lia; rewrite len_app; lia
     |exact Hck].
  unfold ret. do 3 f_equal.
  unfold io.set_fpos. cbn [io.fkind io.content f]. f_equal. f_equal.
  rewrite Hfile, !len_app, len_encode_le. lia.
Qed.

Lemma container_roundtrip_witness :
  BsufFile__init__ 2
    (file_of io.OSFile
       (bsuf_file 1 [(3, firmware_payload, 0); (0, abcdef, 7)] 0xBEEF))
  = Some (inr (mkBsufFile 1
                 (entries_at 16 [(3, firmware_payload, 0); (0, abcdef, 7)])
                 0xBEEF),
          (FileReader.mk Raw false,
           io.mkfile io.OSFile
             (bsuf_file 1 [(3, firmware_payload, 0); (0, abcdef, 7)] 0xBEEF)
             70)).
Proof.
  apply (container_roundtrip 1 0xBEEF
           [(3, firmware_payload, 0); (0, abcdef, 7)] 2).
  - repeat constructor; vm_compute; congruence.
  - lia.
  - lia.
  - vm_compute. reflexivity.
  - cbn. lia.
Defined.
